(** * WP Optimizer Pro: the job orchestration core of [App.tsx]

    A shallow embedding of the orchestration code of [src/App.tsx]:
    the phase table [PHASE_CONFIG] and the progress component, the
    single-job engine [executeGodMode], the bulk input parser
    [parseBulkUrls] and the wave scheduler [executeBulkOptimization].

    Conventions of the embedding.
    - A JavaScript string is the list of its UTF-16 code units.
    - A JavaScript number that the code only compares, adds or rounds is
      an integer [Z]; where the code divides, the quotient is the exact
      rational [Q] (the doubles of the engine are idealised as such).
    - The modules the file imports ([./store], [./utils],
      [./fetch-service], [./lib/ai-orchestrator], [./neuronwriter]) are
      collaborators: what each call answers in one run is a field of the
      record [World]; what the run asks of them is recorded as an event.
    - Log lines and toasts do not influence control flow; they are left
      out of the event log. *)

From Stdlib Require Import List ZArith NArith QArith Qround Bool Lia String Ascii Arith.

From Stdlib Require Import Permutation DecimalString.

Import ListNotations.

Local Open Scope Z_scope.

(* ===================================================================== *)
(** ** JavaScript strings *)
(* ===================================================================== *)

Module Js.

(** A string is its sequence of UTF-16 code units. *)
Definition str := list N.

(** A literal of the source, written as a Rocq string. *)
Definition lit (s : string) : str :=
  map N_of_ascii (list_ascii_of_string s).

Fixpoint eqb (a b : str) : bool :=
  match a, b with
  | [], [] => true
  | x :: a', y :: b' => N.eqb x y && eqb a' b'
  | _, _ => false
  end.

(** [a.startsWith(p)] *)
Fixpoint startsWith (a p : str) : bool :=
  match p, a with
  | [], _ => true
  | y :: p', x :: a' => N.eqb x y && startsWith a' p'
  | _ :: _, [] => false
  end.

(** [a.length] *)
Definition len (a : str) : Z := Z.of_nat (List.length a).

(** A string is truthy when it is not empty. *)
Definition truthy (a : str) : bool :=
  match a with [] => false | _ => true end.

(** [a || b] on strings. *)
Definition or_else (a b : str) : str :=
  if truthy a then a else b.

(** The code units matched by [\s] in a regular expression, which are
    also the ones [String.prototype.trim] strips (WhiteSpace and
    LineTerminator of ECMAScript). *)
Definition is_space (c : N) : bool :=
  ((9 <=? c) && (c <=? 13) ||
   (c =? 32) || (c =? 160) || (c =? 5760) ||
   ((8192 <=? c) && (c <=? 8202)) ||
   (c =? 8232) || (c =? 8233) || (c =? 8239) || (c =? 8287) ||
   (c =? 12288) || (c =? 65279))%N.

Fixpoint trimStart (a : str) : str :=
  match a with
  | c :: a' => if is_space c then trimStart a' else a
  | [] => []
  end.

(** [a.trim()] *)
Definition trim (a : str) : str :=
  rev (trimStart (rev (trimStart a))).

(** [text.split(re)] for a regular expression [re] of the shape
    [[...]+], a non-empty run of separator code units: the pieces
    between maximal runs of separators, with an empty first piece when
    the text starts with a separator and an empty last piece when it
    ends with one.  [cur] is the piece being read, reversed; [in_sep]
    tells that the previous code unit was a separator. *)
Fixpoint split_go (sep : N -> bool) (a : str) (cur : str) (in_sep : bool)
  : list str :=
  match a with
  | [] => [rev cur]
  | c :: a' =>
      if sep c
      then if in_sep then split_go sep a' cur true
           else rev cur :: split_go sep a' [] true
      else split_go sep a' (c :: cur) false
  end.

Definition split (sep : N -> bool) (a : str) : list str :=
  split_go sep a [] false.

(** [arr.indexOf(u)], with [-1] as [None]. *)
Fixpoint indexOf (arr : list str) (u : str) : option nat :=
  match arr with
  | [] => None
  | v :: arr' =>
      if eqb v u then Some 0%nat
      else option_map S (indexOf arr' u)
  end.

(** The decimal digits of an integer, as [n.toString()] gives them. *)
Definition of_Z (n : Z) : str :=
  lit (DecimalString.NilZero.string_of_int (Z.to_int n)).

(** [a.padStart(2, '0')] *)
Definition padStart2 (a : str) : str :=
  match a with
  | [] => lit "00"
  | [c] => 48%N :: [c]
  | _ => a
  end.

End Js.

Abbreviation js := Js.lit.

(* ===================================================================== *)
(** ** Constants *)
(* ===================================================================== *)

Definition QA_PASS_THRESHOLD : Z := 65.

Definition MIN_WORD_COUNT : Z := 3000.

Definition TARGET_WORD_COUNT : Z := 4000.

Definition JOB_TIMEOUT_MS : Z := 10 * 60 * 1000.

Definition TOTAL_STEPS : Z := 15.

(** [Math.round]: the nearest integer, halves towards plus infinity. *)
Definition Math_round (q : Q) : Z := Qfloor (q + (1 # 2)).

(** [Math.floor] *)
Definition Math_floor (q : Q) : Z := Qfloor q.

(* ===================================================================== *)
(** ** The phase table *)
(* ===================================================================== *)

(** [ProgressPhaseConfig]; icon, colour and description are
    presentation only. *)
Record ProgressPhaseConfig := {
  label : Js.str;
  step : Z
}.

(** [PHASE_CONFIG], an object used as a map from phase name to entry,
    in the order of its keys. *)
Definition PHASE_CONFIG : list (Js.str * ProgressPhaseConfig) :=
  [ (js "idle",                {| label := js "Ready";           step := 0 |});
    (js "initializing",        {| label := js "Initializing";    step := 1 |});
    (js "resolving_post",      {| label := js "Finding Post";    step := 2 |});
    (js "analyzing_existing",  {| label := js "Analyzing";       step := 3 |});
    (js "entity_gap_analysis", {| label := js "Entity Analysis"; step := 4 |});
    (js "neuron_analysis",     {| label := js "NLP Analysis";    step := 5 |});
    (js "reference_discovery", {| label := js "References";      step := 6 |});
    (js "outline_generation",  {| label := js "Outline";         step := 7 |});
    (js "section_drafts",      {| label := js "Writing";         step := 8 |});
    (js "youtube_integration", {| label := js "Video";           step := 9 |});
    (js "merge_content",       {| label := js "Merging";         step := 10 |});
    (js "internal_linking",    {| label := js "Links";           step := 11 |});
    (js "qa_validation",       {| label := js "QA Check";        step := 12 |});
    (js "final_polish",        {| label := js "Polishing";       step := 13 |});
    (js "publishing",          {| label := js "Publishing";      step := 14 |});
    (js "completed",           {| label := js "Complete!";       step := 15 |});
    (js "failed",              {| label := js "Failed";          step := 0 |}) ].

(** [PHASE_CONFIG[phase]] *)
Fixpoint lookup_phase (tbl : list (Js.str * ProgressPhaseConfig)) (phase : Js.str)
  : option ProgressPhaseConfig :=
  match tbl with
  | [] => None
  | (k, c) :: tbl' => if Js.eqb k phase then Some c else lookup_phase tbl' phase
  end.

(** [PHASE_CONFIG[phase] || PHASE_CONFIG['idle']] *)
Definition phaseConfig (phase : Js.str) : ProgressPhaseConfig :=
  match lookup_phase PHASE_CONFIG phase with
  | Some c => c
  | None =>
      match lookup_phase PHASE_CONFIG (js "idle") with
      | Some c => c
      | None => {| label := []; step := 0 |}
      end
  end.

(** [currentStep] of the progress component. *)
Definition currentStep (phase : Js.str) : Z := step (phaseConfig phase).

(* ===================================================================== *)
(** ** The progress component [OptimizationProgress] *)
(* ===================================================================== *)

(** [Math.round((currentStep / TOTAL_STEPS) * 100)] *)
Definition progressPercent (phase : Js.str) : Z :=
  Math_round ((inject_Z (currentStep phase) / inject_Z TOTAL_STEPS) * 100)%Q.

(** [formatTime(ms)]: minutes and two-digit seconds. *)
Definition formatTime (ms : Q) : Js.str :=
  let seconds := Math_floor (ms / 1000)%Q in
  let mins := Math_floor (inject_Z seconds / 60)%Q in
  let secs := Z.rem seconds 60 in
  Js.of_Z mins ++ js ":" ++ Js.padStart2 (Js.of_Z secs).

(** [avgTimePerStep * remainingSteps] of [estimateRemainingTime]. *)
Definition estimatedRemaining (phase : Js.str) (elapsedTime : Z) : Q :=
  let avgTimePerStep := (inject_Z elapsedTime / inject_Z (currentStep phase))%Q in
  let remainingSteps := TOTAL_STEPS - currentStep phase in
  (avgTimePerStep * inject_Z remainingSteps)%Q.

(** [estimateRemainingTime()] *)
Definition estimateRemainingTime (phase : Js.str) (elapsedTime : Z) : Js.str :=
  if (currentStep phase =? 0) || (elapsedTime =? 0) then js "--:--"
  else formatTime (estimatedRemaining phase elapsedTime).

(* ===================================================================== *)
(** ** Data of the single-job engine *)
(* ===================================================================== *)

(** [store.apiKeys]; a key that is not configured is the empty string. *)
Record ApiKeys := {
  google : Js.str;
  openrouter : Js.str;
  openai : Js.str;
  anthropic : Js.str;
  groq : Js.str;
  serper : Js.str;
  neuronwriter : Js.str;
  neuronProject : Js.str
}.

(** [store.wpConfig] *)
Record WpConfig := {
  url : Js.str;
  username : Js.str;
  password : Js.str
}.

(** The fields of [page.jobState] that the engine reads. *)
Record JobState := {
  status : Js.str;
  attempts : Z
}.

(** The fields of [SitemapPage] that the engine reads; [healthScore] is
    [number | null]. *)
Record SitemapPage := {
  id : Js.str;
  title : Js.str;
  slug : Js.str;
  healthScore : option Z;
  jobState : option JobState
}.

(** [InternalLinkTarget] *)
Record InternalLinkTarget := {
  link_url : Js.str;
  link_title : Js.str;
  link_slug : Js.str
}.

(** The React state [optimizationProgress]. *)
Record Progress := {
  isRunning : bool;
  phase : Js.str;
  progress : Z;
  startTime : option Z;
  currentUrl : Js.str;
  sectionsCompleted : Z;
  totalSections : Z;
  wordCount : Z
}.

(** One field of an object literal spread over the previous progress
    value: [setOptimizationProgress(prev => ({ ...prev, f1, f2, ... }))]. *)
Inductive ProgressField :=
| F_isRunning (b : bool)
| F_phase (p : Js.str)
| F_currentUrl (u : Js.str)
| F_sectionsCompleted (n : Z)
| F_totalSections (n : Z)
| F_wordCount (n : Z).

Definition set_field (prev : Progress) (f : ProgressField) : Progress :=
  match f with
  | F_isRunning b =>
      {| isRunning := b; phase := phase prev; progress := progress prev;
         startTime := startTime prev; currentUrl := currentUrl prev;
         sectionsCompleted := sectionsCompleted prev;
         totalSections := totalSections prev; wordCount := wordCount prev |}
  | F_phase p =>
      {| isRunning := isRunning prev; phase := p; progress := progress prev;
         startTime := startTime prev; currentUrl := currentUrl prev;
         sectionsCompleted := sectionsCompleted prev;
         totalSections := totalSections prev; wordCount := wordCount prev |}
  | F_currentUrl u =>
      {| isRunning := isRunning prev; phase := phase prev; progress := progress prev;
         startTime := startTime prev; currentUrl := u;
         sectionsCompleted := sectionsCompleted prev;
         totalSections := totalSections prev; wordCount := wordCount prev |}
  | F_sectionsCompleted n =>
      {| isRunning := isRunning prev; phase := phase prev; progress := progress prev;
         startTime := startTime prev; currentUrl := currentUrl prev;
         sectionsCompleted := n;
         totalSections := totalSections prev; wordCount := wordCount prev |}
  | F_totalSections n =>
      {| isRunning := isRunning prev; phase := phase prev; progress := progress prev;
         startTime := startTime prev; currentUrl := currentUrl prev;
         sectionsCompleted := sectionsCompleted prev;
         totalSections := n; wordCount := wordCount prev |}
  | F_wordCount n =>
      {| isRunning := isRunning prev; phase := phase prev; progress := progress prev;
         startTime := startTime prev; currentUrl := currentUrl prev;
         sectionsCompleted := sectionsCompleted prev;
         totalSections := totalSections prev; wordCount := n |}
  end.

(** [{ ...prev, ...patch }] *)
Definition merge (prev : Progress) (patch : list ProgressField) : Progress :=
  fold_left set_field patch prev.

(** One field of the patch handed to [store.updateJobState]. The
    analysis data, the contract and the QA details are opaque. *)
Inductive JobField :=
| J_status (s : Js.str)
| J_phase (p : Js.str)
| J_error (e : option Js.str)
| J_attempts (n : Z)
| J_startTime (t : Z)
| J_processingTime (t : Z)
| J_entityGapData
| J_neuronData
| J_contract
| J_qaResults
| J_postId (n : Z).

(** One field of the patch handed to [store.updatePage]. *)
Inductive PageField :=
| P_status (s : Js.str)
| P_title (t : Js.str)
| P_targetKeyword (t : Js.str)
| P_healthScore (n : Z)
| P_wordCount (n : Z)
| P_seoMetrics
| P_improvementHistory
| P_wpPostId (n : Z)
| P_lastPublishedAt.

(** [PostPreservationData] *)
Record PostPreservationData := {
  originalSlug : option Js.str;
  originalLink : option Js.str;
  originalCategories : list Z;
  originalTags : list Z;
  featuredImageId : option Z
}.

(** What [wpGetPostWithImages] answers, as far as the engine reads it:
    [post_link] is [postData.post.link || null], [post_title] is
    [post.title?.rendered || post.title?.raw || ''], [post_content] is
    [post.content?.rendered || ''], [featuredImage] the id of
    [postData.featuredImage] when there is one. *)
Record PostData := {
  post_originalSlug : option Js.str;
  post_link : option Js.str;
  post_originalCategories : list Z;
  post_originalTags : list Z;
  featuredImage : option Z;
  post_title : Js.str;
  post_content : Js.str
}.

(** [ContentContract], as far as the engine reads it. *)
Record ContentContract := {
  c_title : Js.str;
  htmlContent : Js.str;
  excerpt : Js.str;
  c_slug : Js.str;
  metaDescription : Js.str
}.

(** The object [publishData]; a field that was not assigned is [None]. *)
Record PublishData := {
  pd_title : Js.str;
  pd_content : Js.str;
  pd_excerpt : Js.str;
  pd_status : Js.str;
  pd_categories : option (list Z);
  pd_tags : option (list Z);
  pd_featured_media : option Z;
  pd_slug : option Js.str
}.

(** The options object of [wpUpdatePost]. *)
Record UpdateOptions := {
  o_preserveFeaturedImage : bool;
  o_preserveSlug : bool;
  o_preserveCategories : bool;
  o_preserveTags : bool
}.

(** [StageProgress], the argument of the synthesis callback. *)
Record StageProgress := {
  stage : Js.str;
  st_sectionsCompleted : option Z;
  st_totalSections : option Z
}.

(** The part of [calculateSeoMetrics]' answer the engine reads. *)
Record SeoMetrics := {
  aeoScore : Z;
  contentDepth : Z;
  headingStructure : Z;
  m_wordCount : Z
}.

(** The value [executeGodMode] resolves to. *)
Record GodModeResult := {
  success : bool;
  score : Z;
  r_wordCount : Z;
  error : option Js.str
}.

(** A call to a remote collaborator. *)
Inductive Call :=
| wpResolvePostIdEnhanced (site target : Js.str)
| wpGetPostWithImages (site : Js.str) (postId : Z)
| performEntityGapAnalysis (topic : Js.str)
| getNeuronWriterAnalysis (topic : Js.str)
| generateEnhanced (topic : Js.str) (internalLinks : list InternalLinkTarget)
| wpUpdatePost (site : Js.str) (postId : Z) (data : PublishData) (opts : UpdateOptions)
| wpCreatePost (site : Js.str) (data : PublishData)
| wpUpdatePostMeta (site : Js.str) (postId : Z) (title description focusKeyword : Js.str).

(** What a run does to the world outside it, in order. The one event a
    run does not issue itself is [cancelCurrentJob], a request made by
    the user while the run is suspended. *)
Inductive Event :=
| setOptimizationProgress (p : Progress)
| updateOptimizationProgress (patch : list ProgressField)
| cancelCurrentJob
| addPages (p : SitemapPage)
| setManualUrl (u : Js.str)
| setTargetKeywordOverride (k : Js.str)
| initJobState (target : Js.str)
| updateJobState (target : Js.str) (patch : list JobField)
| updatePage (target : Js.str) (patch : list PageField)
| setNeuronTerms
| updateGlobalStats
| call (c : Call).

(* ===================================================================== *)
(** ** The monad of a run: state, exceptions, suspension *)
(* ===================================================================== *)

(** The result of a computation: a value, or a thrown error with its
    [message] (empty when the thrown value carries none). *)
Inductive Res (A : Type) :=
| Ok (a : A)
| Throw (message : Js.str).

Arguments Ok {A} a.

Arguments Throw {A} message.

(** The state a run evolves in: the flag of [cancellationTokenRef], the
    events so far, and what the user will do at the coming suspension
    points ([true]: a cancellation is requested there). *)
Record St := {
  cancelled : bool;
  log : list Event;
  requests : list bool
}.

Definition M (A : Type) : Type := St -> Res A * St.

Definition ret {A} (a : A) : M A := fun s => (Ok a, s).

Definition bind {A B} (m : M A) (k : A -> M B) : M B :=
  fun s =>
    match m s with
    | (Ok a, s') => k a s'
    | (Throw e, s') => (Throw e, s')
    end.

Definition throw {A} (e : Js.str) : M A := fun s => (Throw e, s).

(** [try { m } catch (e) { h e }] *)
Definition try_catch {A} (m : M A) (h : Js.str -> M A) : M A :=
  fun s =>
    match m s with
    | (Ok a, s') => (Ok a, s')
    | (Throw e, s') => h e s'
    end.

Declare Scope run_scope.

Delimit Scope run_scope with run.

Notation "x <- m ;; k" := (bind m (fun x => k))
  (at level 61, m at next level, right associativity) : run_scope.

Notation "m ;; k" := (bind m (fun _ => k))
  (at level 61, right associativity) : run_scope.

Local Open Scope run_scope.

Definition emit (e : Event) : M unit :=
  fun s => (Ok tt, {| cancelled := cancelled s; log := log s ++ [e];
                      requests := requests s |}).

(** [resetCancellationToken()] *)
Definition resetCancellationToken : M unit :=
  fun s => (Ok tt, {| cancelled := false; log := log s; requests := requests s |}).

(** The effect of a call of [cancelCurrentJob] on the state: the flag is
    set, and the event records the forced progress update. *)
Definition request_cancellation (s : St) : St :=
  {| cancelled := true; log := log s ++ [cancelCurrentJob]; requests := requests s |}.

(** The run is suspended in an [await]; the user may act. *)
Definition suspend : M unit :=
  fun s =>
    match requests s with
    | [] => (Ok tt, s)
    | b :: rq =>
        let s' := {| cancelled := cancelled s; log := log s; requests := rq |} in
        (Ok tt, if b then request_cancellation s' else s')
    end.

(** The collaborator's answer arrives. *)
Definition settle {A} (answer : Res A) : M A := fun s => (answer, s).

(** [await c], a call that answers [answer]. *)
Definition await {A} (c : Call) (answer : Res A) : M A :=
  emit (call c) ;; suspend ;; settle answer.

(** [for (x of l) f(x)] *)
Fixpoint for_each {A} (f : A -> M unit) (l : list A) : M unit :=
  match l with
  | [] => ret tt
  | x :: l' => f x ;; for_each f l'
  end.

(** [if (c) m], a statement. *)
Definition when (c : bool) (m : M unit) : M unit :=
  if c then m else ret tt.

(* ===================================================================== *)
(** ** The component state and the collaborators of one run *)
(* ===================================================================== *)

(** The state of the component that [executeGodMode] closes over. *)
Record Config := {
  manualUrl : Js.str;
  targetKeywordOverride : Js.str;
  preserveFeaturedImage : bool;
  preserveCategories : bool;
  preserveTags : bool;
  apiKeys : ApiKeys;
  neuronEnabled : bool;
  wpConfig : WpConfig;
  publishMode : Js.str;
  pages : list SitemapPage
}.

(** What the collaborators answer in one run. [getPage] is what
    [useAppStore.getState().pages.find(p => p.id === targetId)] finds;
    [stages] are the calls of the synthesis callback, in order;
    [titleFromUrl] and [slugFromUrl] stand for the title and slug a page
    gets from its URL; [textContent] for the text of an HTML title. *)
Record World := {
  now_start : Z;
  now_end : Z;
  getPage : option SitemapPage;
  titleFromUrl : Js.str -> Js.str;
  slugFromUrl : Js.str -> Js.str;
  textContent : Js.str -> Js.str;
  resolvePost : Res (option Z);
  getPost : Res PostData;
  entityGap : Res unit;
  neuronAnalysis : Res bool;
  stages : list StageProgress;
  generate : Res ContentContract;
  removeAllH1Tags : Js.str -> Js.str;
  countWords : Js.str -> Z;
  runQASwarm : ContentContract -> Z;
  calculateSeoMetrics : Js.str -> Js.str -> Js.str -> SeoMetrics;
  updatePost : Res (Z * Js.str);
  createPost : Res (Z * Js.str);
  updateMeta : Res unit
}.

(** [hasRequiredKeys()] *)
Definition hasRequiredKeys (cfg : Config) : bool :=
  let k := apiKeys cfg in
  Js.truthy (google k) || Js.truthy (openrouter k) || Js.truthy (openai k)
  || Js.truthy (anthropic k) || Js.truthy (groq k).

(** [hasNeuronConfig()] *)
Definition hasNeuronConfig (cfg : Config) : bool :=
  neuronEnabled cfg && Js.truthy (neuronwriter (apiKeys cfg))
  && Js.truthy (neuronProject (apiKeys cfg)).

(** [n || 0] for [number | null | undefined]. *)
Definition or0 (n : option Z) : Z :=
  match n with Some z => z | None => 0 end.

(** A stable insertion sort by key, as [Array.prototype.sort] with the
    comparator [(a, b) => key(a) - key(b)]. *)
Fixpoint insert_by {A} (key : A -> Z) (x : A) (l : list A) : list A :=
  match l with
  | [] => [x]
  | y :: l' => if key x <=? key y then x :: l else y :: insert_by key x l'
  end.

Definition sort_by {A} (key : A -> Z) (l : list A) : list A :=
  fold_right (insert_by key) [] l.

(** [p.jobState?.status !== 'running'] *)
Definition not_running (p : SitemapPage) : bool :=
  match jobState p with
  | Some j => negb (Js.eqb (status j) (js "running"))
  | None => true
  end.

(** [store.pages.filter(...).sort(...)] of the target selection. *)
Definition candidates (cfg : Config) : list SitemapPage :=
  sort_by (fun p => or0 (healthScore p)) (filter not_running (pages cfg)).

(** [candidates[0]?.id], with the empty string for [undefined]. *)
Definition first_id (l : list SitemapPage) : Js.str :=
  match l with
  | p :: _ => id p
  | [] => []
  end.

(** [updateProgress(phase, extras)] *)
Definition updateProgress (phase : Js.str) (extras : list ProgressField) : M unit :=
  emit (updateOptimizationProgress (F_phase phase :: extras)).

(** [failWith(error)] *)
Definition failWith (error : Js.str) : M GodModeResult :=
  emit (updateOptimizationProgress [F_isRunning false; F_phase (js "failed")]) ;;
  ret {| success := false; score := 0; r_wordCount := 0; error := Some error |}.

(** The initial value of [preservation]. *)
Definition no_preservation : PostPreservationData :=
  {| originalSlug := None; originalLink := None; originalCategories := [];
     originalTags := []; featuredImageId := None |}.

(** Whether a [number | null] is truthy, with its value. *)
Definition truthy_num (n : option Z) : option Z :=
  match n with
  | Some z => if z =? 0 then None else Some z
  | None => None
  end.

(* ===================================================================== *)
(** ** [executeGodMode] *)
(* ===================================================================== *)

Section Engine.

Variable cfg : Config.
Variable w : World.
Variable silentMode : bool.

Definition site : Js.str := url (wpConfig cfg).

(** The block "Handle manual URL": the new target. *)
Definition handle_manual_url (targetId : Js.str) : M Js.str :=
  if negb (Js.truthy targetId) && Js.truthy (manualUrl cfg)
     && Js.startsWith (manualUrl cfg) (js "http")
  then
    let existing := find (fun p => Js.eqb (id p) (manualUrl cfg)) (pages cfg) in
    when (match existing with None => true | Some _ => false end)
         (emit (addPages
                  {| id := manualUrl cfg;
                     title := Js.or_else (titleFromUrl w (manualUrl cfg)) (js "New Page");
                     slug := slugFromUrl w (manualUrl cfg);
                     healthScore := None; jobState := None |})) ;;
    when (negb silentMode) (emit (setManualUrl [])) ;;
    ret (manualUrl cfg)
  else ret targetId.

(** [if (!targetId) { ... targetId = candidates[0]?.id; }] *)
Definition pick_candidate (targetId : Js.str) : Js.str :=
  if negb (Js.truthy targetId) then first_id (candidates cfg) else targetId.

(** PHASE 1: resolve the WordPress post. Yields the post id, the
    preservation record, the topic and the original content. *)
Definition resolve_post (targetId : Js.str)
  : M (option Z * PostPreservationData * Js.str * Js.str) :=
  updateProgress (js "resolving_post") [] ;;
  emit (updateJobState targetId [J_phase (js "resolving_post")]) ;;
  page <- match getPage w with
          | Some p => ret p
          | None => throw (js "Cannot read properties of undefined (reading 'title')")
          end ;;
  let topic := title page in
  postId <- await (wpResolvePostIdEnhanced site targetId) (resolvePost w) ;;
  found <- match truthy_num postId with
           | None => ret (no_preservation, topic, [])
           | Some pid =>
               try_catch
                 (postData <- await (wpGetPostWithImages site pid) (getPost w) ;;
                  let preservation :=
                    {| originalSlug := post_originalSlug postData;
                       originalLink := post_link postData;
                       originalCategories := post_originalCategories postData;
                       originalTags := post_originalTags postData;
                       featuredImageId :=
                         if preserveFeaturedImage cfg then featuredImage postData
                         else None |} in
                  let wpTitle := post_title postData in
                  if Js.truthy wpTitle && (3 <? Js.len wpTitle)
                  then
                    let topic' := Js.or_else (textContent w wpTitle) wpTitle in
                    emit (updatePage targetId [P_title topic']) ;;
                    ret (preservation, topic', post_content postData)
                  else ret (preservation, topic, post_content postData))
                 (fun _ => ret (no_preservation, topic, []))
           end ;;
  let '(preservation, topic1, originalContent) := found in
  if Js.truthy (targetKeywordOverride cfg)
     && (3 <? Js.len (Js.trim (targetKeywordOverride cfg)))
  then
    let topic2 := Js.trim (targetKeywordOverride cfg) in
    emit (updatePage targetId [P_title topic2; P_targetKeyword topic2]) ;;
    when (negb silentMode) (emit (setTargetKeywordOverride [])) ;;
    ret (postId, preservation, topic2, originalContent)
  else ret (postId, preservation, topic1, originalContent).

(** PHASE 2: entity gap analysis, when a Serper key is configured. *)
Definition entity_gap_analysis (targetId topic : Js.str) : M unit :=
  when (Js.truthy (serper (apiKeys cfg)))
    (updateProgress (js "entity_gap_analysis") [] ;;
     emit (updateJobState targetId [J_phase (js "entity_gap_analysis")]) ;;
     try_catch
       (await (performEntityGapAnalysis topic) (entityGap w) ;;
        emit (updateJobState targetId [J_entityGapData]))
       (fun _ => ret tt)).

(** PHASE 3: NeuronWriter, when configured. *)
Definition neuron_analysis (targetId topic : Js.str) : M unit :=
  when (hasNeuronConfig cfg)
    (updateProgress (js "neuron_analysis") [] ;;
     emit (updateJobState targetId [J_phase (js "neuron_analysis")]) ;;
     try_catch
       (neuronData <- await (getNeuronWriterAnalysis topic) (neuronAnalysis w) ;;
        when neuronData
          (emit (updateJobState targetId [J_neuronData]) ;;
           emit setNeuronTerms))
       (fun _ => ret tt)).

(** PHASE 4: internal links. *)
Definition internal_linking (targetId : Js.str) : M (list InternalLinkTarget) :=
  updateProgress (js "internal_linking") [] ;;
  emit (updateJobState targetId [J_phase (js "internal_linking")]) ;;
  ret (map (fun p => {| link_url := id p; link_title := title p; link_slug := slug p |})
         (firstn 50
            (filter (fun p => negb (Js.eqb (id p) targetId) && Js.truthy (title p)
                              && (5 <? Js.len (title p)))
               (pages cfg)))).

(** The synthesis callback. *)
Definition on_stage (p : StageProgress) : M unit :=
  if Js.eqb (stage p) (js "outline") then
    updateProgress (js "outline_generation") []
  else if Js.eqb (stage p) (js "sections") then
    updateProgress (js "section_drafts")
      [F_sectionsCompleted (or0 (st_sectionsCompleted p));
       F_totalSections (or0 (st_totalSections p))]
  else if Js.eqb (stage p) (js "youtube") then
    updateProgress (js "youtube_integration") []
  else if Js.eqb (stage p) (js "references") then
    updateProgress (js "reference_discovery") []
  else if Js.eqb (stage p) (js "merge") then
    updateProgress (js "merge_content") []
  else if Js.eqb (stage p) (js "polish") then
    updateProgress (js "final_polish") []
  else ret tt.

(** [await orchestrator.generateEnhanced(config, log, callback)]: the
    collaborator calls back between suspensions, then answers. *)
Definition await_generate (topic : Js.str) (links : list InternalLinkTarget)
  : M ContentContract :=
  emit (call (generateEnhanced topic links)) ;;
  for_each (fun p => suspend ;; on_stage p) (stages w) ;;
  suspend ;;
  settle (generate w).

(** PHASE 5: content synthesis and the final validation. Yields the
    best contract, its QA score and its word count. *)
Definition content_synthesis (targetId topic : Js.str)
    (links : list InternalLinkTarget) : M (ContentContract * Z * Z) :=
  updateProgress (js "outline_generation") [] ;;
  emit (updateJobState targetId [J_phase (js "content_synthesis")]) ;;
  best <- try_catch
    (raw <- await_generate topic links ;;
     let contract :=
       {| c_title := c_title raw;
          htmlContent := removeAllH1Tags w (htmlContent raw);
          excerpt := excerpt raw; c_slug := c_slug raw;
          metaDescription := metaDescription raw |} in
     let finalWordCount := countWords w (htmlContent contract) in
     updateProgress (js "qa_validation") [F_wordCount finalWordCount] ;;
     emit (updateJobState targetId [J_contract]) ;;
     emit (updateJobState targetId [J_phase (js "qa_validation")]) ;;
     let qaScore := runQASwarm w contract in
     emit (updateJobState targetId [J_qaResults]) ;;
     ret (contract, qaScore, finalWordCount))
    (fun genErr => throw genErr) ;;
  let '(bestContract, _, _) := best in
  if negb (Js.truthy (htmlContent bestContract))
     || (Js.len (htmlContent bestContract) <? 2000)
  then throw (js "Content generation failed: No valid content produced")
  else ret best.

(** The object [publishData] as first built. *)
Definition publishData (best : ContentContract) : PublishData :=
  {| pd_title := c_title best;
     pd_content := htmlContent best;
     pd_excerpt := Js.or_else (excerpt best) [];
     pd_status := if Js.eqb (publishMode cfg) (js "autopublish")
                  then js "publish" else js "draft";
     pd_categories := None; pd_tags := None;
     pd_featured_media := None; pd_slug := None |}.

(** [publishData] after the assignments of the update path. *)
Definition update_data (best : ContentContract) (preservation : PostPreservationData)
  : PublishData :=
  let d := publishData best in
  {| pd_title := pd_title d; pd_content := pd_content d;
     pd_excerpt := pd_excerpt d; pd_status := pd_status d;
     pd_categories :=
       if preserveCategories cfg
          && (0 <? Z.of_nat (List.length (originalCategories preservation)))
       then Some (originalCategories preservation) else None;
     pd_tags :=
       if preserveTags cfg
          && (0 <? Z.of_nat (List.length (originalTags preservation)))
       then Some (originalTags preservation) else None;
     pd_featured_media :=
       if preserveFeaturedImage cfg
       then truthy_num (featuredImageId preservation) else None;
     pd_slug := None |}.

(** [publishData] after the assignment of the create path. *)
Definition create_data (best : ContentContract) : PublishData :=
  let d := publishData best in
  {| pd_title := pd_title d; pd_content := pd_content d;
     pd_excerpt := pd_excerpt d; pd_status := pd_status d;
     pd_categories := None; pd_tags := None; pd_featured_media := None;
     pd_slug := Some (c_slug best) |}.

Definition update_options : UpdateOptions :=
  {| o_preserveFeaturedImage := preserveFeaturedImage cfg;
     o_preserveSlug := true;
     o_preserveCategories := preserveCategories cfg;
     o_preserveTags := preserveTags cfg |}.

(** PHASE 6: publish to WordPress. Yields the id of the post. *)
Definition publishing (targetId topic : Js.str) (postId : option Z)
    (preservation : PostPreservationData) (best : ContentContract) : M Z :=
  updateProgress (js "publishing") [] ;;
  emit (updateJobState targetId [J_phase (js "publishing")]) ;;
  result <- match truthy_num postId with
            | Some pid =>
                await (wpUpdatePost site pid (update_data best preservation)
                         update_options)
                      (updatePost w)
            | None =>
                await (wpCreatePost site (create_data best)) (createPost w)
            end ;;
  let finalPostId := fst result in
  emit (updateJobState targetId [J_postId finalPostId]) ;;
  try_catch
    (await (wpUpdatePostMeta site finalPostId (c_title best)
              (metaDescription best) topic)
           (updateMeta w))
    (fun _ => ret tt) ;;
  ret finalPostId.

(** [Math.round(aeo * 0.25 + qa * 0.45 + depth * 0.15 + heading * 0.15)] *)
Definition finalScore (metrics : SeoMetrics) (qa : Z) : Z :=
  Math_round (inject_Z (aeoScore metrics) * (1 # 4)
              + inject_Z qa * (9 # 20)
              + inject_Z (contentDepth metrics) * (3 # 20)
              + inject_Z (headingStructure metrics) * (3 # 20))%Q.

(** PHASE 7: completion. *)
Definition completion (targetId topic : Js.str) (best : ContentContract)
    (bestWordCount finalPostId : Z) : M GodModeResult :=
  updateProgress (js "completed") [F_wordCount bestWordCount] ;;
  emit (updateJobState targetId [J_phase (js "completed")]) ;;
  let metrics := calculateSeoMetrics w (htmlContent best)
                   (Js.or_else (c_title best) topic)
                   (Js.or_else (c_slug best) []) in
  let finalQA := runQASwarm w best in
  let final := finalScore metrics finalQA in
  let processingTime := now_end w - now_start w in
  emit (updateJobState targetId
          [J_status (js "completed"); J_processingTime processingTime]) ;;
  emit (updatePage targetId
          [P_status (js "analyzed"); P_healthScore final;
           P_wordCount (m_wordCount metrics); P_seoMetrics;
           P_improvementHistory; P_wpPostId finalPostId; P_lastPublishedAt]) ;;
  emit updateGlobalStats ;;
  emit (updateOptimizationProgress [F_isRunning false]) ;;
  ret {| success := true; score := final;
         r_wordCount := m_wordCount metrics; error := None |}.

(** The body of the [try] block. *)
Definition pipeline (targetId : Js.str) : M GodModeResult :=
  resolved <- resolve_post targetId ;;
  let '(postId, preservation, topic, _) := resolved in
  entity_gap_analysis targetId topic ;;
  neuron_analysis targetId topic ;;
  links <- internal_linking targetId ;;
  best <- content_synthesis targetId topic links ;;
  let '(bestContract, _, bestWordCount) := best in
  finalPostId <- publishing targetId topic postId preservation bestContract ;;
  completion targetId topic bestContract bestWordCount finalPostId.

(** The [catch] block. *)
Definition on_failure (targetId : Js.str) (message : Js.str) : M GodModeResult :=
  let processingTime := now_end w - now_start w in
  let errorMessage := Js.or_else message (js "Unknown error") in
  emit (updateJobState targetId
          [J_status (js "failed"); J_phase (js "failed");
           J_error (Some errorMessage); J_processingTime processingTime]) ;;
  emit (updatePage targetId [P_status (js "error")]) ;;
  emit (updateOptimizationProgress [F_isRunning false; F_phase (js "failed")]) ;;
  ret {| success := false; score := 0; r_wordCount := 0;
         error := Some errorMessage |}.

(** What follows the guards: the job state is set up and the pipeline
    runs under the [try]. *)
Definition start_job (targetId : Js.str) : M GodModeResult :=
  emit (updateOptimizationProgress [F_currentUrl (Js.or_else targetId [])]) ;;
  when (match option_map jobState (getPage w) with
        | Some (Some _) => false
        | _ => true
        end)
    (emit (initJobState targetId)) ;;
  emit (updateJobState targetId
          [J_status (js "running"); J_phase (js "initializing"); J_error None;
           J_attempts
             (match getPage w with
              | Some p => match jobState p with
                          | Some j => attempts j
                          | None => 0
                          end
              | None => 0
              end + 1);
           J_startTime (now_start w)]) ;;
  emit (updatePage targetId [P_status (js "analyzing")]) ;;
  try_catch (pipeline targetId) (on_failure targetId).

(** [executeGodMode(targetOverride, silentMode)]; an absent
    [targetOverride] is the empty string. *)
Definition executeGodMode (targetOverride : Js.str) : M GodModeResult :=
  resetCancellationToken ;;
  emit (setOptimizationProgress
          {| isRunning := true; phase := js "initializing"; progress := 0;
             startTime := Some (now_start w);
             currentUrl := Js.or_else targetOverride (Js.or_else (manualUrl cfg) []);
             sectionsCompleted := 0; totalSections := 0; wordCount := 0 |}) ;;
  targetId <- handle_manual_url targetOverride ;;
  let targetId := pick_candidate targetId in
  if negb (Js.truthy targetId) then failWith (js "No pages to optimize")
  else if negb (hasRequiredKeys cfg) then failWith (js "No AI API key configured")
  else if negb (Js.truthy (url (wpConfig cfg)))
  then failWith (js "WordPress URL not configured")
  else if negb (Js.truthy (username (wpConfig cfg)))
          || negb (Js.truthy (password (wpConfig cfg)))
  then failWith (js "WordPress credentials not configured")
  else start_job targetId.

End Engine.

(* ===================================================================== *)
(** ** What a run does on its own *)
(* ===================================================================== *)

Definition is_cancel (e : Event) : bool :=
  match e with cancelCurrentJob => true | _ => false end.

(** The events a run issued itself. *)
Definition own (l : list Event) : list Event :=
  filter (fun e => negb (is_cancel e)) l.

(** The state in which nothing was requested and nothing will be. *)
Definition quiet : St := {| cancelled := false; log := []; requests := [] |}.

(** The result and the own events of a computation left alone. *)
Definition den {A} (m : M A) : Res A * list Event :=
  (fst (m quiet), own (log (snd (m quiet)))).

(** A computation is blind when, from every state, it gives the result
    and adds the own events that it gives when left alone: it reads
    neither the flag, nor the log, nor the requests. *)
Definition Blind {A} (m : M A) : Prop :=
  forall s, fst (m s) = fst (den m)
            /\ own (log (snd (m s))) = own (log s) ++ snd (den m).

(** A run from a given flag and given requests of the user. *)
Definition run (cfg : Config) (w : World) (silentMode : bool)
    (targetOverride : Js.str) (flag : bool) (reqs : list bool)
  : Res GodModeResult * list Event :=
  let out := executeGodMode cfg w silentMode targetOverride
               {| cancelled := flag; log := []; requests := reqs |} in
  (fst out, own (log (snd out))).

(** The flag when the run is over. *)
Definition final_flag (cfg : Config) (w : World) (silentMode : bool)
    (targetOverride : Js.str) (flag : bool) (reqs : list bool) : bool :=
  cancelled (snd (executeGodMode cfg w silentMode targetOverride
                    {| cancelled := flag; log := []; requests := reqs |})).

(** The progress values that a list of events produces, from [p]. A
    cancellation request forces [isRunning: false, phase: 'failed']. *)
Fixpoint snapshots (p : Progress) (l : list Event) : list Progress :=
  match l with
  | [] => []
  | setOptimizationProgress q :: l' => q :: snapshots q l'
  | updateOptimizationProgress patch :: l' =>
      merge p patch :: snapshots (merge p patch) l'
  | cancelCurrentJob :: l' =>
      let q := merge p [F_isRunning false; F_phase (js "failed")] in
      q :: snapshots q l'
  | _ :: l' => snapshots p l'
  end.

(** The initial value of the React state [optimizationProgress]. *)
Definition idle_progress : Progress :=
  {| isRunning := false; phase := js "idle"; progress := 0; startTime := None;
     currentUrl := []; sectionsCompleted := 0; totalSections := 0; wordCount := 0 |}.

(** The step indices of the progress snapshots of a list of events. *)
Definition steps (l : list Event) : list Z :=
  map (fun p => currentStep (phase p)) (snapshots idle_progress l).




(** Events of the publishing step. *)
Definition is_publishing (e : Event) : bool :=
  match e with
  | updateOptimizationProgress patch =>
      existsb (fun f => match f with
                        | F_phase p => Js.eqb p (js "publishing")
                        | _ => false
                        end) patch
  | updateJobState _ patch =>
      existsb (fun f => match f with
                        | J_phase p => Js.eqb p (js "publishing")
                        | J_postId _ => true
                        | _ => false
                        end) patch
  | call (wpUpdatePost _ _ _ _) | call (wpCreatePost _ _)
  | call (wpUpdatePostMeta _ _ _ _ _) => true
  | _ => false
  end.

(* ===================================================================== *)
(** ** A sample world *)
(* ===================================================================== *)

Module Sample.

Definition keys : ApiKeys :=
  {| google := js "AIza-key"; openrouter := []; openai := []; anthropic := [];
     groq := []; serper := js "serper-key"; neuronwriter := []; neuronProject := [] |}.

Definition page : SitemapPage :=
  {| id := js "https://a.com/x"; title := js "Example Page"; slug := js "x";
     healthScore := Some 40; jobState := None |}.

Definition cfg : Config :=
  {| manualUrl := []; targetKeywordOverride := [];
     preserveFeaturedImage := true; preserveCategories := true;
     preserveTags := true; apiKeys := keys; neuronEnabled := false;
     wpConfig := {| url := js "https://a.com"; username := js "admin";
                    password := js "secret" |};
     publishMode := js "draft"; pages := [page] |}.

(** A text of [n] code units. *)
Definition text (n : nat) : Js.str := repeat 97%N n.

Definition contract (n : nat) : ContentContract :=
  {| c_title := js "Example Page, Rewritten"; htmlContent := text n;
     excerpt := js "About the example."; c_slug := js "example-page";
     metaDescription := js "An example." |}.

Definition post : PostData :=
  {| post_originalSlug := Some (js "x"); post_link := Some (js "https://a.com/x");
     post_originalCategories := [3; 5]; post_originalTags := [];
     featuredImage := Some 77; post_title := js "Example Page";
     post_content := js "<p>old</p>" |}.

(** Every collaborator answers; the synthesis yields [n] code units
    that count as [words] words, and scores [qa] everywhere. *)
Definition world (n : nat) (words qa : Z) : World :=
  {| now_start := 1000; now_end := 61000;
     getPage := Some page;
     titleFromUrl := fun _ => js "X"; slugFromUrl := fun _ => js "x";
     textContent := fun t => t;
     resolvePost := Ok (Some 12);
     getPost := Ok post;
     entityGap := Ok tt;
     neuronAnalysis := Ok false;
     stages := [ {| stage := js "outline"; st_sectionsCompleted := None;
                    st_totalSections := None |};
                 {| stage := js "sections"; st_sectionsCompleted := Some 2;
                    st_totalSections := Some 8 |};
                 {| stage := js "merge"; st_sectionsCompleted := None;
                    st_totalSections := None |} ];
     generate := Ok (contract n);
     removeAllH1Tags := fun h => h;
     countWords := fun _ => words;
     runQASwarm := fun _ => qa;
     calculateSeoMetrics := fun _ _ _ =>
       {| aeoScore := qa; contentDepth := qa; headingStructure := qa;
          m_wordCount := words |};
     updatePost := Ok (12, js "https://a.com/x");
     createPost := Ok (13, js "https://a.com/example-page");
     updateMeta := Ok tt |}.

End Sample.

(* ===================================================================== *)
(** ** Programs written with the operations of the monad *)
(* ===================================================================== *)

(** The computations written with the operations of the monad: they
    return, throw, emit an event of their own that satisfies [P], reset
    the flag, suspend, take an answer, and compose. None of these reads
    the flag. *)
Inductive Built (P : Event -> bool) : forall {A : Type}, M A -> Prop :=
| Built_ret : forall A (a : A), Built P (ret a)
| Built_throw : forall A (e : Js.str), Built P (@throw A e)
| Built_settle : forall A (r : Res A), Built P (settle r)
| Built_suspend : Built P suspend
| Built_reset : Built P resetCancellationToken
| Built_emit : forall e, negb (is_cancel e) && P e = true -> Built P (emit e)
| Built_bind : forall A B (m : M A) (k : A -> M B),
    Built P m -> (forall a, Built P (k a)) -> Built P (bind m k)
| Built_catch : forall A (m : M A) (h : Js.str -> M A),
    Built P m -> (forall e, Built P (h e)) -> Built P (try_catch m h).

Definition any_event (e : Event) : bool := true.

(* ===================================================================== *)
(** ** Classes of events *)
(* ===================================================================== *)

(** Events that write the completion of a job. *)
Definition is_completion (e : Event) : bool :=
  match e with
  | updateOptimizationProgress patch =>
      existsb (fun f => match f with
                        | F_phase p => Js.eqb p (js "completed")
                        | _ => false
                        end) patch
  | updateJobState _ patch =>
      existsb (fun f => match f with
                        | J_phase p => Js.eqb p (js "completed")
                        | J_status s => Js.eqb s (js "completed")
                        | _ => false
                        end) patch
  | updateGlobalStats => true
  | _ => false
  end.

(** The events outside the publishing step. *)
Definition before_publishing (e : Event) : bool := negb (is_publishing e).

(** The events outside the completion step. *)
Definition before_completion (e : Event) : bool := negb (is_completion e).

(** The events outside both. *)
Definition early (e : Event) : bool := before_publishing e && before_completion e.

(** The events of the block that handles the manual URL. *)
Definition is_input_event (e : Event) : bool :=
  match e with
  | addPages _ | setManualUrl _ => true
  | _ => false
  end.

(* ===================================================================== *)
(** ** The events and the result of a run, phase by phase *)
(* ===================================================================== *)

(** The value a failed run resolves to. *)
Definition failure (message : Js.str) : GodModeResult :=
  {| success := false; score := 0; r_wordCount := 0; error := Some message |}.

(** The update of the progress that a failure makes. *)
Definition progress_failed : Event :=
  updateOptimizationProgress [F_isRunning false; F_phase (js "failed")].

(** The target after the block that handles the manual URL. *)
Definition manual_target (cfg : Config) (t : Js.str) : Js.str :=
  if negb (Js.truthy t) && Js.truthy (manualUrl cfg)
     && Js.startsWith (manualUrl cfg) (js "http")
  then manualUrl cfg else t.

(** The target the guards see. *)
Definition target_of (cfg : Config) (t : Js.str) : Js.str :=
  pick_candidate cfg (manual_target cfg t).

(** The message of the first guard that fails. *)
Definition guard_error (cfg : Config) (targetId : Js.str) : option Js.str :=
  if negb (Js.truthy targetId) then Some (js "No pages to optimize")
  else if negb (hasRequiredKeys cfg) then Some (js "No AI API key configured")
  else if negb (Js.truthy (url (wpConfig cfg)))
  then Some (js "WordPress URL not configured")
  else if negb (Js.truthy (username (wpConfig cfg)))
          || negb (Js.truthy (password (wpConfig cfg)))
  then Some (js "WordPress credentials not configured")
  else None.

(** The progress value a run starts from. *)
Definition initial_progress (cfg : Config) (w : World) (t : Js.str) : Progress :=
  {| isRunning := true; phase := js "initializing"; progress := 0;
     startTime := Some (now_start w);
     currentUrl := Js.or_else t (Js.or_else (manualUrl cfg) []);
     sectionsCompleted := 0; totalSections := 0; wordCount := 0 |}.

(** The events of the [catch] block. *)
Definition failure_events (w : World) (targetId message : Js.str) : list Event :=
  [ updateJobState targetId
      [J_status (js "failed"); J_phase (js "failed");
       J_error (Some (Js.or_else message (js "Unknown error")));
       J_processingTime (now_end w - now_start w)];
    updatePage targetId [P_status (js "error")];
    progress_failed ].

(** The events that set the job up, after the guards. *)
Definition start_events (w : World) (targetId : Js.str) : list Event :=
  updateOptimizationProgress [F_currentUrl (Js.or_else targetId [])]
  :: (match option_map jobState (getPage w) with
      | Some (Some _) => []
      | _ => [initJobState targetId]
      end)
  ++ [ updateJobState targetId
         [J_status (js "running"); J_phase (js "initializing"); J_error None;
          J_attempts
            (match getPage w with
             | Some p => match jobState p with
                         | Some j => attempts j
                         | None => 0
                         end
             | None => 0
             end + 1);
          J_startTime (now_start w)];
       updatePage targetId [P_status (js "analyzing")] ].

(** The link targets of PHASE 4. *)
Definition links_of (cfg : Config) (targetId : Js.str) : list InternalLinkTarget :=
  map (fun p => {| link_url := id p; link_title := title p; link_slug := slug p |})
    (firstn 50
       (filter (fun p => negb (Js.eqb (id p) targetId) && Js.truthy (title p)
                         && (5 <? Js.len (title p)))
          (pages cfg))).

(** The events of PHASE 4. *)
Definition linking_events (targetId : Js.str) : list Event :=
  [ updateOptimizationProgress [F_phase (js "internal_linking")];
    updateJobState targetId [J_phase (js "internal_linking")] ].

(** The value a completed run resolves to. *)
Definition completed_result (w : World) (topic : Js.str) (best : ContentContract)
  : GodModeResult :=
  let metrics := calculateSeoMetrics w (htmlContent best)
                   (Js.or_else (c_title best) topic)
                   (Js.or_else (c_slug best) []) in
  {| success := true; score := finalScore metrics (runQASwarm w best);
     r_wordCount := m_wordCount metrics; error := None |}.

(** The events of PHASE 7. *)
Definition completion_events (w : World) (targetId topic : Js.str)
    (best : ContentContract) (bestWordCount finalPostId : Z) : list Event :=
  let r := completed_result w topic best in
  [ updateOptimizationProgress [F_phase (js "completed"); F_wordCount bestWordCount];
    updateJobState targetId [J_phase (js "completed")];
    updateJobState targetId
      [J_status (js "completed"); J_processingTime (now_end w - now_start w)];
    updatePage targetId
      [P_status (js "analyzed"); P_healthScore (score r);
       P_wordCount (r_wordCount r); P_seoMetrics; P_improvementHistory;
       P_wpPostId finalPostId; P_lastPublishedAt];
    updateGlobalStats;
    updateOptimizationProgress [F_isRunning false] ].

(** The message of the final validation. *)
Definition gate_message : Js.str :=
  js "Content generation failed: No valid content produced".

(** The contract after the H1 tags are removed. *)
Definition polished (w : World) (raw : ContentContract) : ContentContract :=
  {| c_title := c_title raw;
     htmlContent := removeAllH1Tags w (htmlContent raw);
     excerpt := excerpt raw; c_slug := c_slug raw;
     metaDescription := metaDescription raw |}.

(** The test of the final validation. *)
Definition too_short (html : Js.str) : bool :=
  negb (Js.truthy html) || (Js.len html <? 2000).

(** The call of PHASE 6 and its answer. *)
Definition publish_call (cfg : Config) (w : World) (postId : option Z)
    (pres : PostPreservationData) (best : ContentContract)
  : Call * Res (Z * Js.str) :=
  match truthy_num postId with
  | Some pid =>
      (wpUpdatePost (site cfg) pid (update_data cfg best pres) (update_options cfg),
       updatePost w)
  | None => (wpCreatePost (site cfg) (create_data cfg best), createPost w)
  end.

(** The preservation record that PHASE 1 yields for a post id. *)
Definition preserved (cfg : Config) (w : World) (postId : option Z)
  : PostPreservationData :=
  match truthy_num postId, getPost w with
  | Some _, Ok postData =>
      {| originalSlug := post_originalSlug postData;
         originalLink := post_link postData;
         originalCategories := post_originalCategories postData;
         originalTags := post_originalTags postData;
         featuredImageId :=
           if preserveFeaturedImage cfg then featuredImage postData else None |}
  | _, _ => no_preservation
  end.

(** The topic and the original content that PHASE 1 yields. *)
Definition resolved_topic (cfg : Config) (w : World) (page : SitemapPage)
    (postId : option Z) : Js.str :=
  if Js.truthy (targetKeywordOverride cfg)
     && (3 <? Js.len (Js.trim (targetKeywordOverride cfg)))
  then Js.trim (targetKeywordOverride cfg)
  else
    match truthy_num postId, getPost w with
    | Some _, Ok postData =>
        if Js.truthy (post_title postData) && (3 <? Js.len (post_title postData))
        then Js.or_else (textContent w (post_title postData)) (post_title postData)
        else title page
    | _, _ => title page
    end.

Definition resolved_content (w : World) (postId : option Z) : Js.str :=
  match truthy_num postId, getPost w with
  | Some _, Ok postData => post_content postData
  | _, _ => []
  end.

(** The message of the error thrown when the page is not in the store. *)
Definition no_page_message : Js.str :=
  js "Cannot read properties of undefined (reading 'title')".

(* ===================================================================== *)
(** ** Displayed progress *)
(* ===================================================================== *)

(** Whether a list of step indices never decreases. *)
Fixpoint nondecreasing (l : list Z) : bool :=
  match l with
  | x :: (y :: _) as l' => (x <=? y) && nondecreasing l'
  | _ => true
  end.

(** The progress value after a list of events, from [p]. *)
Definition progress_after (p : Progress) (l : list Event) : Progress :=
  last (snapshots p l) p.


(* ===================================================================== *)
(** ** Publishing calls *)
(* ===================================================================== *)

(** The same world, where the metadata update answers [r]. *)
Definition with_updateMeta (w : World) (r : Res unit) : World :=
  {| now_start := now_start w; now_end := now_end w; getPage := getPage w;
     titleFromUrl := titleFromUrl w; slugFromUrl := slugFromUrl w;
     textContent := textContent w; resolvePost := resolvePost w;
     getPost := getPost w; entityGap := entityGap w;
     neuronAnalysis := neuronAnalysis w; stages := stages w;
     generate := generate w; removeAllH1Tags := removeAllH1Tags w;
     countWords := countWords w; runQASwarm := runQASwarm w;
     calculateSeoMetrics := calculateSeoMetrics w;
     updatePost := updatePost w; createPost := createPost w;
     updateMeta := r |}.



(* ===================================================================== *)
(** ** Bulk input *)
(* ===================================================================== *)

(** The class [[\n,\s]] of the split. *)
Definition is_bulk_separator (c : N) : bool :=
  (c =? 10)%N || (c =? 44)%N || Js.is_space c.

(** [arr.filter((u, i, arr) => f(u, i))], from index [i]. *)
Fixpoint filter_indexed {A} (f : A -> nat -> bool) (i : nat) (l : list A) : list A :=
  match l with
  | [] => []
  | x :: l' =>
      if f x i then x :: filter_indexed f (S i) l' else filter_indexed f (S i) l'
  end.

(** [arr.indexOf(u) === i] *)
Definition first_at (arr : list Js.str) (u : Js.str) (i : nat) : bool :=
  match Js.indexOf arr u with
  | Some j => Nat.eqb j i
  | None => false
  end.

(** [parseBulkUrls(text)] *)
Definition parseBulkUrls (text : Js.str) : list Js.str :=
  let arr := filter (fun u => Js.startsWith u (js "http"))
               (map Js.trim (Js.split is_bulk_separator text)) in
  filter_indexed (first_at arr) 0 arr.





(* ===================================================================== *)
(** ** The bulk scheduler [executeBulkOptimization] *)
(* ===================================================================== *)

(** The status of a [BulkJob]. *)
Inductive JobStatus := Queued | Running | Completed | Failed.

(** A [BulkJob]. Its [id] is [`bulk-${Date.now()}-${index}`]: within
    one batch it is the index. The times are left out. *)
Record BulkJob := {
  b_index : nat;
  b_url : Js.str;
  b_status : JobStatus;
  b_score : option Z;
  b_wordCount : option Z;
  b_error : option Js.str
}.

(** The React state [bulkState], without [totalTime]. *)
Record BulkProcessingState := {
  bs_isRunning : bool;
  bs_jobs : list BulkJob;
  bs_concurrency : nat;
  bs_completed : Z;
  bs_failed : Z;
  bs_avgScore : Z;
  bs_totalWords : Z
}.

(** What [Promise.race([executeGodMode(job.url, true), timeout])]
    settles to: the value of the engine, or a rejection with its
    message (the timeout rejects with ['Job timeout']). *)
Inductive RaceOutcome :=
| Resolved (r : GodModeResult)
| Rejected (message : Js.str).

(** Where the scheduler is: at the head of the loop with index [i];
    awaiting [Promise.all] of the wave taken at [i], with the indices
    of the jobs not yet settled; or past the loop. *)
Inductive Control :=
| AtLoop (i : nat)
| InWave (i : nat) (pending : list nat)
| Finished.

(** The scheduler: its control, the flag [bulkAbortRef.current], the
    React state, and the counters of the closure. *)
Record Sched := {
  ctl : Control;
  abort : bool;
  ui : BulkProcessingState;
  completed : Z;
  failed : Z;
  totalWords : Z;
  totalScore : Z
}.

(** What happens next: the scheduler runs on from the head of the loop;
    the race of a job in flight settles; [Promise.all] resumes the
    scheduler; the abort flag is raised from outside. *)
Inductive Action :=
| Advance
| Settle (j : nat)
| WaveDone
| RequestAbort.

(** [urls.map((url, index) => ({ id, url, status: 'queued', ... }))] *)
Fixpoint make_jobs (index : nat) (urls : list Js.str) : list BulkJob :=
  match urls with
  | [] => []
  | u :: urls' =>
      {| b_index := index; b_url := u; b_status := Queued; b_score := None;
         b_wordCount := None; b_error := None |} :: make_jobs (S index) urls'
  end.

(** [prev.jobs.map(j => j.id === job.id ? f(j) : j)] *)
Definition update_job (j : nat) (f : BulkJob -> BulkJob) (jobs : list BulkJob)
  : list BulkJob :=
  map (fun x => if Nat.eqb (b_index x) j then f x else x) jobs.

Definition set_running (x : BulkJob) : BulkJob :=
  {| b_index := b_index x; b_url := b_url x; b_status := Running;
     b_score := b_score x; b_wordCount := b_wordCount x; b_error := b_error x |}.

Definition set_completed (r : GodModeResult) (x : BulkJob) : BulkJob :=
  {| b_index := b_index x; b_url := b_url x; b_status := Completed;
     b_score := Some (score r); b_wordCount := Some (r_wordCount r);
     b_error := b_error x |}.

Definition set_failed (message : Js.str) (x : BulkJob) : BulkJob :=
  {| b_index := b_index x; b_url := b_url x; b_status := Failed;
     b_score := b_score x; b_wordCount := b_wordCount x;
     b_error := Some message |}.

(** [result.success && result.score >= 50] *)
Definition passes (o : RaceOutcome) : bool :=
  match o with
  | Resolved r => success r && (50 <=? score r)
  | Rejected _ => false
  end.

(** The message of the error that [processJob] catches. *)
Definition reason (o : RaceOutcome) : Js.str :=
  match o with
  | Resolved r =>
      match error r with
      | Some e => Js.or_else e (js "Quality check failed")
      | None => js "Quality check failed"
      end
  | Rejected message => message
  end.

(** [Math.round(totalScore / completed)] *)
Definition average (totalScore completed : Z) : Z :=
  Math_round (inject_Z totalScore / inject_Z completed)%Q.

Section Scheduler.

(** [bulkConcurrency], the array [jobs], and what the race of each
    job settles to. *)
Variable bulkConcurrency : nat.
Variable jobs : list BulkJob.
Variable race : nat -> RaceOutcome.

(** [jobs.slice(i, i + bulkConcurrency)] *)
Definition batch (i : nat) : list BulkJob :=
  firstn bulkConcurrency (skipn i jobs).

(** [batch.map(job => processJob(job))], up to the first [await] of
    each: the jobs of the batch are marked as running. *)
Definition start_batch (i : nat) (s : Sched) : Sched :=
  {| ctl := InWave i (map b_index (batch i));
     abort := abort s;
     ui := {| bs_isRunning := bs_isRunning (ui s);
              bs_jobs := fold_left (fun js x => update_job (b_index x) set_running js)
                           (batch i) (bs_jobs (ui s));
              bs_concurrency := bs_concurrency (ui s);
              bs_completed := bs_completed (ui s);
              bs_failed := bs_failed (ui s);
              bs_avgScore := bs_avgScore (ui s);
              bs_totalWords := bs_totalWords (ui s) |};
     completed := completed s; failed := failed s;
     totalWords := totalWords s; totalScore := totalScore s |}.

(** The rest of [processJob(job)], when its race is settled. *)
Definition processJob (j : nat) (c : Control) (s : Sched) : Sched :=
  match race j with
  | Resolved r =>
      if success r && (50 <=? score r)
      then
        let completed' := completed s + 1 in
        let totalWords' := totalWords s + r_wordCount r in
        let totalScore' := totalScore s + score r in
        {| ctl := c; abort := abort s;
           ui := {| bs_isRunning := bs_isRunning (ui s);
                    bs_jobs := update_job j (set_completed r) (bs_jobs (ui s));
                    bs_concurrency := bs_concurrency (ui s);
                    bs_completed := completed';
                    bs_failed := bs_failed (ui s);
                    bs_avgScore := average totalScore' completed';
                    bs_totalWords := totalWords' |};
           completed := completed'; failed := failed s;
           totalWords := totalWords'; totalScore := totalScore' |}
      else
        let failed' := failed s + 1 in
        {| ctl := c; abort := abort s;
           ui := {| bs_isRunning := bs_isRunning (ui s);
                    bs_jobs := update_job j (set_failed (reason (Resolved r)))
                                 (bs_jobs (ui s));
                    bs_concurrency := bs_concurrency (ui s);
                    bs_completed := bs_completed (ui s);
                    bs_failed := failed';
                    bs_avgScore := bs_avgScore (ui s);
                    bs_totalWords := bs_totalWords (ui s) |};
           completed := completed s; failed := failed';
           totalWords := totalWords s; totalScore := totalScore s |}
  | Rejected message =>
      let failed' := failed s + 1 in
      {| ctl := c; abort := abort s;
         ui := {| bs_isRunning := bs_isRunning (ui s);
                  bs_jobs := update_job j (set_failed message) (bs_jobs (ui s));
                  bs_concurrency := bs_concurrency (ui s);
                  bs_completed := bs_completed (ui s);
                  bs_failed := failed';
                  bs_avgScore := bs_avgScore (ui s);
                  bs_totalWords := bs_totalWords (ui s) |};
         completed := completed s; failed := failed';
         totalWords := totalWords s; totalScore := totalScore s |}
  end.

(** What follows the loop. *)
Definition finish (s : Sched) : Sched :=
  {| ctl := Finished; abort := abort s;
     ui := {| bs_isRunning := false;
              bs_jobs := bs_jobs (ui s);
              bs_concurrency := bs_concurrency (ui s);
              bs_completed := bs_completed (ui s);
              bs_failed := bs_failed (ui s);
              bs_avgScore := if 0 <? completed s
                             then average (totalScore s) (completed s) else 0;
              bs_totalWords := bs_totalWords (ui s) |};
     completed := completed s; failed := failed s;
     totalWords := totalWords s; totalScore := totalScore s |}.

Definition with_ctl (c : Control) (s : Sched) : Sched :=
  {| ctl := c; abort := abort s; ui := ui s; completed := completed s;
     failed := failed s; totalWords := totalWords s; totalScore := totalScore s |}.

(** One step of the scheduler; [None] when the action cannot happen. *)
Definition sched_step (s : Sched) (a : Action) : option Sched :=
  match a, ctl s with
  | RequestAbort, _ =>
      Some {| ctl := ctl s; abort := true; ui := ui s; completed := completed s;
              failed := failed s; totalWords := totalWords s;
              totalScore := totalScore s |}
  | Advance, AtLoop i =>
      if Nat.ltb i (List.length jobs)
      then if abort s then Some (finish s) else Some (start_batch i s)
      else Some (finish s)
  | Settle j, InWave i pending =>
      if existsb (Nat.eqb j) pending
      then Some (processJob j (InWave i (filter (fun k => negb (Nat.eqb k j)) pending)) s)
      else None
  | WaveDone, InWave i [] => Some (with_ctl (AtLoop (i + bulkConcurrency)) s)
  | _, _ => None
  end.

(** A sequence of steps. *)
Fixpoint sched_run (s : Sched) (l : list Action) : option Sched :=
  match l with
  | [] => Some s
  | a :: l' =>
      match sched_step s a with
      | Some s' => sched_run s' l'
      | None => None
      end
  end.

(** The scheduler when the loop is entered. *)
Definition sched_init : Sched :=
  {| ctl := AtLoop 0; abort := false;
     ui := {| bs_isRunning := true; bs_jobs := jobs;
              bs_concurrency := bulkConcurrency; bs_completed := 0;
              bs_failed := 0; bs_avgScore := 0; bs_totalWords := 0 |};
     completed := 0; failed := 0; totalWords := 0; totalScore := 0 |}.

End Scheduler.

(** The waves that the loop takes when it is not aborted: the slices at
    [i], [i + n], ... while [i] is below the length. *)
Fixpoint waves_from {A} (n : nat) (fuel i : nat) (l : list A) : list (list A) :=
  match fuel with
  | O => []
  | S fuel' =>
      if Nat.ltb i (List.length l)
      then firstn n (skipn i l) :: waves_from n fuel' (i + n) l
      else []
  end.

Definition waves {A} (n : nat) (l : list A) : list (list A) :=
  waves_from n (List.length l) 0 l.

(** The scheduler as [executeBulkOptimization] enters its loop: nothing
    runs when no URL is left or no AI key is configured. *)
Definition executeBulkOptimization (cfg : Config) (bulkUrls : Js.str)
    (bulkConcurrency : nat) : option Sched :=
  let urls := parseBulkUrls bulkUrls in
  if Nat.eqb (List.length urls) 0 then None
  else if negb (hasRequiredKeys cfg) then None
  else Some (sched_init bulkConcurrency (make_jobs 0 urls)).

Definition is_running (x : BulkJob) : bool :=
  match b_status x with Running => true | _ => false end.

Definition is_completed (x : BulkJob) : bool :=
  match b_status x with Completed => true | _ => false end.

Definition is_failed (x : BulkJob) : bool :=
  match b_status x with Failed => true | _ => false end.

Definition is_queued (x : BulkJob) : bool :=
  match b_status x with Queued => true | _ => false end.

(** The sum of [g] over the jobs. *)
Definition total (g : BulkJob -> Z) (l : list BulkJob) : Z :=
  fold_right Z.add 0 (map g l).

(** The number of jobs that satisfy [p]. *)
Definition count (p : BulkJob -> bool) (l : list BulkJob) : Z :=
  total (fun x => if p x then 1 else 0) l.

(** A job is settled when it is completed or failed. *)
Definition settled (x : BulkJob) : bool := is_completed x || is_failed x.

(** The words and the score that a job counts for in the aggregates. *)
Definition words_of (x : BulkJob) : Z :=
  if is_completed x then or0 (b_wordCount x) else 0.

Definition score_of (x : BulkJob) : Z :=
  if is_completed x then or0 (b_score x) else 0.

(* ===================================================================== *)
(** ** The invariant of the scheduler *)
(* ===================================================================== *)

Section SchedulerSpec.

Variable bulkConcurrency : nat.
Variable urls : list Js.str.
Variable race : nat -> RaceOutcome.

(** What holds of the jobs at each point of the control:
    the jobs before the window are settled, the jobs after it are
    queued, and a job of the window runs when it is pending and is
    settled otherwise. *)
Definition ctl_ok (s : Sched) : Prop :=
  let J := bs_jobs (ui s) in
  match ctl s with
  | AtLoop i =>
      forall x, In x J ->
        ((b_index x < i)%nat -> settled x = true)
        /\ ((i <= b_index x)%nat -> is_queued x = true)
  | InWave i pending =>
      (forall k, In k pending ->
         (i <= k < i + bulkConcurrency)%nat /\ (k < List.length urls)%nat)
      /\ forall x, In x J ->
           ((b_index x < i)%nat -> settled x = true)
           /\ ((i + bulkConcurrency <= b_index x)%nat -> is_queued x = true)
           /\ ((i <= b_index x < i + bulkConcurrency)%nat ->
               if existsb (Nat.eqb (b_index x)) pending
               then is_running x = true else settled x = true)
  | Finished =>
      (forall x, In x J -> is_running x = false)
      /\ (abort s = false -> forall x, In x J -> settled x = true)
  end.

(** What the status of a job says of its race. *)
Definition outcome_ok (x : BulkJob) : Prop :=
  (is_completed x = true ->
   exists r, race (b_index x) = Resolved r
             /\ success r = true /\ 50 <= score r
             /\ b_score x = Some (score r)
             /\ b_wordCount x = Some (r_wordCount r))
  /\ (is_failed x = true ->
      passes (race (b_index x)) = false
      /\ b_error x = Some (reason (race (b_index x)))).

(** The counters of the closure and the aggregates of the state are
    the counts and the sums over the jobs. *)
Definition counters_ok (s : Sched) : Prop :=
  let J := bs_jobs (ui s) in
  completed s = count is_completed J
  /\ failed s = count is_failed J
  /\ totalWords s = total words_of J
  /\ totalScore s = total score_of J
  /\ bs_completed (ui s) = completed s
  /\ bs_failed (ui s) = failed s
  /\ bs_totalWords (ui s) = totalWords s
  /\ bs_avgScore (ui s)
     = if 0 <? completed s then average (totalScore s) (completed s) else 0.

Record Inv (s : Sched) : Prop := {
  inv_index : map b_index (bs_jobs (ui s)) = seq 0 (List.length urls);
  inv_url : map b_url (bs_jobs (ui s)) = urls;
  inv_ctl : ctl_ok s;
  inv_outcome : forall x, In x (bs_jobs (ui s)) -> outcome_ok x;
  inv_counters : counters_ok s
}.

End SchedulerSpec.

Section AlignedSpec.

Variable bulkConcurrency : nat.
Variable jobs : list BulkJob.

(** The index of the loop is a multiple of the concurrency, and
    below the length while a wave is in flight. *)
Definition aligned (s : Sched) : Prop :=
  match ctl s with
  | AtLoop i => exists k, i = (k * bulkConcurrency)%nat
  | InWave i _ =>
      (exists k, i = (k * bulkConcurrency)%nat) /\ (i < List.length jobs)%nat
  | Finished => True
  end.

End AlignedSpec.

(* ===================================================================== *)
(** ** Races played by the engine *)
(* ===================================================================== *)


(* ===================================================================== *)
(** ** What the progress component shows *)
(* ===================================================================== *)

(** The look of one step indicator: filled, fading, or grey. *)
Inductive Indicator := Complete | Current | Pending.

(** The row of step indicators:
    [Object.entries(PHASE_CONFIG).filter(([key]) => !['idle', 'failed'].includes(key)).map(...)],
    with [isComplete = currentStep > config.step] and
    [isCurrent = phase === key]; an indicator is filled when complete,
    else fading when current, else grey. *)
Definition stepIndicators (phase : Js.str) : list Indicator :=
  map (fun kc : Js.str * ProgressPhaseConfig =>
         let isComplete := step (snd kc) <? currentStep phase in
         let isCurrent := Js.eqb phase (fst kc) in
         if isComplete then Complete
         else if isCurrent then Current else Pending)
    (filter (fun kc : Js.str * ProgressPhaseConfig =>
               negb (existsb (fun x => Js.eqb x (fst kc)) [js "idle"; js "failed"]))
       PHASE_CONFIG).


(** [onCancel && isRunning]: whether the Cancel button is shown; [App]
    always passes [onCancel]. *)
Definition cancelShown (p : Progress) : bool := isRunning p.

(* ===================================================================== *)
(** ** What a run shows while it runs *)
(* ===================================================================== *)

(** A working phase: a key of [PHASE_CONFIG] with a step of at least
    one, that is, any phase of the table but [idle] and [failed]. *)
Definition is_work_phase (p : Js.str) : bool :=
  match lookup_phase PHASE_CONFIG p with
  | Some c => 0 <? step c
  | None => false
  end.

(** The events of a run that leave [isRunning] alone: every event but
    a replacement of the progress value, a request of the user, and a
    progress update that sets [isRunning] or sets a phase that is no
    working phase. In silent mode the events that clear the inputs of
    the form are excluded as well. *)
Definition steady (silentMode : bool) (e : Event) : bool :=
  match e with
  | setOptimizationProgress _ | cancelCurrentJob => false
  | updateOptimizationProgress patch =>
      forallb (fun f => match f with
                        | F_isRunning _ => false
                        | F_phase p => is_work_phase p
                        | _ => true
                        end) patch
  | setManualUrl u | setTargetKeywordOverride u =>
      negb silentMode && negb (Js.truthy u)
  | _ => true
  end.

(** The events that leave [isRunning] alone or lower it. *)
Definition stopping (silentMode : bool) (e : Event) : bool :=
  match e with
  | updateOptimizationProgress patch =>
      forallb (fun f => match f with
                        | F_isRunning b => negb b
                        | F_phase p => negb (Js.eqb p (js "idle"))
                        | _ => true
                        end) patch
  | _ => steady silentMode e
  end.

(** The last event of a run: the update of [failWith] and of the
    [catch] block, or the last update of the completion. *)
Definition closing (e : Event) : Prop :=
  e = progress_failed \/ e = updateOptimizationProgress [F_isRunning false].

(** A list of events that is steady up to its last event, which closes
    the run. *)
Definition closes (silentMode : bool) (l : list Event) : Prop :=
  exists E fin,
    l = E ++ [fin]
    /\ Forall (fun e => steady silentMode e = true) E
    /\ closing fin.

(** Everything recorded in a run, the requests of the user included. *)
Definition full_log (cfg : Config) (w : World) (silentMode : bool)
    (targetOverride : Js.str) (flag : bool) (reqs : list bool) : list Event :=
  log (snd (executeGodMode cfg w silentMode targetOverride
              {| cancelled := flag; log := []; requests := reqs |})).

(** An event that writes to an input of the form. *)
Definition is_input_write (e : Event) : bool :=
  match e with
  | setManualUrl _ | setTargetKeywordOverride _ => true
  | _ => false
  end.

(* ===================================================================== *)
(** ** The remote calls of a run *)
(* ===================================================================== *)

(** The remote calls among a list of events, in order. *)
Definition calls_of (l : list Event) : list Call :=
  flat_map (fun e => match e with call c => [c] | _ => [] end) l.

(** The place of a call in the pipeline; updating and creating a post
    share theirs. *)
Definition call_rank (c : Call) : Z :=
  match c with
  | wpResolvePostIdEnhanced _ _ => 1
  | wpGetPostWithImages _ _ => 2
  | performEntityGapAnalysis _ => 3
  | getNeuronWriterAnalysis _ => 4
  | generateEnhanced _ _ => 5
  | wpUpdatePost _ _ _ _ | wpCreatePost _ _ => 6
  | wpUpdatePostMeta _ _ _ _ _ => 7
  end.

(** The calls of the pipeline for a target, up to the first step that
    fails for good. *)
Definition call_plan (cfg : Config) (w : World) (targetId : Js.str) : list Call :=
  match getPage w with
  | None => []
  | Some page =>
      wpResolvePostIdEnhanced (site cfg) targetId
      :: match resolvePost w with
         | Throw _ => []
         | Ok postId =>
             let topic := resolved_topic cfg w page postId in
             (match truthy_num postId with
              | Some pid => [wpGetPostWithImages (site cfg) pid]
              | None => []
              end)
             ++ (if Js.truthy (serper (apiKeys cfg))
                 then [performEntityGapAnalysis topic] else [])
             ++ (if hasNeuronConfig cfg
                 then [getNeuronWriterAnalysis topic] else [])
             ++ generateEnhanced topic (links_of cfg targetId)
             :: match generate w with
                | Throw _ => []
                | Ok raw =>
                    let best := polished w raw in
                    if too_short (htmlContent best) then []
                    else
                      let pc := publish_call cfg w postId
                                  (preserved cfg w postId) best in
                      fst pc
                      :: match snd pc with
                         | Throw _ => []
                         | Ok r =>
                             [wpUpdatePostMeta (site cfg) (fst r) (c_title best)
                                (metaDescription best) topic]
                         end
                end
         end
  end.

(** Strictly increasing. *)
Fixpoint increasing (l : list Z) : bool :=
  match l with
  | x :: (y :: _) as l' => (x <? y) && increasing l'
  | _ => true
  end.

(** An event that is no remote call. *)
Definition no_call (e : Event) : bool :=
  match e with call _ => false | _ => true end.





(* ===================================================================== *)
(** ** How far a batch has got *)
(* ===================================================================== *)

(** How far a job has got: queued, running, settled. *)
Definition status_rank (x : BulkJob) : Z :=
  match b_status x with
  | Queued => 0
  | Running => 1
  | Completed | Failed => 2
  end.

(** An action of the scheduler itself, not the raising of the abort
    flag from outside. *)
Definition is_own_action (a : Action) : bool :=
  match a with RequestAbort => false | _ => true end.

(** A bound on the actions that the scheduler can still take, for [n]
    jobs at concurrency [c]. *)
Definition sched_measure (c n : nat) (s : Sched) : nat :=
  match ctl s with
  | Finished => 0
  | AtLoop i => 1 + 3 * (n - i)
  | InWave i pending => 2 + 3 * (n - (i + c)) + List.length pending
  end.

(** A job is kept, or moved forward; once settled it is kept. *)
Definition forward (x y : BulkJob) : Prop :=
  b_index y = b_index x /\ b_url y = b_url x
  /\ status_rank x <= status_rank y
  /\ (settled x = true -> y = x).


(* ===================================================================== *)
(** ** Lists of URLs as text *)
(* ===================================================================== *)

(** [urls.join(c)] for a separator of one code unit. *)
Fixpoint join (c : N) (urls : list Js.str) : Js.str :=
  match urls with
  | [] => []
  | [u] => u
  | u :: urls' => u ++ c :: join c urls'
  end.

(** A piece that [parseBulkUrls] keeps as it is: it starts with [http]
    and holds no comma and no white space. *)
Definition is_bulk_url (u : Js.str) : bool :=
  Js.startsWith u (js "http") && forallb (fun c => negb (is_bulk_separator c)) u.

(* ===================================================================== *)
(** ** The sitemap crawler [handleCrawlSitemap] *)
(* ===================================================================== *)

(** [a.includes(p)] *)
Fixpoint includes (a p : Js.str) : bool :=
  Js.startsWith a p
  || match a with
     | [] => false
     | _ :: a' => includes a' p
     end.

(** What the crawler meets in one crawl. [directFetch] is the body of
    the sitemap when the direct [fetch] resolved with [ok] and its text
    could be read, and [proxyFetch] the same for the fetch through the
    CORS proxy; [locTexts] gives, for a body, the [textContent || ''] of
    the elements that [querySelectorAll('url loc, loc')] finds in the
    parsed document; [toLowerCase] is the method of strings;
    [titleOfUrl] is the title made from the last segment of the path of
    a URL (empty when there is none or the URL does not parse) and
    [slugOfUrl] is [sanitizeSlug(extractSlugFromUrl(url))]; both
    utilities are taken to return. *)
Record CrawlWorld := {
  directFetch : option Js.str;
  proxyFetch : option Js.str;
  locTexts : Js.str -> list Js.str;
  toLowerCase : Js.str -> Js.str;
  titleOfUrl : Js.str -> Js.str;
  slugOfUrl : Js.str -> Js.str
}.

(** What a crawl does, in order: the processing flag of the store, the
    two fetches, the pages added to the store, the sitemap input, and
    the toasts with their type. *)
Inductive CrawlEvent :=
| setProcessing (b : bool)
| fetchDirect (url : Js.str)
| fetchThroughProxy (url : Js.str)
| storeAddPages (discovered : list SitemapPage)
| setSitemapUrl (u : Js.str)
| addToast (message type : Js.str).

(** The patterns that exclude a URL of the sitemap. *)
Definition exclude : list Js.str :=
  [js "?"; js ".xml"; js "/wp-admin"; js "/wp-content"; js "/wp-json";
   js "/feed/"; js ".pdf"; js ".jpg"; js ".png"].

(** [[...new Set(l)]]: the first occurrences, in order. *)
Definition unique (l : list Js.str) : list Js.str :=
  filter_indexed (first_at l) 0 l.

(** The filter of [uniqueUrls]. *)
Definition keeps_url (w : CrawlWorld) (url : Js.str) : bool :=
  if negb (Js.truthy url) || negb (Js.startsWith url (js "http")) then false
  else
    let lower := toLowerCase w url in
    negb (existsb (fun p => includes lower p) exclude).

(** [uniqueUrls] for the body [text]. *)
Definition uniqueUrls (w : CrawlWorld) (text : Js.str) : list Js.str :=
  let allUrls := filter Js.truthy (locTexts w text) in
  firstn 300 (filter (keeps_url w) (unique allUrls)).

(** [discovered], the pages made of the URLs. *)
Definition discovered (w : CrawlWorld) (urls : list Js.str) : list SitemapPage :=
  map (fun url =>
         {| id := url; title := Js.or_else (titleOfUrl w url) (js "Page");
            slug := slugOfUrl w url; healthScore := None; jobState := None |})
    urls.

(** The two fetch strategies: the events, and the body when one of
    them succeeded. *)
Definition fetchSitemap (w : CrawlWorld) (sitemapUrl : Js.str)
  : list CrawlEvent * option Js.str :=
  match directFetch w with
  | Some text => ([fetchDirect sitemapUrl], Some text)
  | None =>
      ([fetchDirect sitemapUrl; fetchThroughProxy sitemapUrl], proxyFetch w)
  end.

(** [handleCrawlSitemap()], for the value [sitemapUrl] of the input. *)
Definition handleCrawlSitemap (w : CrawlWorld) (sitemapUrl : Js.str)
  : list CrawlEvent :=
  if negb (Js.truthy sitemapUrl)
  then [addToast (js "Enter a sitemap URL") (js "warning")]
  else
    let '(fetches, body) := fetchSitemap w sitemapUrl in
    let text := match body with Some t => t | None => [] end in
    let fetchSucceeded := match body with Some _ => true | None => false end in
    [setProcessing true] ++ fetches
    ++ (if negb fetchSucceeded || negb (Js.truthy text)
        then [addToast (js "Crawl failed: " ++ js "All fetch strategies failed")
                (js "error")]
        else
          let pages := discovered w (uniqueUrls w text) in
          [ storeAddPages pages;
            addToast (js "Discovered "
                      ++ Js.of_Z (Z.of_nat (List.length pages)) ++ js " pages")
              (js "success");
            setSitemapUrl [] ])
    ++ [setProcessing false].

(** A toast of type [error]. *)
Definition is_error_toast (e : CrawlEvent) : bool :=
  match e with
  | addToast _ type => Js.eqb type (js "error")
  | _ => false
  end.

Definition is_proxy_fetch (e : CrawlEvent) : bool :=
  match e with fetchThroughProxy _ => true | _ => false end.

Definition is_pages (e : CrawlEvent) : bool :=
  match e with storeAddPages _ => true | _ => false end.



(** * Properties

    Everything below is proved about the definitions above. *)

(* ===================================================================== *)
(** ** Blind computations *)
(* ===================================================================== *)

Section BlindRules.

Lemma own_app (l1 l2 : list Event) : own (l1 ++ l2) = own l1 ++ own l2.
Proof. apply filter_app. Qed.

Lemma own_idem (l : list Event) : own (own l) = own l.
Proof.
  unfold own. induction l as [|e l IH]; simpl; [reflexivity|].
  destruct (is_cancel e) eqn:E; simpl; [exact IH|].
  rewrite E. simpl. now rewrite IH.
Qed.

(** The own events of a blind computation hold no request. *)
Lemma den_own {A} (m : M A) : own (snd (den m)) = snd (den m).
Proof. unfold den. simpl. apply own_idem. Qed.

Lemma Blind_ret {A} (a : A) : Blind (ret a).
Proof. intros s. unfold den. simpl. now rewrite app_nil_r. Qed.

Lemma Blind_throw {A} (e : Js.str) : Blind (@throw A e).
Proof. intros s. unfold den. simpl. now rewrite app_nil_r. Qed.

Lemma Blind_settle {A} (r : Res A) : Blind (settle r).
Proof. intros s. unfold den. simpl. now rewrite app_nil_r. Qed.

Lemma Blind_emit (e : Event) : is_cancel e = false -> Blind (emit e).
Proof.
  intros He s. unfold den. simpl. rewrite own_app. simpl.
  rewrite He. simpl. split; reflexivity.
Qed.

Lemma Blind_reset : Blind resetCancellationToken.
Proof. intros s. unfold den. simpl. now rewrite app_nil_r. Qed.

Lemma Blind_suspend : Blind suspend.
Proof.
  intros s. unfold den, suspend. simpl.
  destruct (requests s) as [|[] rq]; simpl; rewrite ?own_app; simpl;
    now rewrite ?app_nil_r.
Qed.

Lemma Blind_bind {A B} (m : M A) (k : A -> M B) :
  Blind m -> (forall a, Blind (k a)) -> Blind (bind m k).
Proof.
  intros Hm Hk.
  assert (Hq : forall s, fst (bind m k s) =
                 match fst (den m) with
                 | Ok a => fst (den (k a))
                 | Throw e => Throw e
                 end
               /\ own (log (snd (bind m k s))) =
                 own (log s) ++ snd (den m) ++
                   match fst (den m) with
                   | Ok a => snd (den (k a))
                   | Throw _ => []
                   end).
  { intros s. unfold bind. destruct (Hm s) as [H1 H2].
    destruct (m s) as [[a|e] s']; simpl in *; rewrite <- H1.
    - destruct (Hk a s') as [H3 H4]. rewrite H3, H4, H2.
      now rewrite app_assoc.
    - now rewrite H2, app_nil_r. }
  intros s. destruct (Hq s) as [H1 H2]. destruct (Hq quiet) as [H3 H4].
  change (fst (den (bind m k))) with (fst (bind m k quiet)).
  change (snd (den (bind m k))) with (own (log (snd (bind m k quiet)))).
  rewrite H1, H2, H3, H4. now split.
Qed.

Lemma Blind_catch {A} (m : M A) (h : Js.str -> M A) :
  Blind m -> (forall e, Blind (h e)) -> Blind (try_catch m h).
Proof.
  intros Hm Hh.
  assert (Hq : forall s, fst (try_catch m h s) =
                 match fst (den m) with
                 | Ok a => Ok a
                 | Throw e => fst (den (h e))
                 end
               /\ own (log (snd (try_catch m h s))) =
                 own (log s) ++ snd (den m) ++
                   match fst (den m) with
                   | Ok _ => []
                   | Throw e => snd (den (h e))
                   end).
  { intros s. unfold try_catch. destruct (Hm s) as [H1 H2].
    destruct (m s) as [[a|e] s']; simpl in *; rewrite <- H1.
    - now rewrite H2, app_nil_r.
    - destruct (Hh e s') as [H3 H4]. rewrite H3, H4, H2.
      now rewrite app_assoc. }
  intros s. destruct (Hq s) as [H1 H2]. destruct (Hq quiet) as [H3 H4].
  change (fst (den (try_catch m h))) with (fst (try_catch m h quiet)).
  change (snd (den (try_catch m h)))
    with (own (log (snd (try_catch m h quiet)))).
  rewrite H1, H2, H3, H4. now split.
Qed.

Lemma Blind_when (c : bool) (m : M unit) : Blind m -> Blind (when c m).
Proof. destruct c; simpl; [trivial | intros _; apply Blind_ret]. Qed.

Lemma Blind_for_each {A} (f : A -> M unit) (l : list A) :
  (forall x, Blind (f x)) -> Blind (for_each f l).
Proof.
  intros Hf. induction l as [|x l IH]; simpl.
  - apply Blind_ret.
  - apply Blind_bind; [apply Hf | intros _; exact IH].
Qed.

(** The result and the own events of a sequence. *)
Lemma den_bind {A B} (m : M A) (k : A -> M B) :
  Blind m -> (forall a, Blind (k a)) ->
  den (bind m k) =
    match fst (den m) with
    | Ok a => (fst (den (k a)), snd (den m) ++ snd (den (k a)))
    | Throw e => (Throw e, snd (den m))
    end.
Proof.
  intros Hm Hk. unfold den at 1, bind.
  destruct (m quiet) as [[a|e] s'] eqn:E.
  - assert (H1 : fst (den m) = Ok a) by (unfold den; now rewrite E).
    assert (H2 : snd (den m) = own (log s')) by (unfold den; now rewrite E).
    rewrite H1. destruct (Hk a s') as [H3 H4]. now rewrite H3, H4, H2.
  - assert (H1 : fst (den m) = Throw e) by (unfold den; now rewrite E).
    assert (H2 : snd (den m) = own (log s')) by (unfold den; now rewrite E).
    now rewrite H1, H2.
Qed.

Lemma den_catch {A} (m : M A) (h : Js.str -> M A) :
  Blind m -> (forall e, Blind (h e)) ->
  den (try_catch m h) =
    match fst (den m) with
    | Ok a => (Ok a, snd (den m))
    | Throw e => (fst (den (h e)), snd (den m) ++ snd (den (h e)))
    end.
Proof.
  intros Hm Hh. unfold den at 1, try_catch.
  destruct (m quiet) as [[a|e] s'] eqn:E.
  - assert (H1 : fst (den m) = Ok a) by (unfold den; now rewrite E).
    assert (H2 : snd (den m) = own (log s')) by (unfold den; now rewrite E).
    now rewrite H1, H2.
  - assert (H1 : fst (den m) = Throw e) by (unfold den; now rewrite E).
    assert (H2 : snd (den m) = own (log s')) by (unfold den; now rewrite E).
    rewrite H1. destruct (Hh e s') as [H3 H4]. now rewrite H3, H4, H2.
Qed.

End BlindRules.

(* ===================================================================== *)
(** ** Built computations *)
(* ===================================================================== *)

Section BuiltRules.

Context {P : Event -> bool}.

Lemma Built_when (c : bool) (m : M unit) : Built P m -> Built P (when c m).
Proof. destruct c; simpl; [trivial | intros _; constructor]. Qed.

Lemma Built_for_each {A} (f : A -> M unit) (l : list A) :
  (forall x, Built P (f x)) -> Built P (for_each f l).
Proof.
  intros Hf. induction l as [|x l IH]; simpl.
  - constructor.
  - apply Built_bind; [apply Hf | intros _; exact IH].
Qed.

Lemma Built_any {A} {m : M A} : Built P m -> Built any_event m.
Proof.
  induction 1; try (constructor; auto; fail).
  apply Built_emit. apply andb_true_iff in H. destruct H as [H _].
  now rewrite H.
Qed.

Lemma Built_Blind {A} {m : M A} : Built P m -> Blind m.
Proof.
  induction 1;
    eauto using Blind_ret, Blind_throw, Blind_settle, Blind_suspend,
      Blind_reset, Blind_bind, Blind_catch.
  apply Blind_emit. apply andb_true_iff in H. destruct H as [H _].
  now destruct (is_cancel e).
Qed.

(** Every own event of a built computation satisfies [P]. *)
Lemma Built_Forall {A} {m : M A} :
  Built P m -> Forall (fun e => P e = true) (snd (den m)).
Proof.
  induction 1 as [ | | | | | e He | A B m k Hm IHm Hk IHk
                 | A m h Hm IHm Hh IHh ];
    try (unfold den; simpl; constructor; fail).
  - apply andb_true_iff in He. destruct He as [Hc He].
    unfold den. simpl. rewrite Hc. simpl. now repeat constructor.
  - rewrite den_bind by eauto using @Built_Blind.
    destruct (fst (den m)) as [a|e]; simpl; [|exact IHm].
    apply Forall_app. split; [exact IHm | apply IHk].
  - rewrite den_catch by eauto using @Built_Blind.
    destruct (fst (den m)) as [a|e]; simpl; [exact IHm|].
    apply Forall_app. split; [exact IHm | apply IHh].
Qed.

(** Left alone, a built computation leaves the flag as it was, or
    lowered. *)
Lemma Built_flag {A} {m : M A} :
  Built P m ->
  forall s, requests s = [] ->
    requests (snd (m s)) = []
    /\ (cancelled (snd (m s)) = false \/ cancelled (snd (m s)) = cancelled s).
Proof.
  induction 1 as [ | | | | | | A B m k Hm IHm Hk IHk | A m h Hm IHm Hh IHh ];
    intros s Hs; simpl; try (split; [exact Hs | now right]).
  - unfold suspend. rewrite Hs. simpl. split; [exact Hs | now right].
  - split; [exact Hs | now left].
  - unfold bind. destruct (IHm s Hs) as [H1 H2].
    destruct (m s) as [[a|e] s']; simpl in *.
    + destruct (IHk a s' H1) as [H3 H4]. split; [exact H3|].
      destruct H4 as [H4|H4]; [now left|]. rewrite H4. exact H2.
    + now split.
  - unfold try_catch. destruct (IHm s Hs) as [H1 H2].
    destruct (m s) as [[a|e] s']; simpl in *.
    + now split.
    + destruct (IHh e s' H1) as [H3 H4]. split; [exact H3|].
      destruct H4 as [H4|H4]; [now left|]. rewrite H4. exact H2.
Qed.

End BuiltRules.

Ltac built_step :=
  match goal with
  | |- Built _ (ret _) => apply Built_ret
  | |- Built _ (throw _) => apply Built_throw
  | |- Built _ (settle _) => apply Built_settle
  | |- Built _ suspend => apply Built_suspend
  | |- Built _ resetCancellationToken => apply Built_reset
  | |- Built _ (emit _) => apply Built_emit; reflexivity
  | |- Built _ (bind _ _) => apply Built_bind; [ | intros ]
  | |- Built _ (try_catch _ _) => apply Built_catch; [ | intros ]
  | |- Built _ (when _ _) => apply Built_when
  | |- Built _ (for_each _ _) => apply Built_for_each; intros
  | |- Built _ (if ?c then _ else _) => destruct c
  | |- Built _ (match ?x with _ => _ end) => destruct x
  | |- Built _ (let _ := _ in _) => cbv zeta
  end.

Ltac built := repeat built_step.

(** What a predicate on events allows, another that is weaker allows. *)
Lemma Built_weaken {P Q : Event -> bool} {A} {m : M A} :
  (forall e, P e = true -> Q e = true) -> Built P m -> Built Q m.
Proof.
  intros HPQ. induction 1; try (constructor; auto; fail).
  apply Built_emit. apply andb_true_iff in H. destruct H as [H1 H2].
  now rewrite H1, (HPQ _ H2).
Qed.

(* ===================================================================== *)
(** ** The engine is built from the monad *)
(* ===================================================================== *)

Section EngineBuilt.

Variable cfg : Config.
Variable w : World.
Variable silentMode : bool.

Lemma Built_await {P : Event -> bool} {A} (c : Call) (r : Res A) :
  P (call c) = true -> Built P (await c r).
Proof.
  intros H. unfold await.
  apply Built_bind; [apply Built_emit; now rewrite H | intros; built].
Qed.

Lemma Built_updateProgress {P : Event -> bool} p x :
  P (updateOptimizationProgress (F_phase p :: x)) = true ->
  Built P (updateProgress p x).
Proof. intros H. unfold updateProgress. apply Built_emit. now rewrite H. Qed.

Lemma Built_failWith e : Built early (failWith e).
Proof. unfold failWith. built. Qed.

Lemma Built_handle_manual_url t :
  Built is_input_event (handle_manual_url cfg w silentMode t).
Proof. unfold handle_manual_url. built. Qed.

Lemma Built_resolve_post t : Built early (resolve_post cfg w silentMode t).
Proof.
  unfold resolve_post, updateProgress.
  repeat first [ apply Built_await; reflexivity | built_step ].
Qed.

Lemma Built_entity_gap_analysis t topic :
  Built early (entity_gap_analysis cfg w t topic).
Proof.
  unfold entity_gap_analysis, updateProgress.
  repeat first [ apply Built_await; reflexivity | built_step ].
Qed.

Lemma Built_neuron_analysis t topic :
  Built early (neuron_analysis cfg w t topic).
Proof.
  unfold neuron_analysis, updateProgress.
  repeat first [ apply Built_await; reflexivity | built_step ].
Qed.

Lemma Built_internal_linking t : Built early (internal_linking cfg t).
Proof. unfold internal_linking, updateProgress. built. Qed.

Lemma Built_on_stage p : Built early (on_stage p).
Proof. unfold on_stage, updateProgress. built. Qed.

Lemma Built_await_generate topic links :
  Built early (await_generate w topic links).
Proof.
  unfold await_generate.
  repeat first [ apply Built_on_stage | built_step ].
Qed.

Lemma Built_content_synthesis t topic links :
  Built early (content_synthesis w t topic links).
Proof.
  unfold content_synthesis, updateProgress.
  repeat first [ apply Built_await_generate | built_step ].
Qed.

Lemma Built_publishing t topic postId pres best :
  Built before_completion (publishing cfg w t topic postId pres best).
Proof. unfold publishing, updateProgress, await. built. Qed.

Lemma Built_completion t topic best wc pid :
  Built before_publishing (completion w t topic best wc pid).
Proof. unfold completion, updateProgress. built. Qed.

Lemma Built_on_failure t e : Built early (on_failure w t e).
Proof. unfold on_failure. built. Qed.

End EngineBuilt.

(** The engine is built: each of its blocks, whatever its arguments. *)
Ltac engine_built :=
  repeat first
    [ apply (Built_any (Built_handle_manual_url _ _ _ _))
    | apply (Built_any (Built_failWith _))
    | apply (Built_any (Built_resolve_post _ _ _ _))
    | apply (Built_any (Built_entity_gap_analysis _ _ _ _))
    | apply (Built_any (Built_neuron_analysis _ _ _ _))
    | apply (Built_any (Built_internal_linking _ _))
    | apply (@Built_updateProgress any_event); reflexivity
    | apply (@Built_await any_event); reflexivity
    | apply (Built_any (Built_on_stage _))
    | apply (Built_any (Built_await_generate _ _ _))
    | apply (Built_any (Built_content_synthesis _ _ _ _))
    | apply (Built_any (Built_publishing _ _ _ _ _ _ _))
    | apply (Built_any (Built_completion _ _ _ _ _ _))
    | apply (Built_any (Built_on_failure _ _ _))
    | built_step ].

Ltac engine_blind := intros; apply @Built_Blind with any_event; engine_built.

Section EngineWhole.

Variable cfg : Config.
Variable w : World.
Variable silentMode : bool.

Lemma Built_pipeline t : Built any_event (pipeline cfg w silentMode t).
Proof. unfold pipeline. engine_built. Qed.

Lemma Built_start_job t : Built any_event (start_job cfg w silentMode t).
Proof.
  unfold start_job.
  repeat first [ apply Built_pipeline | progress engine_built ].
Qed.

(** What follows the reset of the flag in [executeGodMode]. *)
Lemma Built_after_reset t :
  exists rest, executeGodMode cfg w silentMode t
               = bind resetCancellationToken (fun _ => rest)
               /\ Built any_event rest.
Proof.
  eexists. split; [reflexivity|].
  repeat first [ apply Built_start_job | progress engine_built ].
Qed.

Lemma Built_executeGodMode t : Built any_event (executeGodMode cfg w silentMode t).
Proof.
  destruct (Built_after_reset t) as [rest [E H]]. rewrite E.
  apply Built_bind; [apply Built_reset | intros _; exact H].
Qed.

(** A run gives what the engine gives when left alone, whatever the
    flag was and whatever the user requests. *)
Lemma run_den t flag reqs :
  run cfg w silentMode t flag reqs = den (executeGodMode cfg w silentMode t).
Proof.
  unfold run.
  destruct (Built_Blind (Built_executeGodMode t)
              {| cancelled := flag; log := []; requests := reqs |}) as [H1 H2].
  cbv zeta. rewrite H1, H2. symmetry. apply surjective_pairing.
Qed.

(** Left alone, a run ends with the flag lowered, whatever it was. *)
Lemma final_flag_quiet t flag : final_flag cfg w silentMode t flag [] = false.
Proof.
  unfold final_flag. destruct (Built_after_reset t) as [rest [E H]].
  rewrite E. unfold bind, resetCancellationToken. cbn [log requests].
  destruct (Built_flag H {| cancelled := false; log := []; requests := [] |}
              eq_refl) as [_ [Hf|Hf]]; exact Hf.
Qed.

End EngineWhole.

(* ===================================================================== *)
(** ** What each phase of the engine emits *)
(* ===================================================================== *)

Ltac den_step := rewrite den_bind by engine_blind.

Lemma den_reset : den resetCancellationToken = (Ok tt, []).
Proof. reflexivity. Qed.

Lemma den_ret {A} (a : A) : den (ret a) = (Ok a, []).
Proof. reflexivity. Qed.

Lemma den_throw {A} (e : Js.str) : den (@throw A e) = (Throw e, []).
Proof. reflexivity. Qed.

Lemma den_emit (e : Event) : is_cancel e = false -> den (emit e) = (Ok tt, [e]).
Proof. intros H. unfold den. simpl. now rewrite H. Qed.

Lemma den_await {A} (c : Call) (r : Res A) : den (await c r) = (r, [call c]).
Proof. reflexivity. Qed.

(** A loop whose body never throws does not throw. *)
Lemma den_for_each {A} (f : A -> M unit) (l : list A) :
  (forall x, Built any_event (f x)) ->
  (forall x, fst (den (f x)) = Ok tt) ->
  fst (den (for_each f l)) = Ok tt.
Proof.
  intros Hb Hf. induction l as [|x l IH]; cbn [for_each]; [reflexivity|].
  rewrite den_bind.
  - rewrite Hf. cbn [fst]. exact IH.
  - apply (Built_Blind (Hb x)).
  - intros _. apply @Built_Blind with any_event. apply Built_for_each. exact Hb.
Qed.

(** Unfolds the operations of the monad. *)
Ltac run_monad :=
  cbv beta iota zeta delta
    [bind try_catch await emit suspend settle ret throw when quiet
     fst snd log requests cancelled app updateProgress].

Section Shape.
Variable cfg : Config.
Variable w : World.
Variable silentMode : bool.

Lemma den_failWith e : den (failWith e) = (Ok (failure e), [progress_failed]).
Proof. reflexivity. Qed.

Lemma den_handle_manual_url t :
  fst (den (handle_manual_url cfg w silentMode t)) = Ok (manual_target cfg t).
Proof.
  unfold handle_manual_url, manual_target.
  destruct (negb (Js.truthy t) && Js.truthy (manualUrl cfg)
            && Js.startsWith (manualUrl cfg) (js "http")); [|reflexivity].
  destruct (find _ (pages cfg)), silentMode; reflexivity.
Qed.

Lemma den_on_failure t e :
  den (on_failure w t e)
  = (Ok (failure (Js.or_else e (js "Unknown error"))), failure_events w t e).
Proof. reflexivity. Qed.

(** The run up to the guards, and what follows. *)
Lemma den_executeGodMode t :
  den (executeGodMode cfg w silentMode t)
  = let pre := setOptimizationProgress (initial_progress cfg w t)
                 :: snd (den (handle_manual_url cfg w silentMode t)) in
    match guard_error cfg (target_of cfg t) with
    | Some msg => (Ok (failure msg), pre ++ [progress_failed])
    | None =>
        let job := den (start_job cfg w silentMode (target_of cfg t)) in
        (fst job, pre ++ snd job)
    end.
Proof.
  unfold executeGodMode.
  rewrite den_bind by
    (intros; apply @Built_Blind with any_event;
     repeat first [ apply Built_start_job | progress engine_built ]).
  rewrite den_reset. cbn [fst snd app].
  rewrite den_bind by
    (intros; apply @Built_Blind with any_event;
     repeat first [ apply Built_start_job | progress engine_built ]).
  rewrite den_emit by reflexivity. cbn [fst snd app].
  rewrite den_bind by
    (intros; apply @Built_Blind with any_event;
     repeat first [ apply Built_start_job | progress engine_built ]).
  rewrite den_handle_manual_url.
  unfold guard_error, target_of. cbv zeta.
  fold (initial_progress cfg w t).
  repeat match goal with
         | |- context [if ?c then _ else _] => destruct c
         end; rewrite ?den_failWith; reflexivity.
Qed.

Lemma den_start_job t :
  den (start_job cfg w silentMode t)
  = let p := den (pipeline cfg w silentMode t) in
    match fst p with
    | Ok r => (Ok r, start_events w t ++ snd p)
    | Throw e =>
        (Ok (failure (Js.or_else e (js "Unknown error"))),
         start_events w t ++ snd p ++ failure_events w t e)
    end.
Proof.
  unfold start_job, start_events.
  rewrite den_bind by
    (intros; apply @Built_Blind with any_event;
     repeat first [ apply Built_pipeline | progress engine_built ]).
  rewrite den_emit by reflexivity. cbn [fst snd app].
  rewrite den_bind by
    (intros; apply @Built_Blind with any_event;
     repeat first [ apply Built_pipeline | progress engine_built ]).
  rewrite den_bind by
    (intros; apply @Built_Blind with any_event;
     repeat first [ apply Built_pipeline | progress engine_built ]).
  rewrite den_emit by reflexivity. cbn [fst snd app].
  rewrite den_bind by
    (intros; apply @Built_Blind with any_event;
     repeat first [ apply Built_pipeline | progress engine_built ]).
  rewrite den_emit by reflexivity. cbn [fst snd app].
  rewrite den_catch by
    (intros; apply @Built_Blind with any_event;
     repeat first [ apply Built_pipeline | progress engine_built ]).
  cbv zeta.
  destruct (fst (den (pipeline cfg w silentMode t))) as [r|e];
    [| rewrite den_on_failure];
    destruct (option_map jobState (getPage w)) as [[j|]|]; reflexivity.
Qed.

Lemma den_entity_gap_analysis t topic :
  fst (den (entity_gap_analysis cfg w t topic)) = Ok tt.
Proof.
  unfold entity_gap_analysis.
  destruct (Js.truthy (serper (apiKeys cfg))); [|reflexivity].
  destruct (entityGap w) as [[]|e]; reflexivity.
Qed.

Lemma den_neuron_analysis t topic :
  fst (den (neuron_analysis cfg w t topic)) = Ok tt.
Proof.
  unfold neuron_analysis.
  destruct (hasNeuronConfig cfg); [|reflexivity].
  destruct (neuronAnalysis w) as [[]|e]; reflexivity.
Qed.

Lemma den_internal_linking t :
  den (internal_linking cfg t) = (Ok (links_of cfg t), linking_events t).
Proof. reflexivity. Qed.

Lemma den_completion t topic best wc pid :
  den (completion w t topic best wc pid)
  = (Ok (completed_result w topic best), completion_events w t topic best wc pid).
Proof. reflexivity. Qed.

(** The pipeline, block after block. *)
Lemma den_pipeline t :
  den (pipeline cfg w silentMode t)
  = let r1 := den (resolve_post cfg w silentMode t) in
    match fst r1 with
    | Throw e => (Throw e, snd r1)
    | Ok (postId, pres, topic, _) =>
        let l2 := snd (den (entity_gap_analysis cfg w t topic)) in
        let l3 := snd (den (neuron_analysis cfg w t topic)) in
        let r5 := den (content_synthesis w t topic (links_of cfg t)) in
        match fst r5 with
        | Throw e => (Throw e, snd r1 ++ l2 ++ l3 ++ linking_events t ++ snd r5)
        | Ok (best, _, wc) =>
            let r6 := den (publishing cfg w t topic postId pres best) in
            match fst r6 with
            | Throw e =>
                (Throw e,
                 snd r1 ++ l2 ++ l3 ++ linking_events t ++ snd r5 ++ snd r6)
            | Ok pid =>
                (Ok (completed_result w topic best),
                 snd r1 ++ l2 ++ l3 ++ linking_events t ++ snd r5 ++ snd r6
                 ++ completion_events w t topic best wc pid)
            end
        end
    end.
Proof.
  unfold pipeline. cbv zeta.
  rewrite den_bind by engine_blind.
  destruct (fst (den (resolve_post cfg w silentMode t)))
    as [[[[postId pres] topic] oc]|e]; [|reflexivity].
  rewrite den_bind by engine_blind.
  rewrite den_entity_gap_analysis.
  rewrite den_bind by engine_blind.
  rewrite den_neuron_analysis.
  rewrite den_bind by engine_blind.
  rewrite den_internal_linking. cbn [fst snd].
  rewrite den_bind by engine_blind.
  destruct (fst (den (content_synthesis w t topic (links_of cfg t))))
    as [[[best qa] wc]|e]; [|reflexivity].
  rewrite den_bind by engine_blind.
  destruct (fst (den (publishing cfg w t topic postId pres best)))
    as [pid|e]; [|reflexivity].
  rewrite den_completion. reflexivity.
Qed.

Lemma den_on_stage p : fst (den (suspend ;; on_stage p)) = Ok tt.
Proof.
  unfold on_stage.
  repeat match goal with
         | |- context [if ?c then _ else _] => destruct c
         end; reflexivity.
Qed.

Lemma den_await_generate topic links :
  fst (den (await_generate w topic links)) = generate w.
Proof.
  unfold await_generate.
  rewrite den_bind by engine_blind.
  rewrite den_emit by reflexivity. cbn [fst snd].
  rewrite den_bind by engine_blind.
  rewrite den_for_each; [reflexivity | intros; engine_built | apply den_on_stage].
Qed.

(** What the synthesis yields: the final validation is its gate. *)
Lemma den_content_synthesis t topic links :
  fst (den (content_synthesis w t topic links))
  = match generate w with
    | Throw e => Throw e
    | Ok raw =>
        let c := polished w raw in
        if too_short (htmlContent c) then Throw gate_message
        else Ok (c, runQASwarm w c, countWords w (htmlContent c))
    end.
Proof.
  unfold content_synthesis, updateProgress.
  rewrite den_bind by engine_blind.
  rewrite den_emit by reflexivity. cbn [fst snd].
  rewrite den_bind by engine_blind.
  rewrite den_emit by reflexivity. cbn [fst snd].
  rewrite den_bind by engine_blind.
  rewrite den_catch by engine_blind.
  rewrite den_bind by engine_blind.
  rewrite den_await_generate.
  destruct (generate w) as [raw|e]; [|reflexivity].
  cbv zeta. fold (polished w raw). unfold too_short.
  repeat (rewrite den_bind by engine_blind;
          rewrite den_emit by reflexivity; cbn [fst snd app]).
  rewrite den_ret. cbn [fst snd app].
  destruct (negb (Js.truthy (htmlContent (polished w raw)))
            || (Js.len (htmlContent (polished w raw)) <? 2000));
    reflexivity.
Qed.

(** The synthesis starts with the outline phase. *)
Lemma den_content_synthesis_head t topic links :
  exists l, snd (den (content_synthesis w t topic links))
            = updateOptimizationProgress [F_phase (js "outline_generation")] :: l.
Proof.
  unfold content_synthesis, updateProgress.
  rewrite den_bind by engine_blind.
  rewrite den_emit by reflexivity. cbn [fst snd app].
  eexists. reflexivity.
Qed.

(** PHASE 6, whatever the metadata update answers. *)
Lemma den_publishing t topic postId pres best :
  den (publishing cfg w t topic postId pres best)
  = let '(c, answer) := publish_call cfg w postId pres best in
    let pre := [ updateOptimizationProgress [F_phase (js "publishing")];
                 updateJobState t [J_phase (js "publishing")];
                 call c ] in
    match answer with
    | Throw e => (Throw e, pre)
    | Ok r =>
        (Ok (fst r),
         pre ++ [ updateJobState t [J_postId (fst r)];
                  call (wpUpdatePostMeta (site cfg) (fst r) (c_title best)
                          (metaDescription best) topic) ])
    end.
Proof.
  unfold publishing, publish_call.
  destruct (truthy_num postId) as [pid|].
  - destruct (updatePost w) as [r|e] eqn:E1; destruct (updateMeta w) eqn:E2;
      unfold den; cbn; rewrite ?E1, ?E2; reflexivity.
  - destruct (createPost w) as [r|e] eqn:E1; destruct (updateMeta w) eqn:E2;
      unfold den; cbn; rewrite ?E1, ?E2; reflexivity.
Qed.

End Shape.

Section Resolve.
Variable cfg : Config.
Variable w : World.
Variable silentMode : bool.

(** What PHASE 1 yields. *)
Lemma den_resolve_post_result t :
  fst (den (resolve_post cfg w silentMode t))
  = match getPage w with
    | None => Throw no_page_message
    | Some page =>
        match resolvePost w with
        | Throw e => Throw e
        | Ok postId =>
            Ok (postId, preserved cfg w postId,
                resolved_topic cfg w page postId, resolved_content w postId)
        end
    end.
Proof.
  unfold resolve_post, preserved, resolved_topic, resolved_content, den.
  run_monad.
  destruct (getPage w) as [page|]; [|reflexivity]. run_monad.
  destruct (resolvePost w) as [postId|e]; [|reflexivity]. run_monad.
  destruct (truthy_num postId) as [pid|] eqn:E; run_monad;
    [destruct (getPost w) as [pd|e]; run_monad|];
    repeat (rewrite ?E;
            match goal with
            | |- context [if ?c then _ else _] => destruct c; run_monad
            end);
    rewrite ?E; reflexivity.
Qed.

End Resolve.

(* ===================================================================== *)
(** ** Cancellation and the order of the displayed steps *)
(* ===================================================================== *)

Section Snapshots.

Lemma snapshots_app p l1 l2 :
  snapshots p (l1 ++ l2)
  = snapshots p l1 ++ snapshots (progress_after p l1) l2.
Proof.
  unfold progress_after. revert p.
  induction l1 as [|e l1 IH]; intros p; [reflexivity|].
  assert (Hlast : forall (q : Progress) (l : list Progress),
             last (q :: l) p = last l q).
  { intros q l. revert q. induction l as [|x l IHl]; intros q;
      [reflexivity|]. cbn [last] in *. destruct l; [reflexivity|].
    apply IHl. }
  destruct e; cbn [snapshots app]; rewrite ?IH, ?Hlast; reflexivity.
Qed.

Lemma nondecreasing_app_regress (a : list Z) (x y : Z) (b : list Z) :
  y < x -> nondecreasing (a ++ x :: y :: b) = false.
Proof.
  intros H. induction a as [|z a IH].
  - cbn. destruct (Z.leb_spec x y); [lia | reflexivity].
  - cbn [app nondecreasing]. destruct (a ++ x :: y :: b) eqn:E.
    + now destruct a.
    + rewrite IH. apply andb_false_r.
Qed.

(** The step index falls from 11 to 7 where the links phase is
    followed by the outline phase. *)
Lemma steps_regress (a b : list Event) (t : Js.str) :
  nondecreasing
    (steps (a ++ linking_events t
              ++ updateOptimizationProgress [F_phase (js "outline_generation")]
              :: b)) = false.
Proof.
  unfold steps. rewrite snapshots_app, map_app.
  cbn [linking_events app snapshots map].
  apply nondecreasing_app_regress. vm_compute. reflexivity.
Qed.

End Snapshots.

(** C7. The result of [executeGodMode] and everything the run does
    (every progress update with its phase, every write to the job state,
    every call) are the same whatever the cancellation flag was when the
    run started and whatever cancellation requests arrive while it is
    suspended; the run lowers the flag when it starts and, left alone,
    ends with the flag lowered. *)
Theorem cancellation_flag_is_never_read :
  forall cfg w silentMode t flag flag' reqs reqs',
    run cfg w silentMode t flag reqs = run cfg w silentMode t flag' reqs'
    /\ final_flag cfg w silentMode t flag [] = false.
Proof.
  intros. split.
  - now rewrite !run_den.
  - apply final_flag_quiet.
Qed.

(** A request is visible in what is displayed, though not in what the
    run does: the displayed phase is forced to [failed] at the request. *)
Example request_is_displayed :
  let w := Sample.world 2000 300 80 in
  map phase
    (snapshots idle_progress
       (log (snd (executeGodMode Sample.cfg w false []
                    {| cancelled := false; log := []; requests := [true] |}))))
  <> map phase
       (snapshots idle_progress
          (log (snd (executeGodMode Sample.cfg w false []
                       {| cancelled := false; log := []; requests := [] |})))).
Proof. vm_compute. discriminate. Qed.

Section Regress.
Variable cfg : Config.
Variable w : World.
Variable silentMode : bool.

(** The events of a run that succeeds. *)
Lemma success_events t r :
  fst (den (executeGodMode cfg w silentMode t)) = Ok r ->
  success r = true ->
  exists a b,
    snd (den (executeGodMode cfg w silentMode t))
    = a ++ linking_events (target_of cfg t)
        ++ updateOptimizationProgress [F_phase (js "outline_generation")] :: b.
Proof.
  rewrite den_executeGodMode. cbv zeta.
  destruct (guard_error cfg (target_of cfg t)) as [msg|];
    [cbn [fst]; intros [= <-]; discriminate|].
  rewrite den_start_job. cbv zeta.
  destruct (fst (den (pipeline cfg w silentMode (target_of cfg t)))) as [r'|e] eqn:E;
    [|cbn [fst]; intros [= <-]; discriminate].
  cbn [fst snd]. intros _ _.
  rewrite den_pipeline in E |- *. cbv zeta in E |- *.
  destruct (fst (den (resolve_post cfg w silentMode (target_of cfg t))))
    as [[[[postId pres] topic] oc]|e]; [|discriminate].
  destruct (den_content_synthesis_head w (target_of cfg t) topic
              (links_of cfg (target_of cfg t))) as [l5 H5].
  rewrite H5.
  destruct (fst (den (content_synthesis w (target_of cfg t) topic
                        (links_of cfg (target_of cfg t)))))
    as [[[best qa] wc]|e]; [|discriminate].
  destruct (fst (den (publishing cfg w (target_of cfg t) topic postId pres best)))
    as [pid|e]; [|discriminate].
  cbn [snd].
  exists ((setOptimizationProgress (initial_progress cfg w t)
           :: snd (den (handle_manual_url cfg w silentMode t)))
          ++ start_events w (target_of cfg t)
          ++ snd (den (resolve_post cfg w silentMode (target_of cfg t)))
          ++ snd (den (entity_gap_analysis cfg w (target_of cfg t) topic))
          ++ snd (den (neuron_analysis cfg w (target_of cfg t) topic))),
         (l5 ++ snd (den (publishing cfg w (target_of cfg t) topic postId
                            pres best))
             ++ completion_events w (target_of cfg t) topic best wc pid).
  repeat rewrite <- app_assoc. reflexivity.
Qed.

End Regress.

(** C1. In every run that succeeds, the step index of the progress
    snapshots decreases: the links phase (step 11) is reported before
    the outline phase (step 7). *)
Theorem steps_regress_in_every_successful_run :
  forall cfg w silentMode t flag reqs r,
    fst (run cfg w silentMode t flag reqs) = Ok r ->
    success r = true ->
    nondecreasing (steps (snd (run cfg w silentMode t flag reqs))) = false.
Proof.
  intros cfg w silentMode t flag reqs r. rewrite run_den. intros H1 H2.
  destruct (success_events cfg w silentMode t r H1 H2) as [a [b ->]].
  apply steps_regress.
Qed.

Lemma steps_regress_witness :
  let out := run Sample.cfg (Sample.world 2000 300 80) false [] false [] in
  fst out = Ok {| success := true; score := 80; r_wordCount := 300; error := None |}
  /\ nondecreasing (steps (snd out)) = false.
Proof.
  split; [vm_compute; reflexivity|].
  apply (steps_regress_in_every_successful_run Sample.cfg
           (Sample.world 2000 300 80) false [] false []
           {| success := true; score := 80; r_wordCount := 300; error := None |});
    vm_compute; reflexivity.
Defined.

(* ===================================================================== *)
(** ** The content gate *)
(* ===================================================================== *)

Section Invariants.
Variable cfg : Config.
Variable w : World.
Variable silentMode : bool.

Lemma Built_Forall_weak {P Q : Event -> bool} {A} {m : M A} :
  (forall e, P e = true -> Q e = true) ->
  Built P m -> Forall (fun e => Q e = true) (snd (den m)).
Proof. intros HPQ H. exact (Built_Forall (Built_weaken HPQ H)). Qed.

Lemma early_before_publishing e : early e = true -> before_publishing e = true.
Proof. unfold early. intros H. now apply andb_true_iff in H. Qed.


Lemma input_early e : is_input_event e = true -> early e = true.
Proof. destruct e; simpl; try discriminate; reflexivity. Qed.


(** The events of a run up to the publishing step are early ones. *)
Lemma early_handle_manual_url t :
  Forall (fun e => early e = true) (snd (den (handle_manual_url cfg w silentMode t))).
Proof. exact (Built_Forall_weak input_early (Built_handle_manual_url _ _ _ _)). Qed.

Lemma early_start_events t : Forall (fun e => early e = true) (start_events w t).
Proof.
  unfold start_events.
  destruct (option_map jobState (getPage w)) as [[j|]|];
    repeat constructor.
Qed.

Lemma early_failure_events t e :
  Forall (fun e => early e = true) (failure_events w t e).
Proof. repeat constructor. Qed.

Lemma early_linking_events t : Forall (fun e => early e = true) (linking_events t).
Proof. repeat constructor. Qed.

Lemma before_publishing_completion_events t topic best wc pid :
  Forall (fun e => before_publishing e = true)
    (completion_events w t topic best wc pid).
Proof. repeat constructor. Qed.

End Invariants.

(** Splits a goal on the events of a run into its parts. *)
Ltac forall_parts :=
  repeat first
    [ apply early_handle_manual_url
    | apply early_start_events
    | apply early_failure_events
    | apply early_linking_events
    | exact (Built_Forall (Built_resolve_post _ _ _ _))
    | exact (Built_Forall (Built_entity_gap_analysis _ _ _ _))
    | exact (Built_Forall (Built_neuron_analysis _ _ _ _))
    | exact (Built_Forall (Built_content_synthesis _ _ _ _))
    | apply Forall_app; split
    | apply Forall_nil
    | apply Forall_cons; [reflexivity|] ].

Section Gate.
Variable cfg : Config.
Variable w : World.
Variable silentMode : bool.

(** A run that the final validation stops, or that stops earlier,
    issues early events only. *)
Lemma short_content_events t raw :
  generate w = Ok raw ->
  too_short (htmlContent (polished w raw)) = true ->
  exists msg,
    fst (den (executeGodMode cfg w silentMode t)) = Ok (failure msg)
    /\ Forall (fun e => early e = true)
         (snd (den (executeGodMode cfg w silentMode t)))
    /\ (guard_error cfg (target_of cfg t) = None ->
        getPage w <> None -> (exists p, resolvePost w = Ok p) ->
        msg = gate_message).
Proof.
  intros Hg Hs. rewrite den_executeGodMode. cbv zeta.
  destruct (guard_error cfg (target_of cfg t)) as [msg|].
  { exists msg. cbn [fst snd]. split; [reflexivity|].
    split; [forall_parts | discriminate]. }
  rewrite den_start_job, den_pipeline. cbv zeta.
  rewrite den_resolve_post_result.
  destruct (getPage w) as [page|].
  2:{ eexists. cbn [fst snd]. split; [reflexivity|].
      split; [forall_parts | intros _ H; now contradiction H]. }
  destruct (resolvePost w) as [postId|e].
  2:{ eexists. cbn [fst snd]. split; [reflexivity|].
      split; [forall_parts | intros _ _ [p Hp]; discriminate]. }
  rewrite den_content_synthesis, Hg. cbv zeta. rewrite Hs.
  exists gate_message. cbn [fst snd].
  split; [reflexivity|]. split; [forall_parts | reflexivity].
Qed.

(** A run that succeeds passed the final validation. *)
Lemma success_content t r :
  fst (den (executeGodMode cfg w silentMode t)) = Ok r ->
  success r = true ->
  exists raw, generate w = Ok raw
              /\ too_short (htmlContent (polished w raw)) = false.
Proof.
  rewrite den_executeGodMode. cbv zeta.
  destruct (guard_error cfg (target_of cfg t)) as [msg|];
    [cbn [fst]; intros [= <-]; discriminate|].
  rewrite den_start_job, den_pipeline. cbv zeta.
  destruct (fst (den (resolve_post cfg w silentMode (target_of cfg t))))
    as [[[[postId pres] topic] oc]|e];
    [|cbn [fst]; intros [= <-]; discriminate].
  rewrite den_content_synthesis.
  destruct (generate w) as [raw|e];
    [|cbn [fst]; intros [= <-]; discriminate].
  cbv zeta.
  destruct (too_short (htmlContent (polished w raw))) eqn:Hs;
    [cbn [fst]; intros [= <-]; discriminate|].
  intros _ _. now exists raw.
Qed.

End Gate.

(** C2, as the code has it. A run that succeeds synthesized content of
    at least 2000 code units of HTML (after the H1 tags are removed);
    when the synthesized HTML is shorter, the run fails and nothing of
    the publishing step happens, and if the run got as far as the
    synthesis its error is the one of the final validation. *)
Theorem content_gate_is_2000_characters :
  forall cfg w silentMode t flag reqs r,
    fst (run cfg w silentMode t flag reqs) = Ok r ->
    (success r = true ->
     exists raw, generate w = Ok raw
                 /\ 2000 <= Js.len (removeAllH1Tags w (htmlContent raw)))
    /\ (forall raw,
          generate w = Ok raw ->
          Js.len (removeAllH1Tags w (htmlContent raw)) < 2000 ->
          success r = false
          /\ Forall (fun e => is_publishing e = false)
               (snd (run cfg w silentMode t flag reqs))
          /\ (guard_error cfg (target_of cfg t) = None ->
              getPage w <> None -> (exists p, resolvePost w = Ok p) ->
              r = failure gate_message)).
Proof.
  intros cfg w silentMode t flag reqs r. rewrite run_den. intros Hr. split.
  - intros Hs. destruct (success_content cfg w silentMode t r Hr Hs)
      as [raw [Hg Hok]].
    exists raw. split; [exact Hg|].
    unfold too_short in Hok. apply orb_false_iff in Hok. destruct Hok as [_ Hok].
    cbn [polished htmlContent] in Hok. apply Z.ltb_ge in Hok. exact Hok.
  - intros raw Hg Hlen.
    assert (Hs : too_short (htmlContent (polished w raw)) = true).
    { unfold too_short. cbn [polished htmlContent].
      apply orb_true_iff. right. now apply Z.ltb_lt. }
    destruct (short_content_events cfg w silentMode t raw Hg Hs)
      as [msg [H1 [H2 H3]]].
    rewrite Hr in H1. injection H1 as ->. split; [reflexivity|]. split.
    + eapply Forall_impl; [|exact H2]. intros e He.
      apply early_before_publishing in He. unfold before_publishing in He.
      now destruct (is_publishing e).
    + intros G1 G2 G3. now rewrite (H3 G1 G2 G3).
Qed.

Lemma content_gate_witness :
  let out := run Sample.cfg (Sample.world 1999 300 80) false [] false [] in
  fst out = Ok (failure gate_message)
  /\ Forall (fun e => is_publishing e = false) (snd out).
Proof.
  assert (H : fst (run Sample.cfg (Sample.world 1999 300 80) false [] false [])
              = Ok (failure gate_message)) by (vm_compute; reflexivity).
  split; [exact H|].
  destruct (content_gate_is_2000_characters Sample.cfg
              (Sample.world 1999 300 80) false [] false [] (failure gate_message) H)
    as [_ H2].
  destruct (H2 (Sample.contract 1999) eq_refl) as [_ [H3 _]];
    [vm_compute; reflexivity | exact H3].
Defined.

(** C2 as stated fails: a run succeeds with 2000 code units of HTML that
    count 300 words, below [MIN_WORD_COUNT]. *)
Lemma success_below_MIN_WORD_COUNT :
  let w := Sample.world 2000 300 80 in
  fst (run Sample.cfg w false [] false [])
  = Ok {| success := true; score := 80; r_wordCount := 300; error := None |}
  /\ countWords w (removeAllH1Tags w (htmlContent (Sample.contract 2000)))
     < MIN_WORD_COUNT
  /\ 300 < MIN_WORD_COUNT.
Proof. vm_compute. repeat split. Qed.

(* ===================================================================== *)
(** ** How a run ends *)
(* ===================================================================== *)

Section Terminal.
Variable cfg : Config.
Variable w : World.
Variable silentMode : bool.


Lemma last_cons (q p : Progress) (l : list Progress) :
  last (q :: l) p = last l q.
Proof.
  revert q. induction l as [|x l IH]; intros q; [reflexivity|].
  cbn [last] in *. destruct l; [reflexivity|]. apply IH.
Qed.









End Terminal.

Section TerminalRun.
Variable cfg : Config.
Variable w : World.
Variable silentMode : bool.




End TerminalRun.




(* ===================================================================== *)
(** ** The guards *)
(* ===================================================================== *)




(* ===================================================================== *)
(** ** The publishing decision *)
(* ===================================================================== *)

Section Publishing.
Variable cfg : Config.
Variable w : World.
Variable silentMode : bool.




End Publishing.

Section PublishingRun.
Variable cfg : Config.
Variable w : World.
Variable silentMode : bool.







End PublishingRun.


(** The update path and a failing metadata update, on the sample: the
    post 12 is updated with its two categories, without tags (there are
    none), with its featured image, and the run succeeds. *)
Example update_path_on_sample :
  let w := with_updateMeta (Sample.world 2000 300 80) (Throw (js "meta failed")) in
  let out := run Sample.cfg w false [] false [] in
  fst out = Ok {| success := true; score := 80; r_wordCount := 300; error := None |}
  /\ In (call (wpUpdatePost (js "https://a.com") 12
                 {| pd_title := js "Example Page, Rewritten";
                    pd_content := Sample.text 2000;
                    pd_excerpt := js "About the example.";
                    pd_status := js "draft";
                    pd_categories := Some [3; 5]; pd_tags := None;
                    pd_featured_media := Some 77; pd_slug := None |}
                 {| o_preserveFeaturedImage := true; o_preserveSlug := true;
                    o_preserveCategories := true; o_preserveTags := true |}))
       (snd out).
Proof.
  cbv zeta. split.
  - vm_compute. reflexivity.
  - vm_compute. tauto.
Qed.

(* ===================================================================== *)
(** ** The progress component *)
(* ===================================================================== *)

Section ProgressComponent.

(** The step of a phase is one of the table's. *)
Lemma currentStep_range (phase : Js.str) : 0 <= currentStep phase <= 15.
Proof.
  unfold currentStep, phaseConfig, PHASE_CONFIG. cbn [lookup_phase].
  repeat match goal with
         | |- context [if Js.eqb ?k phase then _ else _] =>
             destruct (Js.eqb k phase)
         end; cbn; lia.
Qed.

(** The percentage as a function of the step. *)
Lemma progressPercent_round (phase : Js.str) :
  progressPercent phase = (200 * currentStep phase + 15) / 30.
Proof.
  unfold progressPercent. pose proof (currentStep_range phase) as H.
  assert (E : In (currentStep phase)
                [0; 1; 2; 3; 4; 5; 6; 7; 8; 9; 10; 11; 12; 13; 14; 15]).
  { cbn [In]. lia. }
  cbn [In] in E.
  repeat (destruct E as [E|E]; [rewrite <- E; vm_compute; reflexivity|]).
  destruct E.
Qed.

(** The decimal digits of an integer do not start with two dashes. *)
Lemma of_Z_not_dashes (n : Z) (rest : Js.str) :
  Js.of_Z n ++ rest <> js "--:--".
Proof.
  unfold Js.of_Z, DecimalString.NilZero.string_of_int.
  destruct (Z.to_int n) as [d|d];
    unfold DecimalString.NilZero.string_of_uint;
    destruct d; cbn; discriminate.
Qed.

Lemma formatTime_not_dashes (ms : Q) : formatTime ms <> js "--:--".
Proof. unfold formatTime. cbv zeta. apply of_Z_not_dashes. Qed.

End ProgressComponent.

(** C10, as the code has it. For every phase, with step [s], and every
    elapsed time [e]: [s] is between 0 and 15; the percentage is
    [100 * s / 15] rounded to the nearest integer ([Math.round]), which
    is its floor plus one when the fraction is a half or more; the
    estimate is ["--:--"] exactly when [s = 0] or [e = 0], and otherwise
    the formatted time of [(e / s) * (15 - s)]. *)
Theorem percent_is_rounded_and_eta_needs_elapsed :
  forall (phase : Js.str) (e : Z),
    let s := currentStep phase in
    0 <= s <= 15
    /\ progressPercent phase
       = 100 * s / 15 + (if 15 <=? 2 * ((100 * s) mod 15) then 1 else 0)
    /\ (estimateRemainingTime phase e = js "--:--" <-> s = 0 \/ e = 0)
    /\ (s <> 0 -> e <> 0 ->
        estimateRemainingTime phase e
        = formatTime ((inject_Z e / inject_Z s) * inject_Z (15 - s))%Q).
Proof.
  intros phase e. cbv zeta.
  pose proof (currentStep_range phase) as H.
  split; [exact H|]. split.
  - rewrite progressPercent_round.
    assert (E : In (currentStep phase)
                  [0; 1; 2; 3; 4; 5; 6; 7; 8; 9; 10; 11; 12; 13; 14; 15]).
    { cbn [In]. lia. }
    cbn [In] in E.
    repeat (destruct E as [E|E]; [rewrite <- E; vm_compute; reflexivity|]).
    destruct E.
  - unfold estimateRemainingTime, estimatedRemaining. cbv zeta. split.
    + destruct (Z.eqb_spec (currentStep phase) 0) as [E1|E1];
        destruct (Z.eqb_spec e 0) as [E2|E2]; cbn [orb]; split; auto.
      * intros F. now apply formatTime_not_dashes in F.
      * intros [F|F]; contradiction.
    + intros E1 E2.
      destruct (Z.eqb_spec (currentStep phase) 0); [contradiction|].
      destruct (Z.eqb_spec e 0); [contradiction|]. reflexivity.
Qed.

(** C10 as stated fails: at step 1 the percentage is 7, not the floor
    6 of [100 / 15]; and at step 1 with no elapsed time the estimate is
    ["--:--"]. *)
Lemma percent_is_not_floor :
  currentStep (js "initializing") = 1
  /\ progressPercent (js "initializing") = 7
  /\ 100 * 1 / 15 = 6
  /\ estimateRemainingTime (js "initializing") 0 = js "--:--".
Proof. vm_compute. repeat split. Qed.

(* ===================================================================== *)
(** ** The bulk input parser *)
(* ===================================================================== *)

Section BulkInput.

Lemma eqb_eq (a b : Js.str) : Js.eqb a b = true <-> a = b.
Proof.
  revert b. induction a as [|x a IH]; intros [|y b]; cbn;
    try (split; [discriminate | discriminate]); [tauto|].
  rewrite andb_true_iff, N.eqb_eq, IH. split.
  - intros [-> ->]. reflexivity.
  - intros [= -> ->]. now split.
Qed.

Lemma eqb_refl (a : Js.str) : Js.eqb a a = true.
Proof. now apply eqb_eq. Qed.

(** The pieces of a split hold no separator. *)
Lemma split_go_clean (sep : N -> bool) (a cur : Js.str) (in_sep : bool) :
  Forall (fun c => sep c = false) cur ->
  Forall (Forall (fun c => sep c = false)) (Js.split_go sep a cur in_sep).
Proof.
  revert cur in_sep. induction a as [|c a IH]; intros cur in_sep Hcur; cbn.
  - constructor; [|constructor]. now apply Forall_rev.
  - destruct (sep c) eqn:E.
    + destruct in_sep; [now apply IH|].
      constructor; [now apply Forall_rev | apply IH; constructor].
    + apply IH. now constructor.
Qed.

Lemma trimStart_clean (a : Js.str) :
  Forall (fun c => Js.is_space c = false) a -> Js.trimStart a = a.
Proof. intros [|c l Hc _]; cbn; [reflexivity | now rewrite Hc]. Qed.

Lemma trim_clean (a : Js.str) :
  Forall (fun c => Js.is_space c = false) a -> Js.trim a = a.
Proof.
  intros H. unfold Js.trim. rewrite (trimStart_clean a H).
  rewrite trimStart_clean by now apply Forall_rev.
  apply rev_involutive.
Qed.

Lemma separator_space (c : N) : is_bulk_separator c = false -> Js.is_space c = false.
Proof.
  unfold is_bulk_separator. intros H.
  apply orb_false_iff in H. now destruct H.
Qed.

(** Trimming the pieces of the split changes nothing. *)
Lemma map_trim_split (text : Js.str) :
  map Js.trim (Js.split is_bulk_separator text)
  = Js.split is_bulk_separator text.
Proof.
  pose proof (split_go_clean is_bulk_separator text [] false (Forall_nil _)) as H.
  unfold Js.split. induction H as [|a l Ha _ IH]; [reflexivity|].
  cbn [map]. rewrite IH, trim_clean; [reflexivity|].
  eapply Forall_impl; [|exact Ha]. exact separator_space.
Qed.

Lemma first_at_app (p r : list Js.str) (u : Js.str) :
  first_at (p ++ u :: r) u (List.length p) = true <-> ~ In u p.
Proof.
  unfold first_at. induction p as [|v p IH]; cbn.
  - rewrite eqb_refl. cbn. tauto.
  - destruct (Js.eqb v u) eqn:E.
    + apply eqb_eq in E. cbn. split; [discriminate | intros H; exfalso; auto].
    + assert (v <> u) by (intros F; apply eqb_eq in F; congruence).
      destruct (Js.indexOf (p ++ u :: r) u) as [j|]; cbn in *.
      * rewrite IH. tauto.
      * rewrite IH. tauto.
Qed.

(** The filter on [indexOf] keeps the first occurrence of each entry. *)
Lemma filter_indexed_first (p s : list Js.str) :
  let l := filter_indexed (first_at (p ++ s)) (List.length p) s in
  NoDup l /\ forall u, In u l <-> In u s /\ ~ In u p.
Proof.
  cbv zeta. revert p. induction s as [|u s IH]; intros p; cbn.
  - split; [constructor | tauto].
  - specialize (IH (p ++ [u])).
    rewrite <- app_assoc, length_app, Nat.add_1_r in IH. cbn [app] in IH.
    destruct IH as [IH1 IH2].
    destruct (first_at (p ++ u :: s) u (List.length p)) eqn:E.
    + apply first_at_app in E. split.
      * constructor; [|exact IH1]. rewrite IH2, in_app_iff. cbn. tauto.
      * intros v. cbn. rewrite IH2, in_app_iff. cbn.
        destruct (list_eq_dec N.eq_dec u v) as [->|Hne]; tauto.
    + assert (Hin : In u p).
      { destruct (in_dec (list_eq_dec N.eq_dec) u p) as [H|H]; [exact H|].
        apply first_at_app with (r := s) in H. congruence. }
      split; [exact IH1|].
      intros v. rewrite IH2, in_app_iff. cbn.
      destruct (list_eq_dec N.eq_dec u v) as [->|Hne]; tauto.
Qed.

(** What the parser keeps: the pieces that start with [http], once. *)
Lemma parseBulkUrls_spec (text : Js.str) :
  NoDup (parseBulkUrls text)
  /\ forall u, In u (parseBulkUrls text)
               <-> In u (Js.split is_bulk_separator text)
                   /\ Js.startsWith u (js "http") = true.
Proof.
  unfold parseBulkUrls. cbv zeta. rewrite map_trim_split.
  destruct (filter_indexed_first []
              (filter (fun u => Js.startsWith u (js "http"))
                 (Js.split is_bulk_separator text))) as [H1 H2].
  cbn [app List.length] in H1, H2. split; [exact H1|].
  intros u. rewrite H2, filter_In. tauto.
Qed.

End BulkInput.

(* ===================================================================== *)
(** ** The bulk scheduler *)
(* ===================================================================== *)

Section JobLists.

Lemma firstn_seq (n a m : nat) : firstn n (seq a m) = seq a (Nat.min n m).
Proof.
  revert a m. induction n as [|n IH]; intros a [|m]; cbn; try reflexivity.
  now rewrite IH.
Qed.

Lemma make_jobs_index (k : nat) (urls : list Js.str) :
  map b_index (make_jobs k urls) = seq k (List.length urls).
Proof.
  revert k. induction urls as [|u urls IH]; intros k; cbn; [reflexivity|].
  now rewrite IH.
Qed.

Lemma make_jobs_url (k : nat) (urls : list Js.str) :
  map b_url (make_jobs k urls) = urls.
Proof.
  revert k. induction urls as [|u urls IH]; intros k; cbn; [reflexivity|].
  now rewrite IH.
Qed.

Lemma make_jobs_length (k : nat) (urls : list Js.str) :
  List.length (make_jobs k urls) = List.length urls.
Proof. now rewrite <- (length_map b_index), make_jobs_index, length_seq. Qed.

Lemma make_jobs_queued (k : nat) (urls : list Js.str) (x : BulkJob) :
  In x (make_jobs k urls) -> b_status x = Queued.
Proof.
  revert k. induction urls as [|u urls IH]; intros k; cbn; [tauto|].
  intros [<-|H]; [reflexivity | exact (IH _ H)].
Qed.

Lemma update_job_index (j : nat) (f : BulkJob -> BulkJob) (l : list BulkJob) :
  (forall x, b_index (f x) = b_index x) ->
  map b_index (update_job j f l) = map b_index l.
Proof.
  intros Hf. unfold update_job. rewrite map_map. apply map_ext.
  intros x. now destruct (Nat.eqb (b_index x) j).
Qed.

Lemma update_job_url (j : nat) (f : BulkJob -> BulkJob) (l : list BulkJob) :
  (forall x, b_url (f x) = b_url x) ->
  map b_url (update_job j f l) = map b_url l.
Proof.
  intros Hf. unfold update_job. rewrite map_map. apply map_ext.
  intros x. now destruct (Nat.eqb (b_index x) j).
Qed.

Lemma in_update_job (j : nat) (f : BulkJob -> BulkJob) (l : list BulkJob) y :
  In y (update_job j f l) ->
  exists x, In x l /\ y = if Nat.eqb (b_index x) j then f x else x.
Proof.
  unfold update_job. rewrite in_map_iff. intros [x [E H]].
  exists x. now split.
Qed.

(** Marking the jobs of a list as running, one after the other. *)
Lemma fold_set_running (b l : list BulkJob) :
  fold_left (fun js x => update_job (b_index x) set_running js) b l
  = map (fun x => if existsb (Nat.eqb (b_index x)) (map b_index b)
                  then set_running x else x) l.
Proof.
  revert l. induction b as [|y b IH]; intros l; cbn [fold_left map existsb].
  - symmetry. rewrite <- (map_id l) at 2. reflexivity.
  - rewrite IH. unfold update_job. rewrite map_map. apply map_ext.
    intros x. destruct (Nat.eqb (b_index x) (b_index y)) eqn:E; cbn.
    + now destruct (existsb _ _).
    + reflexivity.
Qed.

(** The sum over the jobs after one of them is updated. *)
Lemma total_update (g : BulkJob -> Z) (j : nat) (f : BulkJob -> BulkJob)
    (l : list BulkJob) (x : BulkJob) :
  NoDup (map b_index l) -> In x l -> b_index x = j ->
  total g (update_job j f l) = total g l - g x + g (f x).
Proof.
  unfold total, update_job. induction l as [|y l IH]; [intros _ []|].
  cbn [map fold_right]. intros Hnd Hin Hj.
  apply NoDup_cons_iff in Hnd. destruct Hnd as [Hy Hnd].
  destruct Hin as [->|Hin].
  - rewrite Hj, Nat.eqb_refl.
    assert (E : map (fun z => if Nat.eqb (b_index z) j then f z else z) l = l).
    { rewrite <- (map_id l) at 2. apply map_ext_in. intros z Hz.
      destruct (Nat.eqb_spec (b_index z) j) as [Ez|]; [|reflexivity].
      exfalso. apply Hy. rewrite Hj, <- Ez. now apply in_map. }
    rewrite E. lia.
  - destruct (Nat.eqb_spec (b_index y) j) as [Ey|Ey].
    + exfalso. apply Hy. rewrite Ey, <- Hj. now apply in_map.
    + rewrite (IH Hnd Hin Hj). lia.
Qed.

(** The jobs that satisfy [p] are at most as many as the indices that
    they may have. *)
Lemma filter_window (p : BulkJob -> bool) (l : list BulkJob) (i n : nat) :
  NoDup (map b_index l) ->
  (forall x, In x l -> p x = true -> i <= b_index x < i + n)%nat ->
  (List.length (filter p l) <= n)%nat.
Proof.
  intros Hnd Hw.
  rewrite <- (length_map b_index), <- (length_seq n i).
  apply NoDup_incl_length.
  - clear Hw. induction l as [|y l IH]; cbn; [constructor|].
    apply NoDup_cons_iff in Hnd. destruct Hnd as [Hy Hnd].
    destruct (p y); cbn; [|now apply IH].
    constructor; [|now apply IH].
    intros H. apply Hy. apply in_map_iff in H. destruct H as [z [E Hz]].
    apply filter_In in Hz. rewrite <- E. apply in_map. tauto.
  - intros k Hk. apply in_map_iff in Hk. destruct Hk as [x [<- Hx]].
    apply filter_In in Hx. apply in_seq. apply Hw; tauto.
Qed.

End JobLists.

Section SchedulerInvariant.

Variable bulkConcurrency : nat.
Variable urls : list Js.str.
Variable race : nat -> RaceOutcome.

Let jobs := make_jobs 0 urls.
Let step := sched_step bulkConcurrency jobs race.

Lemma total_zero (g : BulkJob -> Z) (l : list BulkJob) :
  (forall x, In x l -> g x = 0) -> total g l = 0.
Proof.
  unfold total. induction l as [|x l IH]; cbn; [reflexivity|].
  intros H. rewrite (H x), IH by auto. reflexivity.
Qed.

Lemma Inv_init : Inv bulkConcurrency urls race (sched_init bulkConcurrency jobs).
Proof.
  assert (Hq : forall x, In x jobs -> b_status x = Queued)
    by (intros x; apply make_jobs_queued).
  split; cbn.
  - apply make_jobs_index.
  - apply make_jobs_url.
  - unfold ctl_ok. cbn. intros x Hx. split; [lia|].
    intros _. unfold is_queued. now rewrite (Hq x Hx).
  - intros x Hx. unfold outcome_ok, is_completed, is_failed.
    rewrite (Hq x Hx). split; discriminate.
  - unfold counters_ok, count.
    cbn [sched_init ui bs_jobs completed failed totalWords totalScore
         bs_completed bs_failed bs_totalWords bs_avgScore].
    rewrite !total_zero; [cbn; tauto| | | |];
      intros x Hx; unfold words_of, score_of, is_completed, is_failed;
      now rewrite (Hq x Hx).
Qed.

Lemma total_ext_in (g : BulkJob -> Z) (h : BulkJob -> BulkJob) (l : list BulkJob) :
  (forall x, In x l -> g (h x) = g x) -> total g (map h l) = total g l.
Proof.
  unfold total. intros H. rewrite map_map. f_equal. now apply map_ext_in.
Qed.

Lemma count_nonneg (p : BulkJob -> bool) (l : list BulkJob) : 0 <= count p l.
Proof.
  unfold count, total. induction l as [|x l IH]; cbn; [lia|].
  destruct (p x); lia.
Qed.

Lemma batch_index (i : nat) :
  map b_index (batch bulkConcurrency jobs i)
  = seq i (Nat.min bulkConcurrency (List.length urls - i)).
Proof.
  unfold batch. rewrite <- firstn_map, <- skipn_map.
  unfold jobs. rewrite make_jobs_index, skipn_seq, firstn_seq. reflexivity.
Qed.

Lemma in_index (s : Sched) (x : BulkJob) :
  Inv bulkConcurrency urls race s -> In x (bs_jobs (ui s)) -> (b_index x < List.length urls)%nat.
Proof.
  intros H Hx. apply (in_map b_index) in Hx.
  rewrite (inv_index bulkConcurrency urls race s H) in Hx. apply in_seq in Hx. lia.
Qed.

Lemma index_in (s : Sched) (j : nat) :
  Inv bulkConcurrency urls race s -> (j < List.length urls)%nat ->
  exists x, In x (bs_jobs (ui s)) /\ b_index x = j.
Proof.
  intros H Hj.
  assert (Hin : In j (map b_index (bs_jobs (ui s)))).
  { rewrite (inv_index bulkConcurrency urls race s H). apply in_seq. lia. }
  apply in_map_iff in Hin. destruct Hin as [x [E Hx]]. now exists x.
Qed.

Lemma NoDup_index (s : Sched) : Inv bulkConcurrency urls race s -> NoDup (map b_index (bs_jobs (ui s))).
Proof. intros H. rewrite (inv_index bulkConcurrency urls race s H). apply seq_NoDup. Qed.

Lemma settled_not_running x : settled x = true -> is_running x = false.
Proof. unfold settled, is_completed, is_failed, is_running.
       now destruct (b_status x). Qed.

Lemma queued_not_running x : is_queued x = true -> is_running x = false.
Proof. unfold is_queued, is_running. now destruct (b_status x). Qed.

Lemma running_not_counted x :
  is_running x = true ->
  is_completed x = false /\ is_failed x = false
  /\ words_of x = 0 /\ score_of x = 0.
Proof.
  unfold is_running, is_completed, is_failed, words_of, score_of, is_completed.
  now destruct (b_status x).
Qed.

Lemma queued_not_counted x :
  is_queued x = true ->
  is_completed x = false /\ is_failed x = false.
Proof.
  unfold is_queued, is_completed, is_failed. now destruct (b_status x).
Qed.

Lemma Inv_abort (s : Sched) :
  Inv bulkConcurrency urls race s ->
  Inv bulkConcurrency urls race {| ctl := ctl s; abort := true; ui := ui s; completed := completed s;
         failed := failed s; totalWords := totalWords s;
         totalScore := totalScore s |}.
Proof.
  intros [H1 H2 H3 H4 H5]. split; cbn; auto.
  unfold ctl_ok in *. cbn. destruct (ctl s); auto.
  destruct H3 as [H3 _]. split; [exact H3 | discriminate].
Qed.

Lemma Inv_finish (s : Sched) (i : nat) :
  Inv bulkConcurrency urls race s -> ctl s = AtLoop i ->
  abort s = true \/ (List.length urls <= i)%nat ->
  Inv bulkConcurrency urls race (finish s).
Proof.
  intros H Hc Hi. pose proof (fun x => in_index s x H) as Hlt.
  destruct H as [H1 H2 H3 H4 H5]. split; cbn; auto.
  - unfold ctl_ok in *. rewrite Hc in H3. cbn. split.
    + intros x Hx. destruct (H3 x Hx) as [Ha Hb].
      destruct (Nat.lt_ge_cases (b_index x) i) as [L|L].
      * now apply settled_not_running, Ha.
      * now apply queued_not_running, Hb.
    + intros Ha x Hx. destruct Hi as [Hi|Hi]; [congruence|].
      apply (H3 x Hx).
      specialize (Hlt x Hx). lia.
  - unfold counters_ok in *. cbn. tauto.
Qed.

Lemma Inv_wave_done (s : Sched) (i : nat) :
  Inv bulkConcurrency urls race s -> ctl s = InWave i [] ->
  Inv bulkConcurrency urls race (with_ctl (AtLoop (i + bulkConcurrency)) s).
Proof.
  intros [H1 H2 H3 H4 H5] Hc. split; cbn; auto.
  unfold ctl_ok in *. rewrite Hc in H3. cbn. destruct H3 as [_ H3].
  intros x Hx. destruct (H3 x Hx) as [Ha [Hb Hw]]. split; [|exact Hb].
  intros L. destruct (Nat.lt_ge_cases (b_index x) i) as [L'|L'];
    [now apply Ha|]. apply Hw. lia.
Qed.

Lemma Inv_start (s : Sched) (i : nat) :
  Inv bulkConcurrency urls race s -> ctl s = AtLoop i -> Inv bulkConcurrency urls race (start_batch bulkConcurrency jobs i s).
Proof.
  intros H Hc. pose proof (fun x => in_index s x H) as Hlt.
  destruct H as [H1 H2 H3 H4 H5].
  unfold ctl_ok in H3. rewrite Hc in H3.
  assert (Hp : forall k, In k (map b_index (batch bulkConcurrency jobs i)) <->
                         (i <= k < i + bulkConcurrency)%nat
                         /\ (k < List.length urls)%nat).
  { intros k. rewrite batch_index, in_seq. lia. }
  assert (He : forall k,
             existsb (Nat.eqb k) (map b_index (batch bulkConcurrency jobs i)) = true
             <-> In k (map b_index (batch bulkConcurrency jobs i))).
  { intros k. rewrite existsb_exists. split.
    - intros [y [Hy E]]. apply Nat.eqb_eq in E. now subst.
    - intros Hk. exists k. split; [exact Hk | apply Nat.eqb_refl]. }
  split; unfold start_batch; cbn [ui bs_jobs ctl abort];
    rewrite ?fold_set_running.
  - rewrite map_map. rewrite <- H1. apply map_ext. intros x.
    now destruct (existsb _ _).
  - rewrite map_map. rewrite <- H2. apply map_ext. intros x.
    now destruct (existsb _ _).
  - unfold ctl_ok. cbn [ctl ui bs_jobs start_batch]. rewrite ?fold_set_running.
    split; [intros k Hk; now apply Hp|].
    intros y Hy. apply in_map_iff in Hy. destruct Hy as [x [<- Hx]].
    destruct (H3 x Hx) as [Ha Hb]. specialize (Hlt x Hx).
    destruct (existsb (Nat.eqb (b_index x))
                (map b_index (batch bulkConcurrency jobs i))) eqn:E.
    + apply He, Hp in E. cbn [set_running b_index].
      split; [lia|]. split; [lia|]. intros _.
      assert (E' : existsb (Nat.eqb (b_index x))
                     (map b_index (batch bulkConcurrency jobs i)) = true)
        by (apply He, Hp; lia).
      rewrite E'. reflexivity.
    + assert (N1 : ~ In (b_index x) (map b_index (batch bulkConcurrency jobs i))).
      { intros F. apply He in F. congruence. }
      rewrite Hp in N1. split; [exact Ha|].
      split; [intros L; apply Hb; lia|].
      intros L. exfalso. apply N1. lia.
  - intros y Hy. apply in_map_iff in Hy. destruct Hy as [x [<- Hx]].
    destruct (existsb _ _); [|now apply H4].
    unfold outcome_ok, is_completed, is_failed. cbn. split; discriminate.
  - unfold counters_ok in *.
    cbn [ui bs_jobs completed failed totalWords totalScore bs_completed
         bs_failed bs_totalWords bs_avgScore start_batch].
    rewrite ?fold_set_running. unfold count.
    rewrite !total_ext_in; [exact H5| | | |];
      intros x Hx;
      destruct (existsb (Nat.eqb (b_index x))
                  (map b_index (batch bulkConcurrency jobs i))) eqn:E;
      try reflexivity;
      apply He, Hp in E; destruct (H3 x Hx) as [_ Hb];
      assert (Hq : is_queued x = true) by (apply Hb; lia);
      revert Hq;
      unfold is_queued, words_of, score_of, is_completed, is_failed;
      cbn; now destruct (b_status x).
Qed.

(** The job whose race settles: it is in the list, once, and runs. *)
Lemma settling_job (s : Sched) (i : nat) (pending : list nat) (j : nat) :
  Inv bulkConcurrency urls race s -> ctl s = InWave i pending ->
  existsb (Nat.eqb j) pending = true ->
  (i <= j < i + bulkConcurrency)%nat
  /\ exists x0, In x0 (bs_jobs (ui s)) /\ b_index x0 = j
                /\ is_running x0 = true
                /\ forall g f,
                     total g (update_job j f (bs_jobs (ui s)))
                     = total g (bs_jobs (ui s)) - g x0 + g (f x0).
Proof.
  intros H Hc Hj. pose proof (NoDup_index s H) as Hnd.
  pose proof (index_in s j H) as Hin.
  destruct H as [H1 H2 H3 H4 H5].
  unfold ctl_ok in H3. rewrite Hc in H3. destruct H3 as [Hp H3].
  apply existsb_exists in Hj. destruct Hj as [k [Hk E]].
  apply Nat.eqb_eq in E. subst k. destruct (Hp j Hk) as [Hw Hlt].
  split; [exact Hw|].
  destruct (Hin Hlt) as [x0 [Hx0 E0]]. exists x0.
  split; [exact Hx0|]. split; [exact E0|]. split.
  - destruct (H3 x0 Hx0) as [_ [_ Hr]]. rewrite E0 in Hr.
    specialize (Hr Hw).
    assert (E : existsb (Nat.eqb j) pending = true).
    { apply existsb_exists. exists j. split; [exact Hk | apply Nat.eqb_refl]. }
    now rewrite E in Hr.
  - intros g f. now apply total_update.
Qed.

(** The jobs after a race settled, whatever the new job is, as long
    as it is settled. *)
Lemma settled_jobs (s s' : Sched) (i : nat) (pending : list nat) (j : nat)
    (f : BulkJob -> BulkJob) :
  Inv bulkConcurrency urls race s -> ctl s = InWave i pending ->
  existsb (Nat.eqb j) pending = true ->
  (forall x, b_index (f x) = b_index x) ->
  (forall x, b_url (f x) = b_url x) ->
  (forall x, settled (f x) = true) ->
  bs_jobs (ui s') = update_job j f (bs_jobs (ui s)) ->
  ctl s' = InWave i (filter (fun k => negb (Nat.eqb k j)) pending) ->
  map b_index (bs_jobs (ui s')) = seq 0 (List.length urls)
  /\ map b_url (bs_jobs (ui s')) = urls
  /\ ctl_ok bulkConcurrency urls s'.
Proof.
  intros H Hc Hj Hfi Hfu Hfs EJ EC.
  destruct (settling_job s i pending j H Hc Hj) as [Hw _].
  destruct H as [H1 H2 H3 H4 H5].
  unfold ctl_ok in H3. rewrite Hc in H3. destruct H3 as [Hp H3].
  rewrite EJ. split; [now rewrite update_job_index|].
  split; [now rewrite update_job_url|].
  unfold ctl_ok. rewrite EC, EJ. split.
  - intros k Hk. apply filter_In in Hk. now apply Hp.
  - intros y Hy. apply in_update_job in Hy. destruct Hy as [x [Hx ->]].
    destruct (H3 x Hx) as [Ha [Hb Hr]].
    destruct (Nat.eqb_spec (b_index x) j) as [E|E].
    + rewrite Hfi, E. split; [lia|]. split; [lia|]. intros _.
      assert (E' : existsb (Nat.eqb j)
                     (filter (fun k => negb (Nat.eqb k j)) pending) = false).
      { destruct (existsb (Nat.eqb j)
                    (filter (fun k => negb (Nat.eqb k j)) pending)) eqn:F;
          [|reflexivity].
        apply existsb_exists in F. destruct F as [k [Hk F]].
        apply filter_In in Hk. destruct Hk as [_ Hk].
        apply Nat.eqb_eq in F. subst k. now rewrite Nat.eqb_refl in Hk. }
      rewrite E'. apply Hfs.
    + split; [exact Ha|]. split; [exact Hb|]. intros L. specialize (Hr L).
      assert (E' : existsb (Nat.eqb (b_index x))
                     (filter (fun k => negb (Nat.eqb k j)) pending)
                   = existsb (Nat.eqb (b_index x)) pending).
      { clear -E. induction pending as [|k p IH]; [reflexivity|].
        cbn [filter existsb].
        destruct (Nat.eqb_spec k j) as [->|Ek]; cbn [negb existsb].
        - rewrite IH. destruct (Nat.eqb_spec (b_index x) j); [contradiction|].
          reflexivity.
        - now rewrite IH. }
      now rewrite E'.
Qed.

Lemma Inv_settle (s : Sched) (i : nat) (pending : list nat) (j : nat) :
  Inv bulkConcurrency urls race s -> ctl s = InWave i pending ->
  existsb (Nat.eqb j) pending = true ->
  Inv bulkConcurrency urls race (processJob race j
         (InWave i (filter (fun k => negb (Nat.eqb k j)) pending)) s).
Proof.
  intros H Hc Hj.
  destruct (settling_job s i pending j H Hc Hj)
    as [Hw [x0 [Hx0 [E0 [Hr Ht]]]]].
  destruct (running_not_counted x0 Hr) as [N1 [N2 [N3 N4]]].
  pose proof (count_nonneg is_completed (bs_jobs (ui s))) as Hnn.
  pose proof (inv_outcome bulkConcurrency urls race s H) as H4.
  pose proof (inv_counters bulkConcurrency urls race s H) as H5.
  unfold counters_ok in H5.
  destruct H5 as [C1 [C2 [C3 [C4 [C5 [C6 [C7 C8]]]]]]].
  rewrite <- C1 in Hnn.
  unfold processJob.
  destruct (race j) as [r|message] eqn:R;
    [destruct (success r && (50 <=? score r)) eqn:P|].
  - (* the job is counted as completed *)
    apply andb_true_iff in P. destruct P as [P1 P2]. apply Z.leb_le in P2.
    match goal with
    | |- Inv bulkConcurrency urls race ?t =>
        destruct (settled_jobs s t i pending j (set_completed r) H Hc Hj)
          as [I1 [I2 I3]]; try reflexivity
    end.
    split; [exact I1 | exact I2 | exact I3 | |].
    + intros y Hy. cbn [ui bs_jobs] in Hy. apply in_update_job in Hy.
      destruct Hy as [x [Hx ->]].
      destruct (Nat.eqb_spec (b_index x) j) as [E|E]; [|now apply H4].
      unfold outcome_ok, is_completed, is_failed. cbn. rewrite E, R.
      split; [|discriminate]. intros _. exists r. repeat split; auto.
    + assert (Hpos : (0 <? completed s + 1) = true)
        by (apply Z.ltb_lt; lia).
      unfold counters_ok, count.
      cbn [ui bs_jobs completed failed totalWords totalScore bs_completed
           bs_failed bs_totalWords bs_avgScore].
      rewrite !Ht, Hpos. cbv beta. rewrite N1, N2, N3, N4.
      unfold count in C1, C2. rewrite <- C1, <- C2, <- C3, <- C4.
      unfold words_of, score_of, is_completed, is_failed.
      cbn [set_completed b_status b_wordCount b_score or0].
      repeat split; auto; lia.
  - (* the quality check fails *)
    match goal with
    | |- Inv bulkConcurrency urls race ?t =>
        destruct (settled_jobs s t i pending j
                    (set_failed (reason (Resolved r))) H Hc Hj)
          as [I1 [I2 I3]]; try reflexivity
    end.
    split; [exact I1 | exact I2 | exact I3 | |].
    + intros y Hy. cbn [ui bs_jobs] in Hy. apply in_update_job in Hy.
      destruct Hy as [x [Hx ->]].
      destruct (Nat.eqb_spec (b_index x) j) as [E|E]; [|now apply H4].
      unfold outcome_ok, is_completed, is_failed. cbn. rewrite E, R.
      split; [discriminate|]. intros _. cbn. now split.
    + unfold counters_ok, count.
      cbn [ui bs_jobs completed failed totalWords totalScore bs_completed
           bs_failed bs_totalWords bs_avgScore].
      rewrite !Ht. cbv beta. rewrite N1, N2, N3, N4.
      unfold count in C1, C2. rewrite <- C1, <- C2, <- C3, <- C4.
      unfold words_of, score_of, is_completed, is_failed.
      cbn [set_failed b_status b_wordCount b_score or0].
      repeat split; auto; lia.
  - (* the race is rejected *)
    match goal with
    | |- Inv bulkConcurrency urls race ?t =>
        destruct (settled_jobs s t i pending j (set_failed message) H Hc Hj)
          as [I1 [I2 I3]]; try reflexivity
    end.
    split; [exact I1 | exact I2 | exact I3 | |].
    + intros y Hy. cbn [ui bs_jobs] in Hy. apply in_update_job in Hy.
      destruct Hy as [x [Hx ->]].
      destruct (Nat.eqb_spec (b_index x) j) as [E|E]; [|now apply H4].
      unfold outcome_ok, is_completed, is_failed. cbn. rewrite E, R.
      split; [discriminate|]. intros _. cbn. now split.
    + unfold counters_ok, count.
      cbn [ui bs_jobs completed failed totalWords totalScore bs_completed
           bs_failed bs_totalWords bs_avgScore].
      rewrite !Ht. cbv beta. rewrite N1, N2, N3, N4.
      unfold count in C1, C2. rewrite <- C1, <- C2, <- C3, <- C4.
      unfold words_of, score_of, is_completed, is_failed.
      cbn [set_failed b_status b_wordCount b_score or0].
      repeat split; auto; lia.
Qed.

(** Every step keeps the invariant. *)
Lemma Inv_step (s s' : Sched) (a : Action) :
  Inv bulkConcurrency urls race s -> step s a = Some s' -> Inv bulkConcurrency urls race s'.
Proof.
  intros H. unfold step, sched_step.
  destruct a; destruct (ctl s) as [i|i pending|] eqn:Hc;
    try discriminate;
    try (intros [= <-]; rewrite <- Hc; now apply Inv_abort).
  - destruct (Nat.ltb_spec i (List.length jobs)) as [L|L].
    + destruct (abort s) eqn:Ha; intros [= <-].
      * apply (Inv_finish s i H Hc). now left.
      * now apply Inv_start.
    + intros [= <-]. apply (Inv_finish s i H Hc). right.
      unfold jobs in L. now rewrite make_jobs_length in L.
  - destruct (existsb (Nat.eqb j) pending) eqn:Hj; [|discriminate].
    intros [= <-]. now apply Inv_settle.
  - destruct pending; [|discriminate]. intros [= <-]. now apply Inv_wave_done.
Qed.

Lemma Inv_run (l : list Action) (s s' : Sched) :
  Inv bulkConcurrency urls race s -> sched_run bulkConcurrency jobs race s l = Some s' -> Inv bulkConcurrency urls race s'.
Proof.
  revert s. induction l as [|a l IH]; intros s H; cbn.
  - now intros [= <-].
  - destruct (sched_step bulkConcurrency jobs race s a) as [s1|] eqn:E;
      [|discriminate].
    apply IH. exact (Inv_step s s1 a H E).
Qed.

(** At most [bulkConcurrency] jobs run where the invariant holds, and
    none at the head of the loop or past it. *)
Lemma Inv_running (s : Sched) :
  Inv bulkConcurrency urls race s ->
  (List.length (filter is_running (bs_jobs (ui s))) <= bulkConcurrency)%nat
  /\ (match ctl s with
      | InWave _ _ => True
      | _ => filter is_running (bs_jobs (ui s)) = []
      end).
Proof.
  intros H. pose proof (NoDup_index s H) as Hnd.
  pose proof (inv_ctl bulkConcurrency urls race s H) as H3. unfold ctl_ok in H3.
  assert (Hnone : (forall x, In x (bs_jobs (ui s)) -> is_running x = false) ->
                  filter is_running (bs_jobs (ui s)) = []).
  { generalize (bs_jobs (ui s)). intros l Hl.
    induction l as [|x l IH]; [reflexivity|]. cbn.
    rewrite (Hl x) by now left. apply IH. intros y Hy. apply Hl. now right. }
  destruct (ctl s) as [i|i pending|].
  - assert (E : filter is_running (bs_jobs (ui s)) = []).
    { apply Hnone. intros x Hx. destruct (H3 x Hx) as [Ha Hb].
      destruct (Nat.lt_ge_cases (b_index x) i) as [L|L].
      - now apply settled_not_running, Ha.
      - now apply queued_not_running, Hb. }
    rewrite E. cbn. split; [lia | reflexivity].
  - split; [|exact I]. destruct H3 as [_ H3].
    apply (filter_window is_running _ i bulkConcurrency Hnd).
    intros x Hx Hr. destruct (H3 x Hx) as [Ha [Hb _]].
    destruct (Nat.lt_ge_cases (b_index x) i) as [L|L].
    + apply Ha, settled_not_running in L. congruence.
    + destruct (Nat.lt_ge_cases (b_index x) (i + bulkConcurrency)) as [L'|L'];
        [lia|].
      apply Hb, queued_not_running in L'. congruence.
  - destruct H3 as [H3 _]. rewrite (Hnone H3). cbn. split; [lia | reflexivity].
Qed.

End SchedulerInvariant.

Section Waves.

Context {A : Type}.
Variable n : nat.
Variable l : list A.
Hypothesis n_pos : (1 <= n)%nat.

Lemma waves_from_spec (fuel i : nat) :
  (List.length l - i <= fuel)%nat ->
  List.concat (waves_from n fuel i l) = skipn i l
  /\ Forall (fun c => (1 <= List.length c <= n)%nat) (waves_from n fuel i l).
Proof.
  revert i. induction fuel as [|fuel IH]; intros i Hf; cbn [waves_from].
  - split; [|constructor]. symmetry. apply skipn_all2. lia.
  - destruct (Nat.ltb_spec i (List.length l)) as [L|L].
    + destruct (IH (i + n)%nat) as [IH1 IH2]; [lia|].
      cbn [List.concat]. rewrite IH1. split.
      * rewrite Nat.add_comm, <- skipn_skipn. apply firstn_skipn.
      * constructor; [|exact IH2].
        rewrite length_firstn, length_skipn. lia.
    + split; [|constructor]. symmetry. apply skipn_all2. lia.
Qed.

(** The waves are a partition of the list into consecutive slices of
    at least one and at most [n] entries. *)
Lemma waves_partition :
  List.concat (waves n l) = l
  /\ Forall (fun c => (1 <= List.length c <= n)%nat) (waves n l).
Proof. apply (waves_from_spec (List.length l) 0). lia. Qed.

Lemma waves_from_nth (k fuel i : nat) :
  (List.length l - i <= fuel)%nat ->
  (i + k * n < List.length l)%nat ->
  nth k (waves_from n fuel i l) [] = firstn n (skipn (i + k * n) l).
Proof.
  revert fuel i. induction k as [|k IH]; intros fuel i Hf Hk.
  - destruct fuel as [|fuel]; [lia|]. cbn [waves_from].
    destruct (Nat.ltb_spec i (List.length l)) as [L|L]; [|lia].
    cbn [nth]. f_equal. f_equal. lia.
  - destruct fuel as [|fuel]; [lia|]. cbn [waves_from].
    destruct (Nat.ltb_spec i (List.length l)) as [L|L]; [|lia].
    cbn [nth]. rewrite IH by lia. f_equal. f_equal. lia.
Qed.

(** The wave of rank [k] is the slice at [k * n]. *)
Lemma waves_nth (k : nat) :
  (k * n < List.length l)%nat ->
  nth k (waves n l) [] = firstn n (skipn (k * n) l).
Proof. intros H. apply (waves_from_nth k (List.length l) 0); lia. Qed.

End Waves.

Section Aligned.

Variable bulkConcurrency : nat.
Variable jobs : list BulkJob.
Variable race : nat -> RaceOutcome.

Lemma aligned_step (s s' : Sched) (a : Action) :
  aligned bulkConcurrency jobs s -> sched_step bulkConcurrency jobs race s a = Some s' -> aligned bulkConcurrency jobs s'.
Proof.
  unfold aligned, sched_step.
  destruct a; destruct (ctl s) as [i|i pending|] eqn:Hc; try discriminate;
    try (intros H [= <-]; cbn; exact H).
  - intros H. destruct (Nat.ltb_spec i (List.length jobs)) as [L|L].
    + destruct (abort s); intros [= <-]; cbn; auto.
    + intros [= <-]. exact I.
  - intros H. destruct (existsb (Nat.eqb j) pending); [|discriminate].
    intros [= <-]. unfold processJob.
    destruct (race j) as [r|m]; [destruct (success r && (50 <=? score r))|];
      exact H.
  - intros [[k ->] _]. destruct pending; [|discriminate]. intros [= <-]. cbn.
    exists (S k). cbn. lia.
Qed.

Lemma aligned_run (l : list Action) (s s' : Sched) :
  aligned bulkConcurrency jobs s -> sched_run bulkConcurrency jobs race s l = Some s' -> aligned bulkConcurrency jobs s'.
Proof.
  revert s. induction l as [|a l IH]; intros s H; cbn.
  - now intros [= <-].
  - destruct (sched_step bulkConcurrency jobs race s a) as [s1|] eqn:E;
      [|discriminate].
    apply IH. exact (aligned_step s s1 a H E).
Qed.

End Aligned.


(** C5. Whatever the scheduler and the races have done so far, at most
    [bulkConcurrency] jobs are running; none is running when the
    scheduler is at the head of its loop, where the next wave starts;
    the jobs that run while a wave is in flight are jobs of one wave;
    and, for a concurrency of at least one, the waves are consecutive
    slices of at least one and at most [bulkConcurrency] jobs that make
    up the whole list. *)
Theorem at_most_N_jobs_run :
  forall (bulkConcurrency : nat) (urls : list Js.str) (race : nat -> RaceOutcome)
         (acts : list Action) (s : Sched),
    (1 <= bulkConcurrency)%nat ->
    sched_run bulkConcurrency (make_jobs 0 urls) race
      (sched_init bulkConcurrency (make_jobs 0 urls)) acts = Some s ->
    (List.length (filter is_running (bs_jobs (ui s))) <= bulkConcurrency)%nat
    /\ (forall i, ctl s = AtLoop i -> filter is_running (bs_jobs (ui s)) = [])
    /\ (forall i pending,
          ctl s = InWave i pending ->
          exists k,
            i = (k * bulkConcurrency)%nat
            /\ forall x, In x (bs_jobs (ui s)) -> is_running x = true ->
                 In (b_index x)
                   (map b_index
                      (nth k (waves bulkConcurrency (make_jobs 0 urls)) [])))
    /\ List.concat (waves bulkConcurrency (make_jobs 0 urls)) = make_jobs 0 urls
    /\ Forall (fun c => (1 <= List.length c <= bulkConcurrency)%nat)
         (waves bulkConcurrency (make_jobs 0 urls)).
Proof.
  intros N urls race acts s HN Hrun.
  pose proof (Inv_run N urls race acts _ s (Inv_init N urls race) Hrun) as HI.
  assert (HA : aligned N (make_jobs 0 urls) s).
  { apply (aligned_run N (make_jobs 0 urls) race acts
             (sched_init N (make_jobs 0 urls)) s); [|exact Hrun].
    exists 0%nat. reflexivity. }
  destruct (Inv_running N urls race s HI) as [R1 R2].
  split; [exact R1|]. split.
  { intros i Hc. now rewrite Hc in R2. }
  split.
  { intros i pending Hc. unfold aligned in HA. rewrite Hc in HA.
    destruct HA as [[k ->] Hlt]. exists k. split; [reflexivity|].
    intros x Hx Hr. rewrite waves_nth by assumption.
    change (firstn N (skipn (k * N) (make_jobs 0 urls)))
      with (batch N (make_jobs 0 urls) (k * N)).
    rewrite batch_index. apply in_seq.
    pose proof (in_index N urls race s x HI Hx) as Hlen.
    pose proof (inv_ctl N urls race s HI) as H3. unfold ctl_ok in H3.
    rewrite Hc in H3. destruct H3 as [_ H3].
    destruct (H3 x Hx) as [Ha [Hb _]].
    destruct (Nat.lt_ge_cases (b_index x) (k * N)) as [L|L].
    - apply Ha, settled_not_running in L. congruence.
    - destruct (Nat.lt_ge_cases (b_index x) (k * N + N)) as [L'|L']; [lia|].
      apply Hb, queued_not_running in L'. congruence. }
  now apply waves_partition.
Qed.

Lemma at_most_N_jobs_run_witness :
  let urls := [js "https://a.com/1"; js "https://a.com/2"; js "https://a.com/3"] in
  let race := fun _ : nat => Rejected (js "Job timeout") in
  exists s,
    sched_run 2 (make_jobs 0 urls) race (sched_init 2 (make_jobs 0 urls))
      [Advance; Settle 1] = Some s
    /\ (List.length (filter is_running (bs_jobs (ui s))) <= 2)%nat.
Proof.
  cbv zeta. eexists. split; [reflexivity|].
  refine (proj1 (at_most_N_jobs_run 2
                   [js "https://a.com/1"; js "https://a.com/2"; js "https://a.com/3"]
                   (fun _ : nat => Rejected (js "Job timeout"))
                   [Advance; Settle 1] _ _ _)); [lia | reflexivity].
Defined.


(** The scenario of the specification: concurrency 2, five URLs, every
    run succeeds with score 80 and 4200 words. *)
Example five_jobs_two_at_a_time :
  let urls := [js "https://a.com/1"; js "https://a.com/2"; js "https://a.com/3";
               js "https://a.com/4"; js "https://a.com/5"] in
  let race := fun _ : nat =>
    Resolved {| success := true; score := 80; r_wordCount := 4200;
                error := None |} in
  option_map
    (fun s => (bs_completed (ui s), bs_failed (ui s), bs_avgScore (ui s),
               bs_totalWords (ui s), bs_isRunning (ui s)))
    (sched_run 2 (make_jobs 0 urls) race (sched_init 2 (make_jobs 0 urls))
       [Advance; Settle 1; Settle 0; WaveDone;
        Advance; Settle 2; Settle 3; WaveDone;
        Advance; Settle 4; WaveDone; Advance])
  = Some (5, 0, 80, 21000, false).
Proof. vm_compute. reflexivity. Qed.



(** The example of the specification: three occurrences of one URL,
    one of them after a space, make one job. *)
Example duplicates_make_one_job :
  map b_url
    (make_jobs 0
       (parseBulkUrls
          (js "https://a.com/x" ++ [10%N] ++ js " https://a.com/x" ++ [10%N]
           ++ js "https://a.com/x")))
  = [js "https://a.com/x"].
Proof. vm_compute. reflexivity. Qed.


(* ===================================================================== *)
(** ** The progress component, for every phase *)
(* ===================================================================== *)

Section PhaseTable.

Lemma eqb_sym (a b : Js.str) : Js.eqb a b = Js.eqb b a.
Proof.
  revert b. induction a as [|x a IH]; intros [|y b]; cbn; try reflexivity.
  now rewrite IH, N.eqb_sym.
Qed.

(** A phase is a key of the table, or the lookup fails. *)
Lemma phase_cases (phase : Js.str) :
  In phase (map fst PHASE_CONFIG)
  \/ (lookup_phase PHASE_CONFIG phase = None
      /\ forall k, In k (map fst PHASE_CONFIG) -> Js.eqb phase k = false).
Proof.
  destruct (in_dec (list_eq_dec N.eq_dec) phase (map fst PHASE_CONFIG)) as [H|H];
    [now left | right].
  assert (G : forall k, In k (map fst PHASE_CONFIG) -> Js.eqb k phase = false).
  { intros k Hk. destruct (Js.eqb k phase) eqn:E; [|reflexivity].
    apply eqb_eq in E. subst k. contradiction. }
  split.
  - unfold PHASE_CONFIG in *. cbn [lookup_phase map fst] in *.
    rewrite !G by (cbn [In]; tauto). reflexivity.
  - intros k Hk. rewrite eqb_sym. now apply G.
Qed.

(** A phase that is no key of the table is shown as [idle]. *)
Lemma unknown_phase (phase : Js.str) :
  lookup_phase PHASE_CONFIG phase = None ->
  phaseConfig phase = {| label := js "Ready"; step := 0 |}.
Proof. intros H. unfold phaseConfig. now rewrite H. Qed.


End PhaseTable.

Section Clock.

(** The floor of a rational between two consecutive integers. *)
Lemma Qfloor_between (q : Q) (k : Z) :
  (inject_Z k <= q)%Q -> (q < inject_Z (k + 1))%Q -> Qfloor q = k.
Proof.
  intros H1 H2.
  assert (A : k <= Qfloor q).
  { rewrite <- (Qfloor_Z k). now apply Qfloor_resp_le. }
  assert (B : Qfloor q < k + 1).
  { rewrite Zlt_Qlt. eapply Qle_lt_trans; [apply Qfloor_le | exact H2]. }
  lia.
Qed.

(** The seconds of the clock, on two digits. *)
Lemma two_digits (s : Z) :
  0 <= s < 60 ->
  Js.padStart2 (Js.of_Z s) = [Z.to_N (48 + s / 10); Z.to_N (48 + s mod 10)].
Proof.
  intros H.
  assert (E : In s (map Z.of_nat (seq 0 60))).
  { apply in_map_iff. exists (Z.to_nat s). split; [lia|]. apply in_seq. lia. }
  cbn [seq map] in E. cbn [In] in E.
  repeat (destruct E as [E|E]; [rewrite <- E; vm_compute; reflexivity|]).
  destruct E.
Qed.

End Clock.


(** X2. The clock of the progress component. A time of [m] minutes and [s]
    seconds, with any fraction of a second, is shown as the decimal
    digits of [m], a colon, and [s] on exactly two digits. *)
Theorem clock_shows_minutes_and_two_digit_seconds :
  forall (ms : Q) (m s : Z),
    0 <= m -> 0 <= s < 60 ->
    (inject_Z (60000 * m + 1000 * s) <= ms)%Q ->
    (ms < inject_Z (60000 * m + 1000 * s + 1000))%Q ->
    formatTime ms
    = Js.of_Z m ++ js ":" ++ [Z.to_N (48 + s / 10); Z.to_N (48 + s mod 10)].
Proof.
  intros ms m s Hm Hs H1 H2. unfold formatTime, Math_floor. cbv zeta.
  assert (F : Qfloor (ms / 1000) = 60 * m + s).
  { apply Qfloor_between.
    - apply Qle_shift_div_l; [reflexivity|].
      eapply Qle_trans; [|exact H1].
      change 1000%Q with (inject_Z 1000).
      rewrite <- inject_Z_mult. rewrite <- Zle_Qle. lia.
    - apply Qlt_shift_div_r; [reflexivity|].
      eapply Qlt_le_trans; [exact H2|].
      change 1000%Q with (inject_Z 1000).
      rewrite <- inject_Z_mult. rewrite <- Zle_Qle. lia. }
  rewrite F.
  assert (G : Qfloor (inject_Z (60 * m + s) / 60) = m).
  { apply Qfloor_between.
    - apply Qle_shift_div_l; [reflexivity|].
      change 60%Q with (inject_Z 60).
      rewrite <- inject_Z_mult. rewrite <- Zle_Qle. lia.
    - apply Qlt_shift_div_r; [reflexivity|].
      change 60%Q with (inject_Z 60).
      rewrite <- inject_Z_mult. rewrite <- Zlt_Qlt. lia. }
  rewrite G.
  assert (R : Z.rem (60 * m + s) 60 = s).
  { rewrite Z.rem_mod_nonneg by lia.
    rewrite Z.add_comm, Z.mul_comm, Z.mod_add by lia.
    apply Z.mod_small. lia. }
  rewrite R, two_digits by exact Hs. reflexivity.
Qed.

Lemma clock_witness :
  formatTime (125500 # 1) = js "2:05".
Proof.
  rewrite (clock_shows_minutes_and_two_digit_seconds (125500 # 1) 2 5).
  - reflexivity.
  - lia.
  - lia.
  - vm_compute. discriminate.
  - reflexivity.
Defined.

(** X3. The step indicators of the progress component. There are fifteen;
    the filled ones are the first [step - 1], the fading one follows
    them when the phase is one of the fifteen working phases, and the
    others are grey. In the phases [idle] and [failed], and in a phase
    that is no key of the table, all fifteen are grey. *)
Theorem step_indicators_fill_from_the_left :
  forall phase : Js.str,
    stepIndicators phase
    = repeat Complete (Z.to_nat (currentStep phase - 1))
      ++ (if currentStep phase =? 0 then [] else [Current])
      ++ repeat Pending (Z.to_nat (15 - currentStep phase)).
Proof.
  intros phase. destruct (phase_cases phase) as [H|[H G]].
  - cbn [map fst PHASE_CONFIG In] in H.
    repeat (destruct H as [H|H]; [subst phase; vm_compute; reflexivity|]).
    destruct H.
  - assert (S0 : currentStep phase = 0)
      by (unfold currentStep; now rewrite (unknown_phase _ H)).
    unfold stepIndicators. rewrite S0.
    rewrite (map_ext_in _ (fun _ => Pending)); [vm_compute; reflexivity|].
    intros [k c] Hin. apply filter_In in Hin. destruct Hin as [Hin _].
    cbn [fst snd]. cbv zeta.
    rewrite (G k) by (apply in_map_iff; exists (k, c); auto).
    assert (P : Forall (fun kc : Js.str * ProgressPhaseConfig =>
                          (step (snd kc) <? 0) = false) PHASE_CONFIG)
      by (repeat constructor).
    rewrite Forall_forall in P. specialize (P _ Hin). cbn [snd] in P.
    now rewrite P.
Qed.

(* ===================================================================== *)
(** ** What a run shows while it runs *)
(* ===================================================================== *)

(** The blocks of the engine before the completion emit steady events. *)
Ltac block_built :=
  repeat first
    [ apply Built_await; reflexivity
    | apply Built_updateProgress; reflexivity
    | match goal with |- Built _ (when false _) => apply Built_ret end
    | built_step ].

Section SteadyBlocks.

Variable cfg : Config.
Variable w : World.
Variable silentMode : bool.

Lemma steady_handle_manual_url t :
  Built (steady silentMode) (handle_manual_url cfg w silentMode t).
Proof.
  unfold handle_manual_url. destruct silentMode; cbn [negb]; block_built.
Qed.

Lemma steady_resolve_post t :
  Built (steady silentMode) (resolve_post cfg w silentMode t).
Proof.
  unfold resolve_post. destruct silentMode; cbn [negb]; block_built.
Qed.

Lemma steady_entity_gap_analysis t topic :
  Built (steady silentMode) (entity_gap_analysis cfg w t topic).
Proof. unfold entity_gap_analysis. destruct silentMode; block_built. Qed.

Lemma steady_neuron_analysis t topic :
  Built (steady silentMode) (neuron_analysis cfg w t topic).
Proof. unfold neuron_analysis. destruct silentMode; block_built. Qed.

Lemma steady_on_stage p : Built (steady silentMode) (on_stage p).
Proof. unfold on_stage. destruct silentMode; block_built. Qed.

Lemma steady_content_synthesis t topic links :
  Built (steady silentMode) (content_synthesis w t topic links).
Proof.
  unfold content_synthesis, await_generate.
  repeat first
    [ apply steady_on_stage
    | apply Built_await; reflexivity
    | apply Built_updateProgress; reflexivity
    | built_step ].
Qed.

Lemma steady_publishing t topic postId pres best :
  Built (steady silentMode) (publishing cfg w t topic postId pres best).
Proof. unfold publishing. destruct silentMode; block_built. Qed.

Lemma steady_start_events t :
  Forall (fun e => steady silentMode e = true) (start_events w t).
Proof.
  unfold start_events.
  destruct (option_map jobState (getPage w)) as [[j|]|];
    destruct silentMode; repeat constructor.
Qed.

Lemma steady_linking_events t :
  Forall (fun e => steady silentMode e = true) (linking_events t).
Proof. destruct silentMode; repeat constructor. Qed.

Lemma work_phase_not_idle (p : Js.str) :
  is_work_phase p = true -> Js.eqb p (js "idle") = false.
Proof.
  intros H. destruct (Js.eqb p (js "idle")) eqn:E; [|reflexivity].
  apply eqb_eq in E. subst p. discriminate H.
Qed.

Lemma steady_stopping e : steady silentMode e = true -> stopping silentMode e = true.
Proof.
  destruct e as [| patch | | | | | | | | | |]; cbn [steady stopping];
    try (intros H; exact H).
  induction patch as [|f patch IH]; cbn [forallb]; [trivial|].
  intros H. apply andb_true_iff in H. destruct H as [H1 H2].
  rewrite (IH H2), andb_true_r.
  destruct f as [b|p|u|n|n|n]; try reflexivity; [discriminate H1|].
  now rewrite (work_phase_not_idle p H1).
Qed.

Lemma closes_app (l1 l2 : list Event) :
  Forall (fun e => steady silentMode e = true) l1 ->
  closes silentMode l2 -> closes silentMode (l1 ++ l2).
Proof.
  intros H1 [E [fin [-> [H2 H3]]]]. exists (l1 ++ E), fin.
  split; [now rewrite app_assoc|]. split; [|exact H3].
  apply Forall_app. now split.
Qed.

Lemma closes_failure_events t e : closes silentMode (failure_events w t e).
Proof.
  unfold failure_events. eexists [_; _], _. split; [reflexivity|].
  split; [destruct silentMode; repeat constructor | now left].
Qed.

Lemma closes_completion_events t topic best wc pid :
  closes silentMode (completion_events w t topic best wc pid).
Proof.
  unfold completion_events. cbv zeta. eexists [_; _; _; _; _], _.
  split; [reflexivity|].
  split; [destruct silentMode; repeat constructor | now right].
Qed.

(** The events of a run, after the first: steady, then the closing one. *)
Lemma run_closes t :
  exists l,
    snd (den (executeGodMode cfg w silentMode t))
    = setOptimizationProgress (initial_progress cfg w t) :: l
    /\ closes silentMode l.
Proof.
  rewrite den_executeGodMode. cbv zeta.
  pose proof (Built_Forall (steady_handle_manual_url t)) as H0.
  destruct (guard_error cfg (target_of cfg t)) as [msg|]; cbn [snd].
  - eexists. split; [reflexivity|].
    apply closes_app; [exact H0|].
    exists [], progress_failed. split; [reflexivity|]. split; [constructor | now left].
  - eexists. split; [reflexivity|]. apply closes_app; [exact H0|].
    rewrite den_start_job. cbv zeta. rewrite den_pipeline. cbv zeta.
    set (tg := target_of cfg t).
    pose proof (Built_Forall (steady_resolve_post tg)) as H1.
    destruct (fst (den (resolve_post cfg w silentMode tg)))
      as [[[[postId pres] topic] content]|e]; cbn [fst snd].
    2:{ apply closes_app; [apply steady_start_events|].
        apply closes_app; [exact H1 | apply closes_failure_events]. }
    pose proof (Built_Forall (steady_entity_gap_analysis tg topic)) as H2.
    pose proof (Built_Forall (steady_neuron_analysis tg topic)) as H3.
    pose proof (Built_Forall (steady_content_synthesis tg topic (links_of cfg tg)))
      as H5.
    destruct (fst (den (content_synthesis w tg topic (links_of cfg tg))))
      as [[[best qa] wc]|e]; cbn [fst snd].
    2:{ apply closes_app; [apply steady_start_events|].
        rewrite <- !app_assoc.
        repeat (apply closes_app;
                [first [exact H1 | exact H2 | exact H3 | exact H5
                       | apply steady_linking_events]|]).
        apply closes_failure_events. }
    pose proof (Built_Forall (steady_publishing tg topic postId pres best)) as H6.
    destruct (fst (den (publishing cfg w tg topic postId pres best)))
      as [pid|e]; cbn [fst snd].
    + apply closes_app; [apply steady_start_events|].
      repeat (apply closes_app;
              [first [exact H1 | exact H2 | exact H3 | exact H5 | exact H6
                     | apply steady_linking_events]|]).
      apply closes_completion_events.
    + apply closes_app; [apply steady_start_events|].
      rewrite <- !app_assoc.
      repeat (apply closes_app;
              [first [exact H1 | exact H2 | exact H3 | exact H5 | exact H6
                     | apply steady_linking_events]|]).
      apply closes_failure_events.
Qed.

End SteadyBlocks.

Section SteadySnapshots.

Variable silentMode : bool.

Lemma merge_steady (patch : list ProgressField) (p : Progress) :
  forallb (fun f => match f with
                    | F_isRunning _ => false
                    | F_phase q => is_work_phase q
                    | _ => true
                    end) patch = true ->
  isRunning (merge p patch) = isRunning p
  /\ (is_work_phase (phase p) = true ->
      is_work_phase (phase (merge p patch)) = true).
Proof.
  unfold merge. revert p.
  induction patch as [|f patch IH]; intros p H; cbn [fold_left].
  - now split.
  - cbn [forallb] in H. apply andb_true_iff in H. destruct H as [Hf H].
    destruct (IH (set_field p f) H) as [I1 I2].
    destruct f as [b|q|u|n|n|n]; try discriminate Hf;
      cbn [set_field isRunning phase] in I1, I2; (split; [exact I1|]);
      try exact I2.
    intros _. apply I2. exact Hf.
Qed.

(** Steady events keep the display running, in a working phase. *)
Lemma snapshots_steady (l : list Event) (p : Progress) :
  Forall (fun e => steady silentMode e = true) l ->
  isRunning p = true -> is_work_phase (phase p) = true ->
  Forall (fun q => isRunning q = true /\ is_work_phase (phase q) = true)
    (snapshots p l)
  /\ isRunning (progress_after p l) = true
  /\ is_work_phase (phase (progress_after p l)) = true.
Proof.
  unfold progress_after. intros H. revert p.
  induction H as [|e l He _ IH]; intros p Hr Hp; cbn [snapshots].
  - repeat split; auto.
  - destruct e; cbn [steady] in He; try discriminate He; try (now apply IH).
    destruct (merge_steady patch p He) as [M1 M2].
    destruct (IH (merge p patch)) as [I1 [I2 I3]];
      [now rewrite M1 | now apply M2 |].
    split; [constructor; [split; [now rewrite M1 | now apply M2] | exact I1]|].
    rewrite last_cons. now split.
Qed.

End SteadySnapshots.


(** X5. A silent run never writes to the inputs of the form, and any other
    run only clears them: the manual URL and the keyword override are
    never set to a value. *)
Theorem inputs_are_only_cleared :
  forall cfg w silentMode t flag reqs e,
    In e (snd (run cfg w silentMode t flag reqs)) ->
    is_input_write e = true ->
    silentMode = false
    /\ (e = setManualUrl [] \/ e = setTargetKeywordOverride []).
Proof.
  intros cfg w silentMode t flag reqs e. rewrite run_den.
  destruct (run_closes cfg w silentMode t) as [l [-> [E [fin [-> [HE Hfin]]]]]].
  intros [H|H] He; [subst e; discriminate|].
  apply in_app_or in H. destruct H as [H|[H|[]]].
  - rewrite Forall_forall in HE. specialize (HE _ H).
    destruct e as [| | | |u|u| | | | | |]; try discriminate; cbn in HE;
      apply andb_true_iff in HE; destruct HE as [H1 H2];
      (split; [now destruct silentMode|]);
      destruct u; try discriminate; auto.
  - subst e. destruct Hfin as [-> | ->]; discriminate.
Qed.

Lemma inputs_are_only_cleared_witness :
  let cfg := {| manualUrl := js "https://a.com/x"; targetKeywordOverride := [];
                preserveFeaturedImage := true; preserveCategories := true;
                preserveTags := true; apiKeys := Sample.keys;
                neuronEnabled := false; wpConfig := wpConfig Sample.cfg;
                publishMode := js "draft"; pages := [Sample.page] |} in
  exists e,
    In e (snd (run cfg (Sample.world 2000 300 80) false [] false []))
    /\ is_input_write e = true
    /\ (e = setManualUrl [] \/ e = setTargetKeywordOverride []).
Proof.
  cbv zeta. exists (setManualUrl []).
  assert (H : In (setManualUrl [])
                (snd (run {| manualUrl := js "https://a.com/x";
                             targetKeywordOverride := [];
                             preserveFeaturedImage := true;
                             preserveCategories := true;
                             preserveTags := true; apiKeys := Sample.keys;
                             neuronEnabled := false; wpConfig := wpConfig Sample.cfg;
                             publishMode := js "draft"; pages := [Sample.page] |}
                        (Sample.world 2000 300 80) false [] false [])))
    by (vm_compute; tauto).
  split; [exact H|]. split; [reflexivity|].
  exact (proj2 (inputs_are_only_cleared _ _ _ _ _ _ _ H eq_refl)).
Defined.
(* ===================================================================== *)
(** ** What a request to cancel does to the display *)
(* ===================================================================== *)

Section FullLog.

Context {P : Event -> bool}.

(** From any state, a built computation adds to the log requests of the
    user and events that satisfy [P]. *)
Lemma Built_log {A} {m : M A} :
  Built P m ->
  forall s, exists l,
    log (snd (m s)) = log s ++ l
    /\ Forall (fun e => is_cancel e = true \/ P e = true) l.
Proof.
  induction 1 as [ | | | | | e He | A B m k Hm IHm Hk IHk
                 | A m h Hm IHm Hh IHh ]; intros s;
    try (exists []; rewrite app_nil_r; split; [reflexivity | constructor]; fail).
  - unfold suspend. destruct (requests s) as [|[] rq]; cbn.
    + exists []. rewrite app_nil_r. split; [reflexivity | constructor].
    + exists [cancelCurrentJob]. split; [reflexivity|].
      constructor; [now left | constructor].
    + exists []. rewrite app_nil_r. split; [reflexivity | constructor].
  - exists [e]. split; [reflexivity|]. apply andb_true_iff in He.
    constructor; [right; apply He | constructor].
  - unfold bind. destruct (IHm s) as [l1 [E1 F1]].
    destruct (m s) as [[a|e] s']; cbn [snd] in *.
    + destruct (IHk a s') as [l2 [E2 F2]]. exists (l1 ++ l2).
      rewrite E2, E1, app_assoc. split; [reflexivity|].
      apply Forall_app. now split.
    + exists l1. now split.
  - unfold try_catch. destruct (IHm s) as [l1 [E1 F1]].
    destruct (m s) as [[a|e] s']; cbn [snd] in *.
    + exists l1. now split.
    + destruct (IHh e s') as [l2 [E2 F2]]. exists (l1 ++ l2).
      rewrite E2, E1, app_assoc. split; [reflexivity|].
      apply Forall_app. now split.
Qed.

End FullLog.

Section StoppingBlocks.

Variable cfg : Config.
Variable w : World.
Variable silentMode : bool.

Lemma stopping_of_steady {A} (m : M A) :
  Built (steady silentMode) m -> Built (stopping silentMode) m.
Proof. apply Built_weaken. apply steady_stopping. Qed.

Lemma stopping_failWith e : Built (stopping silentMode) (failWith e).
Proof. unfold failWith. destruct silentMode; built. Qed.

Lemma stopping_completion t topic best wc pid :
  Built (stopping silentMode) (completion w t topic best wc pid).
Proof. unfold completion, updateProgress. destruct silentMode; built. Qed.

Lemma stopping_on_failure t e : Built (stopping silentMode) (on_failure w t e).
Proof. unfold on_failure. destruct silentMode; built. Qed.

Lemma stopping_internal_linking t :
  Built (stopping silentMode) (internal_linking cfg t).
Proof. unfold internal_linking, updateProgress. destruct silentMode; built. Qed.

Lemma stopping_pipeline t : Built (stopping silentMode) (pipeline cfg w silentMode t).
Proof.
  unfold pipeline.
  repeat first
    [ apply stopping_of_steady, steady_resolve_post
    | apply stopping_of_steady, steady_entity_gap_analysis
    | apply stopping_of_steady, steady_neuron_analysis
    | apply stopping_internal_linking
    | apply stopping_of_steady, steady_content_synthesis
    | apply stopping_of_steady, steady_publishing
    | apply stopping_completion
    | built_step ].
Qed.

(** What follows the first progress value in [executeGodMode]. *)
Lemma stopping_after_start t :
  exists rest,
    executeGodMode cfg w silentMode t
    = bind resetCancellationToken
        (fun _ => bind (emit (setOptimizationProgress (initial_progress cfg w t)))
                    (fun _ => rest))
    /\ Built (stopping silentMode) rest.
Proof.
  eexists. split; [reflexivity|].
  apply Built_bind; [apply stopping_of_steady, steady_handle_manual_url|].
  intros a. cbv zeta.
  repeat match goal with
         | |- Built _ (if ?c then _ else _) => destruct c
         end; try apply stopping_failWith.
  unfold start_job.
  repeat first
    [ apply stopping_pipeline
    | apply stopping_on_failure
    | match goal with
      | |- Built _ (emit _) => apply Built_emit; destruct silentMode; reflexivity
      end
    | built_step ].
Qed.

End StoppingBlocks.

Section StoppedDisplay.

Variable silentMode : bool.

Lemma merge_stopping (patch : list ProgressField) (p : Progress) :
  forallb (fun f => match f with
                    | F_isRunning b => negb b
                    | F_phase q => negb (Js.eqb q (js "idle"))
                    | _ => true
                    end) patch = true ->
  isRunning p = false -> isRunning (merge p patch) = false.
Proof.
  unfold merge. revert p.
  induction patch as [|f patch IH]; intros p H Hp; cbn [fold_left].
  - exact Hp.
  - cbn [forallb] in H. apply andb_true_iff in H. destruct H as [Hf H].
    apply IH; [exact H|].
    destruct f as [b|q|u|n|n|n]; cbn [set_field isRunning]; try exact Hp.
    now destruct b.
Qed.

(** Once the display has stopped, no request and no stopping event
    starts it again. *)
Lemma snapshots_stopping (l : list Event) (p : Progress) :
  Forall (fun e => is_cancel e = true \/ stopping silentMode e = true) l ->
  isRunning p = false ->
  Forall (fun q => isRunning q = false) (snapshots p l).
Proof.
  intros H. revert p. induction H as [|e l He _ IH]; intros p Hp; cbn [snapshots].
  - constructor.
  - destruct e as [q|patch| | | | | | | | | |];
      try (now apply IH).
    + destruct He as [He|He]; discriminate He.
    + destruct He as [He|He]; [discriminate He|]. cbn in He.
      pose proof (merge_stopping patch p He Hp) as M.
      constructor; [exact M | now apply IH].
    + constructor; [reflexivity | now apply IH].
Qed.

End StoppedDisplay.

(** The log of a run: the first progress value, then requests of the
    user and events that never set [isRunning]. *)
Lemma full_log_stopping cfg w silentMode t flag reqs :
  exists l,
    full_log cfg w silentMode t flag reqs
    = setOptimizationProgress (initial_progress cfg w t) :: l
    /\ Forall (fun e => is_cancel e = true \/ stopping silentMode e = true) l.
Proof.
  unfold full_log.
  destruct (stopping_after_start cfg w silentMode t) as [rest [E H]].
  rewrite E. unfold bind at 1 2. unfold resetCancellationToken, emit.
  cbn [log requests cancelled app].
  destruct (Built_log H
              {| cancelled := false;
                 log := [setOptimizationProgress (initial_progress cfg w t)];
                 requests := reqs |}) as [l [E1 F1]].
  exists l. split; [exact E1 | exact F1].
Qed.

Lemma nth_error_cut {A} (l : list A) (n : nat) (x : A) :
  nth_error l n = Some x -> l = firstn n l ++ x :: skipn (S n) l.
Proof.
  revert n. induction l as [|y l IH]; intros [|n] H; cbn in *;
    try discriminate.
  - now injection H as ->.
  - f_equal. now apply IH.
Qed.

(** X6. A request to cancel stops the display for good, and nothing else.
    When the user asks to cancel at any suspension of a run, every
    progress snapshot from the request on has [isRunning] cleared, so
    the Cancel button is gone; the run itself goes on and does all that
    it does when nobody asks. *)
Theorem cancel_stops_the_display_not_the_run :
  forall cfg w silentMode t flag reqs n,
    nth_error (full_log cfg w silentMode t flag reqs) n = Some cancelCurrentJob ->
    let evs := full_log cfg w silentMode t flag reqs in
    Forall (fun p => isRunning p = false /\ cancelShown p = false)
      (snapshots (progress_after idle_progress (firstn n evs)) (skipn n evs))
    /\ own evs = snd (run cfg w silentMode t false []).
Proof.
  intros cfg w silentMode t flag reqs n Hn. cbv zeta. split.
  - destruct (full_log_stopping cfg w silentMode t flag reqs) as [l [E F]].
    pose proof (nth_error_cut _ _ _ Hn) as C.
    assert (HS : skipn n (full_log cfg w silentMode t flag reqs)
                = cancelCurrentJob :: skipn (S n) (full_log cfg w silentMode t flag reqs)).
    { rewrite C at 1. rewrite skipn_app, firstn_length_le.
      - rewrite Nat.sub_diag. cbn [skipn].
        rewrite skipn_all2; [reflexivity|].
        rewrite length_firstn. apply Nat.le_min_l.
      - apply Nat.lt_le_incl. apply nth_error_Some. now rewrite Hn. }
    rewrite HS. cbn [snapshots].
    assert (T : Forall (fun e => is_cancel e = true \/ stopping silentMode e = true)
                  (skipn (S n) (full_log cfg w silentMode t flag reqs))).
    { rewrite E. destruct n as [|n]; [rewrite E in Hn; discriminate Hn|].
      cbn [skipn]. rewrite Forall_forall in *. intros e He. apply F.
      revert He. clear. revert n. induction l as [|y l IH]; intros [|n]; cbn; auto.
      intros H. right. now apply (IH n). }
    constructor; [now split|].
    eapply Forall_impl;
      [|apply (snapshots_stopping silentMode _ _ T); reflexivity].
    intros a Ha. now split.
  - transitivity (snd (run cfg w silentMode t flag reqs)); [reflexivity|].
    now rewrite !run_den.
Qed.

Lemma cancel_stops_the_display_witness :
  let evs := full_log Sample.cfg (Sample.world 2000 300 80) false [] false
               [false; true] in
  nth_error evs 9 = Some cancelCurrentJob
  /\ Forall (fun p => isRunning p = false /\ cancelShown p = false)
       (snapshots (progress_after idle_progress (firstn 9 evs)) (skipn 9 evs)).
Proof.
  cbv zeta.
  assert (H : nth_error (full_log Sample.cfg (Sample.world 2000 300 80) false []
                           false [false; true]) 9 = Some cancelCurrentJob)
    by (vm_compute; reflexivity).
  split; [exact H|].
  exact (proj1 (cancel_stops_the_display_not_the_run _ _ _ _ _ _ _ H)).
Defined.

(* ===================================================================== *)
(** ** The remote calls of a run *)
(* ===================================================================== *)

Section Calls.

Variable cfg : Config.
Variable w : World.
Variable silentMode : bool.

Lemma calls_of_app (l1 l2 : list Event) :
  calls_of (l1 ++ l2) = calls_of l1 ++ calls_of l2.
Proof. apply flat_map_app. Qed.

Lemma calls_of_skip (e : Event) (l : list Event) :
  no_call e = true -> calls_of (e :: l) = calls_of l.
Proof. now destruct e. Qed.

Lemma calls_of_none (l : list Event) :
  Forall (fun e => no_call e = true) l -> calls_of l = [].
Proof.
  induction 1 as [|e l He _ IH]; [reflexivity|]. cbn.
  destruct e; try discriminate; exact IH.
Qed.

Lemma calls_handle_manual_url t :
  calls_of (snd (den (handle_manual_url cfg w silentMode t))) = [].
Proof.
  apply calls_of_none.
  apply (Built_Forall_weak (P := is_input_event));
    [|apply Built_handle_manual_url].
  intros e. now destruct e.
Qed.

Lemma calls_start_events t : calls_of (start_events w t) = [].
Proof.
  unfold start_events.
  destruct (option_map jobState (getPage w)) as [[j|]|]; reflexivity.
Qed.

Lemma calls_resolve_post t :
  calls_of (snd (den (resolve_post cfg w silentMode t)))
  = match getPage w with
    | None => []
    | Some _ =>
        wpResolvePostIdEnhanced (site cfg) t
        :: match resolvePost w with
           | Throw _ => []
           | Ok postId =>
               match truthy_num postId with
               | Some pid => [wpGetPostWithImages (site cfg) pid]
               | None => []
               end
           end
    end.
Proof.
  unfold resolve_post, den. run_monad.
  destruct (getPage w) as [page|]; [|reflexivity]. run_monad.
  destruct (resolvePost w) as [postId|e]; [|reflexivity]. run_monad.
  destruct (truthy_num postId) as [pid|] eqn:E; run_monad;
    [destruct (getPost w) as [pd|e]; run_monad|];
    repeat (rewrite ?E;
            match goal with
            | |- context [if ?c then _ else _] => destruct c; run_monad
            end);
    rewrite ?E; reflexivity.
Qed.

Lemma calls_entity_gap_analysis t topic :
  calls_of (snd (den (entity_gap_analysis cfg w t topic)))
  = if Js.truthy (serper (apiKeys cfg)) then [performEntityGapAnalysis topic] else [].
Proof.
  unfold entity_gap_analysis.
  destruct (Js.truthy (serper (apiKeys cfg))); [|reflexivity].
  destruct (entityGap w) as [[]|e]; reflexivity.
Qed.

Lemma calls_neuron_analysis t topic :
  calls_of (snd (den (neuron_analysis cfg w t topic)))
  = if hasNeuronConfig cfg then [getNeuronWriterAnalysis topic] else [].
Proof.
  unfold neuron_analysis.
  destruct (hasNeuronConfig cfg); [|reflexivity].
  destruct (neuronAnalysis w) as [[]|e]; reflexivity.
Qed.

Lemma no_call_stages :
  Built no_call (for_each (fun p => suspend ;; on_stage p) (stages w)).
Proof.
  apply Built_for_each. intros p. unfold on_stage.
  repeat first [ apply Built_updateProgress; reflexivity | built_step ].
Qed.

Lemma calls_content_synthesis t topic links :
  calls_of (snd (den (content_synthesis w t topic links)))
  = [generateEnhanced topic links].
Proof.
  unfold content_synthesis, updateProgress.
  rewrite den_bind by engine_blind.
  rewrite den_emit by reflexivity. cbn [fst snd].
  rewrite den_bind by engine_blind.
  rewrite den_emit by reflexivity. cbn [fst snd].
  rewrite den_bind by engine_blind.
  rewrite den_catch by engine_blind.
  rewrite den_bind by engine_blind.
  rewrite den_await_generate.
  assert (G : calls_of (snd (den (await_generate w topic links)))
              = [generateEnhanced topic links]).
  { unfold await_generate.
    rewrite den_bind by engine_blind.
    rewrite den_emit by reflexivity. cbn [fst snd].
    rewrite den_bind by engine_blind.
    pose proof (Built_Forall no_call_stages) as F.
    apply calls_of_none in F.
    rewrite den_for_each; [| intros; engine_built | apply den_on_stage].
    cbn [fst snd]. rewrite !calls_of_app, F. reflexivity. }
  destruct (generate w) as [raw|e].
  - cbv zeta.
    repeat (rewrite den_bind by engine_blind;
            rewrite den_emit by reflexivity; cbn [fst snd app]).
    rewrite den_ret. cbn [fst snd app].
    match goal with
    | |- context [if ?c then _ else _] => destruct c
    end; cbn [fst snd app]; rewrite ?den_throw, ?den_ret; cbn [fst snd app];
      rewrite ?app_nil_r;
      rewrite !calls_of_skip by reflexivity;
      rewrite ?calls_of_app, G; reflexivity.
  - cbn [fst snd]. rewrite den_throw. cbn [fst snd app]. rewrite ?app_nil_r.
    rewrite !calls_of_skip by reflexivity.
    rewrite ?calls_of_app, G. reflexivity.
Qed.

Lemma calls_publishing t topic postId pres best :
  calls_of (snd (den (publishing cfg w t topic postId pres best)))
  = let pc := publish_call cfg w postId pres best in
    fst pc
    :: match snd pc with
       | Throw _ => []
       | Ok r => [wpUpdatePostMeta (site cfg) (fst r) (c_title best)
                    (metaDescription best) topic]
       end.
Proof.
  rewrite den_publishing. cbv zeta.
  destruct (publish_call cfg w postId pres best) as [c [r|e]]; reflexivity.
Qed.

Lemma calls_failure_events t e : calls_of (failure_events w t e) = [].
Proof. reflexivity. Qed.

Lemma calls_completion_events t topic best wc pid :
  calls_of (completion_events w t topic best wc pid) = [].
Proof. reflexivity. Qed.

Lemma calls_linking_events t : calls_of (linking_events t) = [].
Proof. reflexivity. Qed.

(** The calls of a run are those of the plan. *)
Lemma calls_of_run t :
  calls_of (snd (den (executeGodMode cfg w silentMode t)))
  = match guard_error cfg (target_of cfg t) with
    | Some _ => []
    | None => call_plan cfg w (target_of cfg t)
    end.
Proof.
  rewrite den_executeGodMode. cbv zeta.
  destruct (guard_error cfg (target_of cfg t)) as [msg|]; cbn [snd].
  - cbn [app]. rewrite calls_of_skip by reflexivity.
    now rewrite calls_of_app, calls_handle_manual_url.
  - cbn [app]. rewrite calls_of_skip by reflexivity.
    rewrite calls_of_app, calls_handle_manual_url. cbn [app].
    set (tg := target_of cfg t).
    rewrite den_start_job. cbv zeta. rewrite den_pipeline. cbv zeta.
    pose proof (calls_resolve_post tg) as C1.
    rewrite den_resolve_post_result. unfold call_plan.
    destruct (getPage w) as [page|].
    2:{ cbn [fst snd].
        rewrite !calls_of_app, calls_start_events, C1, calls_failure_events.
        reflexivity. }
    destruct (resolvePost w) as [postId|e].
    2:{ cbn [fst snd].
        rewrite !calls_of_app, calls_start_events, C1, calls_failure_events.
        reflexivity. }
    cbv zeta. set (topic := resolved_topic cfg w page postId).
    pose proof (calls_entity_gap_analysis tg topic) as C2.
    pose proof (calls_neuron_analysis tg topic) as C3.
    pose proof (calls_content_synthesis tg topic (links_of cfg tg)) as C5.
    rewrite den_content_synthesis.
    destruct (generate w) as [raw|e].
    2:{ cbn [fst snd].
        rewrite !calls_of_app, calls_start_events, C1, C2, C3, C5,
          calls_failure_events, calls_linking_events.
        cbn [app]. now rewrite <- ?app_assoc, ?app_nil_r. }
    cbv zeta. destruct (too_short (htmlContent (polished w raw))).
    { cbn [fst snd].
      rewrite !calls_of_app, calls_start_events, C1, C2, C3, C5,
        calls_failure_events, calls_linking_events.
      cbn [app]. now rewrite <- ?app_assoc, ?app_nil_r. }
    rewrite den_publishing.
    destruct (publish_call cfg w postId (preserved cfg w postId) (polished w raw))
      as [c [r|e]]; cbn [fst snd];
      rewrite !calls_of_app, calls_start_events, C1, C2, C3, C5,
        ?calls_failure_events, ?calls_completion_events, ?calls_linking_events;
      cbn [calls_of flat_map app]; rewrite <- ?app_assoc, ?app_nil_r;
      reflexivity.
Qed.

End Calls.

Section Outcome.

Variable cfg : Config.
Variable w : World.
Variable silentMode : bool.



Lemma In_firstn {A} (n : nat) (l : list A) (x : A) :
  In x (firstn n l) -> In x l.
Proof.
  revert l. induction n as [|n IH]; intros [|y l]; cbn; try tauto.
  intros [H|H]; [now left | right; now apply IH].
Qed.

Lemma generate_call_of_plan t topic links :
  In (generateEnhanced topic links) (call_plan cfg w t) ->
  links = links_of cfg t.
Proof.
  unfold call_plan, publish_call.
  destruct (getPage w) as [page|]; [|intros []].
  destruct (resolvePost w) as [postId|e]; cbn [In];
    [|intros [H|[]]; discriminate H].
  cbv zeta.
  destruct (truthy_num postId) as [pid|]; destruct (Js.truthy (serper (apiKeys cfg)));
    destruct (hasNeuronConfig cfg); destruct (generate w) as [raw|e];
    cbn [app In fst snd];
    try destruct (too_short (htmlContent (polished w raw)));
    try destruct (updatePost w); try destruct (createPost w);
    cbn [app In fst snd]; intros H;
    repeat (destruct H as [H|H];
            [first [discriminate H | now injection H as _ <-]|]);
    destruct H.
Qed.

End Outcome.

(** X7. Each collaborator is called at most once in a run, in the order of
    the pipeline: resolve the post, fetch it, the entity gap analysis,
    NeuronWriter, the synthesis, one of update and create, the metadata
    update. Nothing is called when a guard fails or when the target is
    not a page of the store; the post is fetched only when the resolver
    found it, and the two analyses are called only when configured. *)
Theorem collaborators_are_called_once_in_order :
  forall cfg w silentMode t flag reqs,
    let calls := calls_of (snd (run cfg w silentMode t flag reqs)) in
    increasing (map call_rank calls) = true
    /\ (guard_error cfg (target_of cfg t) <> None \/ getPage w = None ->
        calls = [])
    /\ (forall s pid, In (wpGetPostWithImages s pid) calls ->
                      resolvePost w = Ok (Some pid) /\ pid <> 0)
    /\ (forall topic, In (performEntityGapAnalysis topic) calls ->
                      Js.truthy (serper (apiKeys cfg)) = true)
    /\ (forall topic, In (getNeuronWriterAnalysis topic) calls ->
                      hasNeuronConfig cfg = true).
Proof.
  intros cfg w silentMode t flag reqs. cbv zeta.
  rewrite run_den, calls_of_run.
  destruct (guard_error cfg (target_of cfg t)) as [msg|].
  { split; [reflexivity|]. split; [reflexivity|].
    split; [intros ? ? []|split; intros ? []]. }
  unfold call_plan, publish_call.
  destruct (getPage w) as [page|].
  2:{ split; [reflexivity|]. split; [reflexivity|].
      split; [intros ? ? []|split; intros ? []]. }
  destruct (resolvePost w) as [postId|e].
  2:{ split; [reflexivity|]. split; [intros [H|H]; congruence|].
      split; [|split]; intros; cbn [In] in *;
        repeat match goal with
               | H : _ \/ _ |- _ => destruct H as [H|H]
               | H : False |- _ => destruct H
               | H : @eq Call _ _ |- _ => discriminate H
               end. }
  cbv zeta.
  assert (T : forall pid, truthy_num postId = Some pid -> postId = Some pid /\ pid <> 0).
  { intros pid. destruct postId as [z|]; cbn; [|discriminate].
    destruct (Z.eqb_spec z 0); [discriminate|].
    intros H. injection H as <-. now split. }
  destruct (truthy_num postId) as [pid|] eqn:E;
    destruct (Js.truthy (serper (apiKeys cfg)));
    destruct (hasNeuronConfig cfg); destruct (generate w) as [raw|e];
    cbn [app In fst snd map call_rank];
    try destruct (too_short (htmlContent (polished w raw)));
    try destruct (updatePost w); try destruct (createPost w);
    cbn [app In fst snd map call_rank];
    (split; [reflexivity|]);
    (split; [intros [H|H]; congruence|]);
    (split; [|split]); intros; cbn [In] in *;
    repeat match goal with
           | H : _ \/ _ |- _ => destruct H as [H|H]
           | H : False |- _ => destruct H
           | H : @eq Call (wpGetPostWithImages _ _) (wpGetPostWithImages _ _) |- _ =>
               injection H as _ <-
           | H : @eq Call _ _ |- _ => discriminate H
           end;
    try reflexivity;
    destruct (T _ eq_refl) as [-> T2]; now split.
Qed.

(** X8. The link targets handed to the synthesis are at most fifty pages of
    the catalogue, none of them the target itself, each with a title of
    more than five characters. *)
Theorem link_targets_are_bounded :
  forall cfg w silentMode t flag reqs topic links,
    In (generateEnhanced topic links)
       (calls_of (snd (run cfg w silentMode t flag reqs))) ->
    (List.length links <= 50)%nat
    /\ Forall (fun l =>
                 link_url l <> target_of cfg t
                 /\ 5 < Js.len (link_title l)
                 /\ exists p, In p (pages cfg)
                              /\ l = {| link_url := id p; link_title := title p;
                                        link_slug := slug p |}) links.
Proof.
  intros cfg w silentMode t flag reqs topic links.
  rewrite run_den, calls_of_run.
  destruct (guard_error cfg (target_of cfg t)) as [msg|]; [intros []|].
  intros H. apply generate_call_of_plan in H. subst links. unfold links_of.
  split.
  - rewrite length_map. apply firstn_le_length.
  - apply Forall_forall. intros l Hl. apply in_map_iff in Hl.
    destruct Hl as [p [<- Hp]]. apply In_firstn in Hp.
    apply filter_In in Hp. destruct Hp as [Hp Hf].
    apply andb_true_iff in Hf. destruct Hf as [Hf H3].
    apply andb_true_iff in Hf. destruct Hf as [H1 H2].
    cbn [link_url link_title]. split; [|split].
    + intros E. rewrite E, eqb_refl in H1. discriminate H1.
    + now apply Z.ltb_lt.
    + exists p. now split.
Qed.

Lemma link_targets_witness :
  let cfg := {| manualUrl := []; targetKeywordOverride := [];
                preserveFeaturedImage := true; preserveCategories := true;
                preserveTags := true; apiKeys := Sample.keys;
                neuronEnabled := false; wpConfig := wpConfig Sample.cfg;
                publishMode := js "draft";
                pages := [Sample.page;
                          {| id := js "https://a.com/y"; title := js "Another Page";
                             slug := js "y"; healthScore := Some 90;
                             jobState := None |};
                          {| id := js "https://a.com/z"; title := js "Short";
                             slug := js "z"; healthScore := Some 95;
                             jobState := None |}] |} in
  let links := [{| link_url := js "https://a.com/y"; link_title := js "Another Page";
                   link_slug := js "y" |}] in
  In (generateEnhanced (js "Example Page") links)
     (calls_of (snd (run cfg (Sample.world 2000 300 80) false [] false [])))
  /\ (List.length links <= 50)%nat.
Proof.
  cbv zeta.
  match goal with
  | |- ?A /\ _ => assert (H : A) by (vm_compute; tauto)
  end.
  split; [exact H|].
  exact (proj1 (link_targets_are_bounded _ _ _ _ _ _ _ _ H)).
Defined.







(* ===================================================================== *)
(** ** The choice of the target and the final score *)
(* ===================================================================== *)

Section Selection.

Context {A : Type}.
Variable key : A -> Z.

(** The head of the sorted list is the first of the least elements. *)
Lemma sort_by_head (l : list A) :
  match sort_by key l with
  | [] => l = []
  | p :: _ =>
      exists before after,
        l = before ++ p :: after
        /\ (forall q, In q before -> key p < key q)
        /\ (forall q, In q after -> key p <= key q)
  end.
Proof.
  induction l as [|x l IH]; [reflexivity|].
  unfold sort_by in *. cbn [fold_right].
  destruct (fold_right (insert_by key) [] l) as [|p r].
  - subst l. exists [], []. cbn. repeat split; intros q [].
  - destruct IH as [b [a [-> [Hb Ha]]]]. cbn [insert_by].
    destruct (Z.leb_spec (key x) (key p)) as [L|L].
    + exists [], (b ++ p :: a). split; [reflexivity|].
      split; [intros q []|]. intros q Hq. apply in_app_or in Hq.
      destruct Hq as [Hq|[<-|Hq]].
      * specialize (Hb _ Hq). lia.
      * exact L.
      * specialize (Ha _ Hq). lia.
    + exists (x :: b), a. split; [reflexivity|]. split; [|exact Ha].
      intros q [<-|Hq]; [exact L | now apply Hb].
Qed.

End Selection.


(** X12. The choice of the target. A target given by the caller is kept. With
    none, a manual URL that starts with [http] is the target. With
    neither, the target is the page of least health score (none counts
    as 0) among the pages whose job is not running, the first of them in
    the catalogue when several are least; and there is no target when
    every page is running. *)
Theorem weakest_idle_page_is_picked :
  forall cfg : Config,
    (forall t, Js.truthy t = true -> target_of cfg t = t)
    /\ (Js.startsWith (manualUrl cfg) (js "http") = true ->
        target_of cfg [] = manualUrl cfg)
    /\ (Js.startsWith (manualUrl cfg) (js "http") = false ->
        match filter not_running (pages cfg) with
        | [] => target_of cfg [] = []
        | _ :: _ =>
            exists before p after,
              filter not_running (pages cfg) = before ++ p :: after
              /\ target_of cfg [] = id p
              /\ (forall q, In q before ->
                            or0 (healthScore p) < or0 (healthScore q))
              /\ (forall q, In q after ->
                            or0 (healthScore p) <= or0 (healthScore q))
        end).
Proof.
  intros cfg. unfold target_of, manual_target, pick_candidate.
  split; [|split].
  - intros t Ht. rewrite Ht. cbn [negb andb]. now rewrite Ht.
  - intros H. cbn [Js.truthy negb andb]. rewrite H.
    assert (T : Js.truthy (manualUrl cfg) = true).
    { destruct (manualUrl cfg); [discriminate H | reflexivity]. }
    rewrite T. cbn [andb negb]. now rewrite T.
  - intros H. cbn [Js.truthy negb andb]. rewrite H, andb_false_r.
    cbn [Js.truthy negb]. unfold candidates.
    pose proof (sort_by_head (fun p => or0 (healthScore p))
                  (filter not_running (pages cfg))) as S.
    destruct (sort_by (fun p => or0 (healthScore p))
                (filter not_running (pages cfg))) as [|p r].
    + rewrite S. reflexivity.
    + destruct S as [b [a [E [Hb Ha]]]]. rewrite E.
      destruct (b ++ p :: a) eqn:F; [now destruct b|]. rewrite <- F.
      exists b, p, a. repeat split; assumption.
Qed.



(* ===================================================================== *)
(** ** How far a batch has got *)
(* ===================================================================== *)

Section SchedulerProgress.

Variable bulkConcurrency : nat.
Variable urls : list Js.str.
Variable race : nat -> RaceOutcome.

Let jobs := make_jobs 0 urls.
Let step := sched_step bulkConcurrency jobs race.
Let run := sched_run bulkConcurrency jobs race.
Let mu := sched_measure bulkConcurrency (List.length urls).

Lemma jobs_length : List.length jobs = List.length urls.
Proof. apply make_jobs_length. Qed.

Lemma filter_shorter (j : nat) (pending : list nat) :
  existsb (Nat.eqb j) pending = true ->
  (List.length (filter (fun k => negb (Nat.eqb k j)) pending)
   < List.length pending)%nat.
Proof.
  induction pending as [|k p IH]; cbn; [discriminate|].
  intros H. rewrite (Nat.eqb_sym k j).
  destruct (Nat.eqb j k); cbn.
  - pose proof (filter_length_le (fun k0 => negb (Nat.eqb k0 j)) p). lia.
  - cbn in H. specialize (IH H). lia.
Qed.

Lemma batch_length (i : nat) :
  List.length (map b_index (batch bulkConcurrency jobs i))
  = Nat.min bulkConcurrency (List.length urls - i).
Proof. unfold jobs. now rewrite batch_index, length_seq. Qed.

(** An action of the scheduler brings it nearer to the end. *)
Lemma step_decreases (s s' : Sched) (a : Action) :
  (1 <= bulkConcurrency)%nat ->
  step s a = Some s' ->
  if is_own_action a then (mu s' < mu s)%nat else mu s' = mu s.
Proof.
  intros HN. unfold step, sched_step, mu, sched_measure.
  destruct a; cbn [is_own_action].
  - destruct (ctl s) as [i|i p|] eqn:C; try discriminate.
    rewrite jobs_length.
    destruct (Nat.ltb_spec i (List.length urls)) as [L|L].
    + destruct (abort s); intros H; injection H as <-; cbn [ctl finish start_batch].
      * lia.
      * rewrite batch_length. lia.
    + intros H; injection H as <-. cbn [ctl finish]. lia.
  - destruct (ctl s) as [i|i p|] eqn:C; try discriminate.
    destruct (existsb (Nat.eqb j) p) eqn:E; [|discriminate].
    intros H; injection H as <-.
    pose proof (filter_shorter j p E) as F.
    unfold processJob.
    destruct (race j) as [r|m]; [destruct (success r && (50 <=? score r))|];
      cbn [ctl]; lia.
  - destruct (ctl s) as [i|i [|k p]|] eqn:C; try discriminate.
    intros H; injection H as <-. cbn [ctl with_ctl List.length]. lia.
  - intros H; injection H as <-. cbn [ctl]. reflexivity.
Qed.

(** Until the end, the scheduler can act. *)
Lemma step_enabled (s : Sched) :
  ctl s <> Finished ->
  exists a s', is_own_action a = true /\ step s a = Some s'.
Proof.
  intros H.
  destruct (ctl s) as [i|i [|k p]|] eqn:C; [| | |contradiction].
  - exists Advance. unfold step, sched_step. rewrite C.
    destruct (Nat.ltb i (List.length jobs)); [destruct (abort s)|]; eauto.
  - exists WaveDone. unfold step, sched_step. rewrite C. eauto.
  - exists (Settle k). unfold step, sched_step. rewrite C. cbn [existsb].
    rewrite Nat.eqb_refl. cbn [orb]. eauto.
Qed.

Lemma run_app (l1 l2 : list Action) (s : Sched) :
  run s (l1 ++ l2)
  = match run s l1 with
    | Some s1 => run s1 l2
    | None => None
    end.
Proof.
  unfold run. revert s. induction l1 as [|a l1 IH]; intros s; cbn; [reflexivity|].
  destruct (sched_step bulkConcurrency jobs race s a); [apply IH | reflexivity].
Qed.

(** From any state the scheduler can run to its end. *)
Lemma run_to_the_end (s : Sched) :
  (1 <= bulkConcurrency)%nat ->
  exists acts s',
    forallb is_own_action acts = true
    /\ run s acts = Some s' /\ ctl s' = Finished.
Proof.
  intros HN. remember (mu s) as n eqn:En. revert s En.
  induction n as [n IH] using lt_wf_ind. intros s En.
  destruct (ctl s) as [i|i p|] eqn:C.
  3:{ exists [], s. now repeat split. }
  all: destruct (step_enabled s) as [a [s1 [Ha Hs]]]; [rewrite C; discriminate|];
    pose proof (step_decreases s s1 a HN Hs) as D; rewrite Ha in D;
    destruct (IH (mu s1) ltac:(lia) s1 eq_refl) as [acts [s' [H1 [H2 H3]]]];
    exists (a :: acts), s'; cbn [forallb]; rewrite Ha, H1;
    (split; [reflexivity|]); split; [|exact H3];
    unfold run in *; cbn [sched_run]; unfold step in Hs; now rewrite Hs.
Qed.

(** The number of own actions of a run is bounded by the measure. *)
Lemma run_bounded (acts : list Action) (s s' : Sched) :
  (1 <= bulkConcurrency)%nat ->
  run s acts = Some s' ->
  (List.length (filter is_own_action acts) + mu s' <= mu s)%nat.
Proof.
  intros HN. unfold run. revert s.
  induction acts as [|a acts IH]; intros s; cbn [sched_run filter].
  - intros H; injection H as <-. cbn. lia.
  - destruct (sched_step bulkConcurrency jobs race s a) as [s1|] eqn:E;
      [|discriminate].
    intros H. specialize (IH _ H).
    pose proof (step_decreases s s1 a HN E) as D. revert D.
    destruct (is_own_action a); intros D; cbn [List.length]; lia.
Qed.

(** When the scheduler is past its loop, the state says so. *)
Lemma finished_not_running (acts : list Action) (s : Sched) :
  run (sched_init bulkConcurrency jobs) acts = Some s ->
  ctl s = Finished -> bs_isRunning (ui s) = false.
Proof.
  assert (G : forall acts s0 s,
             (ctl s0 = Finished -> bs_isRunning (ui s0) = false) ->
             run s0 acts = Some s ->
             ctl s = Finished -> bs_isRunning (ui s) = false).
  { clear. intros acts. unfold run.
    induction acts as [|a acts IH]; intros s0 s H0; cbn [sched_run].
    - intros H; injection H as <-. exact H0.
    - destruct (sched_step bulkConcurrency jobs race s0 a) as [s1|] eqn:E;
        [|discriminate].
      apply IH. unfold sched_step in E.
      destruct a; destruct (ctl s0) as [i|i p|] eqn:C; try discriminate.
      + destruct (Nat.ltb i (List.length jobs)); [destruct (abort s0)|];
          injection E as <-; cbn; try reflexivity; discriminate.
      + destruct (existsb (Nat.eqb j) p); [|discriminate].
        injection E as <-. unfold processJob.
        destruct (race j) as [r|m]; [destruct (success r && (50 <=? score r))|];
          cbn; discriminate.
      + destruct p; [|discriminate]. injection E as <-. cbn. discriminate.
      + injection E as <-. cbn. discriminate.
      + injection E as <-. cbn. discriminate.
      + injection E as <-. cbn. intros _. now apply H0. }
  intros H.
  apply (G acts (sched_init bulkConcurrency jobs) s); [cbn; discriminate | exact H].
Qed.

(** With a concurrency of zero the loop turns without end. *)
Lemma zero_concurrency_loops (acts : list Action) (s0 s : Sched) :
  bulkConcurrency = 0%nat -> urls <> [] ->
  forallb is_own_action acts = true ->
  (ctl s0 = AtLoop 0 \/ ctl s0 = InWave 0 []) ->
  abort s0 = false ->
  run s0 acts = Some s ->
  (ctl s = AtLoop 0 \/ ctl s = InWave 0 []) /\ abort s = false /\ ui s = ui s0.
Proof.
  intros HN Hu. unfold run. revert s0.
  induction acts as [|a acts IH]; intros s0 Ha Hc Hab; cbn [sched_run].
  - intros H; injection H as <-. now repeat split.
  - cbn [forallb] in Ha. apply andb_true_iff in Ha. destruct Ha as [Ha1 Ha2].
    destruct (sched_step bulkConcurrency jobs race s0 a) as [s1|] eqn:E;
      [|discriminate].
    intros H.
    assert (K : (ctl s1 = AtLoop 0 \/ ctl s1 = InWave 0 [])
                /\ abort s1 = false /\ ui s1 = ui s0).
    { unfold sched_step in E.
      destruct a; try discriminate Ha1; destruct Hc as [C|C]; rewrite C in E;
        cbn [existsb] in E; cbv beta iota in E; try discriminate E.
      - rewrite jobs_length in E.
        destruct (Nat.ltb_spec 0 (List.length urls)) as [L|L].
        + rewrite Hab in E. injection E as <-. unfold start_batch, batch.
          rewrite HN. cbn [firstn map fold_left ctl abort ui].
          split; [now right|]. split; [exact Hab|].
          now destruct (ui s0).
        + destruct urls; [contradiction | cbn in L; lia].
      - injection E as <-. rewrite HN. cbn. split; [now left|]. now split. }
    destruct K as [K1 [K2 K3]].
    destruct (IH s1 Ha2 K1 K2 H) as [I1 [I2 I3]].
    split; [exact I1|]. split; [exact I2|]. now rewrite I3.
Qed.

End SchedulerProgress.

Section JobsForward.

Variable bulkConcurrency : nat.
Variable urls : list Js.str.
Variable race : nat -> RaceOutcome.

Lemma forward_refl (l : list BulkJob) : Forall2 forward l l.
Proof.
  induction l as [|x l IH]; constructor; [|exact IH].
  unfold forward. repeat split; lia.
Qed.

Lemma settled_rank (x : BulkJob) : settled x = true <-> status_rank x = 2.
Proof.
  unfold settled, is_completed, is_failed, status_rank.
  destruct (b_status x); cbn; split; intros H; try reflexivity; discriminate H.
Qed.

Lemma forward_trans (l1 l2 l3 : list BulkJob) :
  Forall2 forward l1 l2 -> Forall2 forward l2 l3 -> Forall2 forward l1 l3.
Proof.
  intros H. revert l3. induction H as [|x y l1 l2 Hxy _ IH]; intros l3 H3.
  - inversion H3. constructor.
  - inversion H3 as [|y' z l2' l3' Hyz H3']; subst. constructor; [|now apply IH].
    destruct Hxy as [A1 [A2 [A3 A4]]]. destruct Hyz as [B1 [B2 [B3 B4]]].
    unfold forward. split; [congruence|]. split; [congruence|].
    split; [lia|]. intros Hs. rewrite B4; [now apply A4|].
    rewrite (A4 Hs). exact Hs.
Qed.

Lemma forward_map (g : BulkJob -> BulkJob) (l : list BulkJob) :
  (forall x, In x l -> forward x (g x)) -> Forall2 forward l (map g l).
Proof.
  induction l as [|x l IH]; intros H; cbn; constructor.
  - apply H. now left.
  - apply IH. intros y Hy. apply H. now right.
Qed.

Lemma forward_step (s s' : Sched) (a : Action) :
  Inv bulkConcurrency urls race s ->
  sched_step bulkConcurrency (make_jobs 0 urls) race s a = Some s' ->
  Forall2 forward (bs_jobs (ui s)) (bs_jobs (ui s')).
Proof.
  intros HI. pose proof (inv_ctl _ _ _ _ HI) as HC. unfold ctl_ok in HC.
  unfold sched_step.
  destruct a; destruct (ctl s) as [i|i p|] eqn:C; try discriminate.
  - destruct (Nat.ltb i (List.length (make_jobs 0 urls)));
      [destruct (abort s)|]; intros H; injection H as <-;
      cbn [ui bs_jobs finish start_batch]; try apply forward_refl.
    rewrite fold_set_running. apply forward_map. intros x Hx.
    destruct (existsb (Nat.eqb (b_index x))
                (map b_index (batch bulkConcurrency (make_jobs 0 urls) i))) eqn:E;
      [|unfold forward; repeat split; lia].
    apply existsb_exists in E. destruct E as [k [Hk Ek]].
    apply Nat.eqb_eq in Ek. subst k. rewrite batch_index in Hk.
    apply in_seq in Hk. destruct (HC x Hx) as [_ Hq].
    assert (Q : is_queued x = true) by (apply Hq; lia).
    unfold is_queued in Q. unfold forward, status_rank, settled, is_completed,
      is_failed. cbn. destruct (b_status x); try discriminate Q.
    repeat split; [lia | discriminate].
  - destruct (existsb (Nat.eqb j) p) eqn:E; [|discriminate].
    intros H; injection H as <-. destruct HC as [HP HJ].
    assert (R : forall f, (forall x, b_index (f x) = b_index x) ->
                  (forall x, b_url (f x) = b_url x) ->
                  (forall x, status_rank (f x) = 2) ->
                  Forall2 forward (bs_jobs (ui s))
                    (update_job j f (bs_jobs (ui s)))).
    { intros f F1 F2 F3. unfold update_job. apply forward_map. intros x Hx.
      destruct (Nat.eqb_spec (b_index x) j) as [Ej|Ej];
        [|unfold forward; repeat split; lia].
      unfold forward. rewrite F1, F2, F3. split; [reflexivity|].
      split; [reflexivity|].
      assert (Hrun : is_running x = true).
      { apply existsb_exists in E. destruct E as [k [Hk Ek]].
        apply Nat.eqb_eq in Ek. subst k. destruct (HP _ Hk) as [W _].
        destruct (HJ x Hx) as [_ [_ H3]]. rewrite Ej in H3.
        specialize (H3 W).
        assert (X : existsb (Nat.eqb j) p = true).
        { apply existsb_exists. exists j. split; [exact Hk | apply Nat.eqb_refl]. }
        now rewrite X in H3. }
      unfold is_running in Hrun. unfold status_rank, settled, is_completed,
        is_failed. destruct (b_status x); try discriminate Hrun.
      split; [lia | discriminate]. }
    unfold processJob.
    destruct (race j) as [r|m]; [destruct (success r && (50 <=? score r))|];
      cbn [ui bs_jobs]; apply R; intros x; reflexivity.
  - destruct p; [|discriminate]. intros H; injection H as <-.
    cbn. apply forward_refl.
  - intros H; injection H as <-. cbn. apply forward_refl.
  - intros H; injection H as <-. cbn. apply forward_refl.
  - intros H; injection H as <-. cbn. apply forward_refl.
Qed.

Lemma forward_run (acts : list Action) (s s' : Sched) :
  Inv bulkConcurrency urls race s ->
  sched_run bulkConcurrency (make_jobs 0 urls) race s acts = Some s' ->
  Forall2 forward (bs_jobs (ui s)) (bs_jobs (ui s')).
Proof.
  revert s. induction acts as [|a acts IH]; intros s HI; cbn [sched_run].
  - intros H; injection H as <-. apply forward_refl.
  - destruct (sched_step bulkConcurrency (make_jobs 0 urls) race s a) as [s1|] eqn:E;
      [|discriminate].
    intros H. eapply forward_trans; [exact (forward_step _ _ _ HI E)|].
    apply IH; [|exact H]. exact (Inv_step _ _ _ _ _ _ HI E).
Qed.

Lemma count_le_length (p q : BulkJob -> bool) (l : list BulkJob) :
  (forall x, p x = true -> q x = false) ->
  0 <= count p l /\ 0 <= count q l
  /\ count p l + count q l <= Z.of_nat (List.length l).
Proof.
  intros D. unfold count, total.
  induction l as [|x l IH]; cbn [map fold_right List.length]; [lia|].
  specialize (D x). revert D. destruct (p x); destruct (q x); intros D;
    try (specialize (D eq_refl); discriminate D); lia.
Qed.

Lemma count_zero (p : BulkJob -> bool) (l : list BulkJob) :
  count p l = 0 -> forall x, In x l -> p x = false.
Proof.
  unfold count, total. induction l as [|y l IH]; cbn [map fold_right];
    intros H x Hx; [destruct Hx|].
  pose proof (count_nonneg p l) as N. unfold count, total in N.
  destruct (p y) eqn:E; [lia|].
  destruct Hx as [<-|Hx]; [exact E | apply IH; [lia | exact Hx]].
Qed.

Lemma completed_scores (l : list BulkJob) :
  (forall x, In x l -> outcome_ok race x) ->
  50 * count is_completed l <= total score_of l.
Proof.
  unfold count, total. induction l as [|x l IH]; intros H;
    cbn [map fold_right]; [lia|].
  assert (IH' := IH (fun y Hy => H y (or_intror Hy))).
  destruct (H x (or_introl eq_refl)) as [H1 _].
  change (score_of x) with (if is_completed x then or0 (b_score x) else 0).
  revert H1. destruct (is_completed x); intros H1; [|lia].
  destruct (H1 eq_refl) as [r [_ [_ [Hs [Hb _]]]]]. rewrite Hb. cbn [or0]. lia.
Qed.

Lemma average_at_least (ts c k : Z) :
  0 < c -> k * c <= ts -> k <= average ts c.
Proof.
  intros Hc H. unfold average, Math_round.
  rewrite <- (Qfloor_Z k). apply Qfloor_resp_le.
  apply Qle_trans with (inject_Z ts / inject_Z c)%Q.
  - apply Qle_shift_div_l.
    + change 0%Q with (inject_Z 0). now rewrite <- Zlt_Qlt.
    + rewrite <- inject_Z_mult. now rewrite <- Zle_Qle.
  - rewrite <- (Qplus_0_r (inject_Z ts / inject_Z c)) at 1.
    apply Qplus_le_r. discriminate.
Qed.

End JobsForward.

(** X14. The bulk scheduler always finishes. With a concurrency of at least
    one, a batch of [n] jobs takes at most [3 n + 1] actions of the
    scheduler, however the races settle and whether or not the abort
    flag is raised; and from wherever it has got, it can run on to the
    end, where the state no longer says running. *)
Theorem bulk_run_always_finishes :
  forall (bulkConcurrency : nat) (urls : list Js.str) (race : nat -> RaceOutcome)
         (acts : list Action) (s : Sched),
    (1 <= bulkConcurrency)%nat ->
    sched_run bulkConcurrency (make_jobs 0 urls) race
      (sched_init bulkConcurrency (make_jobs 0 urls)) acts = Some s ->
    (List.length (filter is_own_action acts) <= 3 * List.length urls + 1)%nat
    /\ exists more s',
         forallb is_own_action more = true
         /\ sched_run bulkConcurrency (make_jobs 0 urls) race s more = Some s'
         /\ ctl s' = Finished
         /\ bs_isRunning (ui s') = false.
Proof.
  intros N urls race acts s HN H. split.
  - pose proof (run_bounded N urls race acts _ _ HN H) as B.
    unfold sched_measure in B at 2. cbn [ctl sched_init] in B. lia.
  - destruct (run_to_the_end N urls race s HN) as [more [s' [H1 [H2 H3]]]].
    exists more, s'. split; [exact H1|]. split; [exact H2|]. split; [exact H3|].
    apply (finished_not_running N urls race (acts ++ more)); [|exact H3].
    rewrite run_app, H. exact H2.
Qed.

Lemma bulk_run_finishes_witness :
  let urls := [js "https://a.com/1"; js "https://a.com/2"; js "https://a.com/3"] in
  let race := fun _ : nat => Rejected (js "Job timeout") in
  exists s,
    sched_run 2 (make_jobs 0 urls) race (sched_init 2 (make_jobs 0 urls))
      [Advance; Settle 1] = Some s
    /\ exists more s',
         sched_run 2 (make_jobs 0 urls) race s more = Some s'
         /\ ctl s' = Finished.
Proof.
  cbv zeta. eexists. split; [reflexivity|].
  destruct (bulk_run_always_finishes 2
              [js "https://a.com/1"; js "https://a.com/2"; js "https://a.com/3"]
              (fun _ : nat => Rejected (js "Job timeout"))
              [Advance; Settle 1] _ ltac:(lia) eq_refl)
    as [_ [more [s' [_ [H2 [H3 _]]]]]].
  exists more, s'. split; [exact H2 | exact H3].
Defined.

(** X15. With a concurrency of zero the loop of the scheduler never ends:
    unless the abort flag is raised, a batch with at least one job never
    gets past the loop and never starts a job, and the scheduler can go
    round the loop any number of times. *)
Theorem zero_concurrency_never_finishes :
  forall (urls : list Js.str) (race : nat -> RaceOutcome),
    urls <> [] ->
    (forall acts s,
        forallb is_own_action acts = true ->
        sched_run 0 (make_jobs 0 urls) race (sched_init 0 (make_jobs 0 urls)) acts
        = Some s ->
        ctl s <> Finished
        /\ bs_isRunning (ui s) = true
        /\ bs_jobs (ui s) = make_jobs 0 urls)
    /\ (forall k,
           exists s,
             sched_run 0 (make_jobs 0 urls) race (sched_init 0 (make_jobs 0 urls))
               (List.concat (repeat [Advance; WaveDone] k)) = Some s).
Proof.
  intros urls race Hu. split.
  - intros acts s Ha H.
    destruct (zero_concurrency_loops 0 urls race acts
                (sched_init 0 (make_jobs 0 urls)) s eq_refl Hu Ha
                (or_introl eq_refl) eq_refl H) as [H1 [_ H3]].
    rewrite H3. cbn. split; [|now split].
    destruct H1 as [-> | ->]; discriminate.
  - intros k.
    assert (G : forall s0, ctl s0 = AtLoop 0 -> abort s0 = false ->
                  exists s, sched_run 0 (make_jobs 0 urls) race s0
                              (List.concat (repeat [Advance; WaveDone] k)) = Some s).
    { induction k as [|k IH]; intros s0 C A; cbn [repeat List.concat app sched_run].
      - now exists s0.
      - unfold sched_step at 1. rewrite C, A.
        destruct (Nat.ltb_spec 0 (List.length (make_jobs 0 urls))) as [L|L].
        + cbn [batch firstn map start_batch sched_step ctl].
          apply IH; [reflexivity | exact A].
        + rewrite make_jobs_length in L. destruct urls; [contradiction|].
          cbn in L. lia. }
    apply G; reflexivity.
Qed.

Lemma zero_concurrency_witness :
  let urls := [js "https://a.com/1"] in
  let race := fun _ : nat => Rejected (js "Job timeout") in
  exists s,
    sched_run 0 (make_jobs 0 urls) race (sched_init 0 (make_jobs 0 urls))
      [Advance; WaveDone; Advance] = Some s
    /\ ctl s <> Finished.
Proof.
  cbv zeta. eexists. split; [reflexivity|].
  assert (U : [js "https://a.com/1"] <> []) by discriminate.
  exact (proj1 (proj1 (zero_concurrency_never_finishes [js "https://a.com/1"]
                         (fun _ : nat => Rejected (js "Job timeout")) U)
                  [Advance; WaveDone; Advance] _ eq_refl eq_refl)).
Defined.

(** X16. A job of a batch only moves forward: from queued to running to
    completed or failed. Between any two points of a batch every job
    keeps its place and its URL, never goes back to an earlier status,
    and once it is completed or failed it is never changed again. *)
Theorem jobs_only_move_forward :
  forall (bulkConcurrency : nat) (urls : list Js.str) (race : nat -> RaceOutcome)
         (acts more : list Action) (s s' : Sched),
    sched_run bulkConcurrency (make_jobs 0 urls) race
      (sched_init bulkConcurrency (make_jobs 0 urls)) acts = Some s ->
    sched_run bulkConcurrency (make_jobs 0 urls) race s more = Some s' ->
    Forall2 (fun x y =>
               b_index y = b_index x /\ b_url y = b_url x
               /\ status_rank x <= status_rank y
               /\ (settled x = true -> y = x))
      (bs_jobs (ui s)) (bs_jobs (ui s')).
Proof.
  intros N urls race acts more s s' H1 H2.
  apply (forward_run N urls race more s s'); [|exact H2].
  exact (Inv_run N urls race acts _ s (Inv_init N urls race) H1).
Qed.

Lemma jobs_only_move_forward_witness :
  let urls := [js "https://a.com/1"; js "https://a.com/2"] in
  let race := fun _ : nat => Rejected (js "Job timeout") in
  exists s s',
    sched_run 1 (make_jobs 0 urls) race (sched_init 1 (make_jobs 0 urls))
      [Advance; Settle 0] = Some s
    /\ sched_run 1 (make_jobs 0 urls) race s [WaveDone; Advance] = Some s'
    /\ map b_status (bs_jobs (ui s)) = [Failed; Queued]
    /\ map b_status (bs_jobs (ui s')) = [Failed; Running]
    /\ Forall2 (fun x y => status_rank x <= status_rank y)
         (bs_jobs (ui s)) (bs_jobs (ui s')).
Proof.
  cbv zeta. eexists. eexists. split; [reflexivity|]. split; [reflexivity|].
  split; [reflexivity|]. split; [reflexivity|].
  eapply Forall2_impl;
    [|exact (jobs_only_move_forward 1 [js "https://a.com/1"; js "https://a.com/2"]
               (fun _ : nat => Rejected (js "Job timeout"))
               [Advance; Settle 0] [WaveDone; Advance] _ _ eq_refl eq_refl)].
  intros x y H. exact (proj1 (proj2 (proj2 H))).
Defined.

(** X17. The aggregates of a batch, at every point. The numbers of completed
    and failed jobs are not negative and together do not exceed the
    number of jobs; the average score is at least 50 as soon as one job
    is completed; and while none is, the average score and the total of
    words are 0. *)
Theorem batch_aggregates_are_sound :
  forall (bulkConcurrency : nat) (urls : list Js.str) (race : nat -> RaceOutcome)
         (acts : list Action) (s : Sched),
    sched_run bulkConcurrency (make_jobs 0 urls) race
      (sched_init bulkConcurrency (make_jobs 0 urls)) acts = Some s ->
    0 <= bs_completed (ui s) /\ 0 <= bs_failed (ui s)
    /\ bs_completed (ui s) + bs_failed (ui s) <= Z.of_nat (List.length urls)
    /\ (0 < bs_completed (ui s) -> 50 <= bs_avgScore (ui s))
    /\ (bs_completed (ui s) = 0 ->
        bs_avgScore (ui s) = 0 /\ bs_totalWords (ui s) = 0).
Proof.
  intros N urls race acts s H.
  pose proof (Inv_run N urls race acts _ s (Inv_init N urls race) H) as HI.
  pose proof (inv_counters N urls race s HI) as HC. unfold counters_ok in HC.
  destruct HC as [C1 [C2 [C3 [C4 [C5 [C6 [C7 C8]]]]]]].
  rewrite C5, C6, C7, C8, C1, C2, C3, C4.
  assert (D : forall x, is_completed x = true -> is_failed x = false).
  { intros x. unfold is_completed, is_failed. now destruct (b_status x). }
  destruct (count_le_length is_completed is_failed (bs_jobs (ui s)) D)
    as [L1 [L2 L3]].
  assert (Len : List.length (bs_jobs (ui s)) = List.length urls).
  { rewrite <- (inv_url N urls race s HI). now rewrite length_map. }
  rewrite Len in L3.
  split; [exact L1|]. split; [exact L2|]. split; [exact L3|]. split.
  - intros P. destruct (Z.ltb_spec 0 (count is_completed (bs_jobs (ui s))));
      [|lia].
    apply average_at_least; [exact P|].
    apply (completed_scores race). exact (inv_outcome N urls race s HI).
  - intros Z0. rewrite Z0. cbn. split; [reflexivity|].
    apply total_zero. intros x Hx. unfold words_of.
    now rewrite (count_zero _ _ Z0 x Hx).
Qed.

Lemma batch_aggregates_witness :
  let urls := [js "https://a.com/1"; js "https://a.com/2"] in
  let race := fun j : nat =>
    Resolved {| success := true; score := if Nat.eqb j 0 then 80 else 40;
                r_wordCount := 4200; error := None |} in
  exists s,
    sched_run 2 (make_jobs 0 urls) race (sched_init 2 (make_jobs 0 urls))
      [Advance; Settle 1; Settle 0] = Some s
    /\ bs_completed (ui s) = 1 /\ bs_failed (ui s) = 1
    /\ 50 <= bs_avgScore (ui s).
Proof.
  cbv zeta. eexists. split; [reflexivity|].
  split; [reflexivity|]. split; [reflexivity|].
  apply (batch_aggregates_are_sound 2 [js "https://a.com/1"; js "https://a.com/2"]
           (fun j : nat =>
              Resolved {| success := true; score := if Nat.eqb j 0 then 80 else 40;
                          r_wordCount := 4200; error := None |})
           [Advance; Settle 1; Settle 0] _ eq_refl).
  reflexivity.
Defined.

(* ===================================================================== *)
(** ** Lists of URLs as text *)
(* ===================================================================== *)

Section BulkRoundTrip.

Variable sep : N -> bool.

Lemma split_go_piece (u rest cur : Js.str) (b : bool) :
  Forall (fun c => sep c = false) u -> u <> [] ->
  Js.split_go sep (u ++ rest) cur b = Js.split_go sep rest (rev u ++ cur) false.
Proof.
  intros H. revert cur b. induction H as [|c u Hc Hu IH]; intros cur b Hn;
    [contradiction|].
  cbn [app Js.split_go]. rewrite Hc.
  destruct u as [|d u].
  - cbn. reflexivity.
  - rewrite IH by discriminate. cbn [rev]. now rewrite <- !app_assoc.
Qed.

Lemma split_go_join (c : N) (urls : list Js.str) (b : bool) :
  sep c = true ->
  Forall (fun u => Forall (fun x => sep x = false) u /\ u <> []) urls ->
  urls <> [] ->
  Js.split_go sep (join c urls) [] b = urls.
Proof.
  intros Hc H. revert b. induction H as [|u urls [Hu Hn] _ IH]; intros b Hne;
    [contradiction|].
  destruct urls as [|v urls].
  - cbn [join]. rewrite <- (app_nil_r u) at 1.
    rewrite split_go_piece by assumption. cbn [Js.split_go].
    now rewrite app_nil_r, rev_involutive.
  - change (join c (u :: v :: urls)) with (u ++ c :: join c (v :: urls)).
    rewrite split_go_piece by assumption. cbn [Js.split_go]. rewrite Hc.
    rewrite app_nil_r, rev_involutive. f_equal. apply IH. discriminate.
Qed.

End BulkRoundTrip.

Lemma filter_all {A} (f : A -> bool) (l : list A) :
  Forall (fun x => f x = true) l -> filter f l = l.
Proof.
  induction 1 as [|x l Hx _ IH]; cbn; [reflexivity|]. now rewrite Hx, IH.
Qed.

Lemma filter_indexed_nodup (p s : list Js.str) :
  NoDup (p ++ s) ->
  filter_indexed (first_at (p ++ s)) (List.length p) s = s.
Proof.
  revert p. induction s as [|u s IH]; intros p H; cbn [filter_indexed];
    [reflexivity|].
  assert (F : first_at (p ++ u :: s) u (List.length p) = true).
  { apply first_at_app. apply NoDup_remove_2 in H. intros Hin. apply H.
    apply in_or_app. now left. }
  rewrite F. f_equal.
  specialize (IH (p ++ [u])). rewrite <- app_assoc in IH. cbn [app] in IH.
  rewrite length_app in IH. cbn [List.length] in IH.
  rewrite Nat.add_1_r in IH. now apply IH.
Qed.

Lemma is_bulk_url_clean (u : Js.str) :
  is_bulk_url u = true ->
  Js.startsWith u (js "http") = true
  /\ Forall (fun x => is_bulk_separator x = false) u /\ u <> [].
Proof.
  unfold is_bulk_url. intros H. apply andb_true_iff in H. destruct H as [H1 H2].
  split; [exact H1|]. split.
  - rewrite forallb_forall in H2. apply Forall_forall. intros x Hx.
    specialize (H2 x Hx). now destruct (is_bulk_separator x).
  - intros ->. discriminate H1.
Qed.

Lemma parse_join (urls : list Js.str) :
  Forall (fun u => is_bulk_url u = true) urls -> NoDup urls ->
  parseBulkUrls (join 10 urls) = urls.
Proof.
  intros H Hd. unfold parseBulkUrls. rewrite map_trim_split. cbv zeta.
  destruct urls as [|u urls]; [reflexivity|].
  unfold Js.split. rewrite split_go_join; [| reflexivity | | discriminate].
  - rewrite filter_all.
    + apply (filter_indexed_nodup [] (u :: urls)). exact Hd.
    + eapply Forall_impl; [|exact H]. intros a Ha.
      now apply is_bulk_url_clean in Ha.
  - eapply Forall_impl; [|exact H]. intros a Ha.
    apply is_bulk_url_clean in Ha. tauto.
Qed.

(** X18. The URLs of a batch survive being written out and read again. A
    list of distinct pieces that start with [http] and hold no comma
    and no white space, joined by newlines, is parsed into the same
    list in the same order; and what [parseBulkUrls] gives is always
    such a list, so that parsing its output again changes nothing. *)
Theorem parsing_the_joined_urls_gives_them_back :
  (forall urls : list Js.str,
      Forall (fun u => is_bulk_url u = true) urls -> NoDup urls ->
      parseBulkUrls (join 10 urls) = urls)
  /\ (forall text : Js.str,
         Forall (fun u => is_bulk_url u = true) (parseBulkUrls text)
         /\ parseBulkUrls (join 10 (parseBulkUrls text)) = parseBulkUrls text).
Proof.
  split; [exact parse_join|]. intros text.
  destruct (parseBulkUrls_spec text) as [Hd Hin].
  assert (F : Forall (fun u => is_bulk_url u = true) (parseBulkUrls text)).
  { apply Forall_forall. intros u Hu. apply Hin in Hu. destruct Hu as [Hs Hh].
    unfold is_bulk_url. rewrite Hh. cbn [andb].
    pose proof (split_go_clean is_bulk_separator text [] false (Forall_nil _)) as C.
    rewrite Forall_forall in C. specialize (C u Hs).
    apply forallb_forall. intros x Hx. rewrite Forall_forall in C.
    now rewrite (C x Hx). }
  split; [exact F | now apply parse_join].
Qed.

Example two_urls_round_trip :
  parseBulkUrls (join 10 [js "https://a.com/x"; js "http://b.org/y"])
  = [js "https://a.com/x"; js "http://b.org/y"].
Proof. vm_compute. reflexivity. Qed.

(* ===================================================================== *)
(** ** The sitemap crawler *)
(* ===================================================================== *)

Section Crawler.

Variable w : CrawlWorld.

Lemma NoDup_firstn {A} (n : nat) (l : list A) : NoDup l -> NoDup (firstn n l).
Proof.
  intros H. revert n. induction H as [|x l Hx _ IH]; intros [|n]; cbn;
    try constructor.
  - intros Hin. apply Hx. now apply In_firstn in Hin.
  - apply IH.
Qed.

Lemma unique_spec (l : list Js.str) :
  NoDup (unique l) /\ forall u, In u (unique l) <-> In u l.
Proof.
  destruct (filter_indexed_first [] l) as [H1 H2]. cbn in H1, H2.
  split; [exact H1|]. intros u. rewrite H2. tauto.
Qed.

Lemma uniqueUrls_spec (text : Js.str) :
  (List.length (uniqueUrls w text) <= 300)%nat
  /\ NoDup (uniqueUrls w text)
  /\ forall u, In u (uniqueUrls w text) ->
               In u (locTexts w text) /\ keeps_url w u = true.
Proof.
  unfold uniqueUrls. cbv zeta. split; [apply firstn_le_length|]. split.
  - apply NoDup_firstn. apply NoDup_filter. apply unique_spec.
  - intros u Hu. apply In_firstn in Hu. apply filter_In in Hu.
    destruct Hu as [Hu Hk].
    apply (proj1 (proj2 (unique_spec _) u)) in Hu. apply filter_In in Hu.
    split; [apply Hu | exact Hk].
Qed.

Lemma discovered_ids (urls : list Js.str) : map id (discovered w urls) = urls.
Proof.
  unfold discovered. rewrite map_map. cbn [id]. apply map_id.
Qed.

Lemma pages_of_crawl (sitemapUrl : Js.str) (pages : list SitemapPage) :
  In (storeAddPages pages) (handleCrawlSitemap w sitemapUrl) ->
  exists text,
    (directFetch w = Some text
     \/ directFetch w = None /\ proxyFetch w = Some text)
    /\ text <> []
    /\ pages = discovered w (uniqueUrls w text).
Proof.
  unfold handleCrawlSitemap, fetchSitemap.
  destruct (negb (Js.truthy sitemapUrl)).
  { intros [H|[]]. discriminate H. }
  destruct (directFetch w) as [t|] eqn:D; [|destruct (proxyFetch w) as [t|] eqn:P];
    cbv zeta; cbn [negb orb app];
    try destruct t as [|c t]; cbn [Js.truthy negb app]; intros H;
    cbn [In] in H;
    repeat (destruct H as [H|H];
            [first [ discriminate H
                   | injection H as <-; eexists;
                     split; [eauto|]; split; [discriminate | reflexivity] ]|]);
    destruct H.
Qed.

End Crawler.

(** X19. What a crawl adds to the store: at most 300 pages with distinct
    ids, each of them a [loc] of the sitemap that starts with [http] and
    whose lower-case form holds none of the excluded patterns, each with
    a title that is not empty and with no health score yet. *)
Theorem crawled_pages_are_distinct_and_filtered :
  forall (w : CrawlWorld) (sitemapUrl : Js.str) (pages : list SitemapPage),
    In (storeAddPages pages) (handleCrawlSitemap w sitemapUrl) ->
    (List.length pages <= 300)%nat
    /\ NoDup (map id pages)
    /\ Forall (fun p =>
                 Js.startsWith (id p) (js "http") = true
                 /\ (forall pat, In pat exclude ->
                                 includes (toLowerCase w (id p)) pat = false)
                 /\ title p <> []
                 /\ healthScore p = None /\ jobState p = None
                 /\ exists text,
                      (directFetch w = Some text \/ proxyFetch w = Some text)
                      /\ In (id p) (locTexts w text)) pages.
Proof.
  intros w sitemapUrl pages H.
  destruct (pages_of_crawl w sitemapUrl pages H) as [text [Hf [_ ->]]].
  destruct (uniqueUrls_spec w text) as [H1 [H2 H3]].
  split; [unfold discovered; now rewrite length_map|].
  split; [now rewrite discovered_ids|].
  apply Forall_forall. intros p Hp. unfold discovered in Hp.
  apply in_map_iff in Hp. destruct Hp as [u [<- Hu]]. cbn [id title healthScore jobState].
  destruct (H3 u Hu) as [Hl Hk]. unfold keeps_url in Hk.
  destruct (Js.truthy u) eqn:T; [|discriminate Hk].
  destruct (Js.startsWith u (js "http")) eqn:S; [|discriminate Hk].
  cbn [negb orb] in Hk. cbv zeta in Hk. apply negb_true_iff in Hk.
  split; [reflexivity|]. split.
  - intros pat Hpat. destruct (includes (toLowerCase w u) pat) eqn:I;
      [|reflexivity].
    assert (X : existsb (fun p => includes (toLowerCase w u) p) exclude = true).
    { apply existsb_exists. now exists pat. }
    rewrite X in Hk. discriminate Hk.
  - split.
    + unfold Js.or_else. destruct (titleOfUrl w u); cbn; discriminate.
    + split; [reflexivity|]. split; [reflexivity|].
      exists text. split; [tauto | exact Hl].
Qed.

(** X20. The fetches and the outcome of a crawl. With no sitemap URL nothing
    is fetched and the processing flag is not touched. Otherwise the
    flag is raised first and lowered last, whatever happens; the proxy
    is fetched exactly when the direct fetch failed; an empty body, even
    from a direct fetch that succeeded, fails the crawl without a
    second try; and the crawl either adds pages and clears the input, or
    shows an error and leaves the input alone. *)
Theorem crawl_fetches_and_outcome :
  forall (w : CrawlWorld) (sitemapUrl : Js.str),
    let evs := handleCrawlSitemap w sitemapUrl in
    (sitemapUrl = [] ->
     evs = [addToast (js "Enter a sitemap URL") (js "warning")])
    /\ (sitemapUrl <> [] ->
        (exists mid,
            evs = setProcessing true :: fetchDirect sitemapUrl
                  :: mid ++ [setProcessing false]
            /\ Forall (fun e => match e with
                                | setProcessing _ | fetchDirect _ => False
                                | _ => True
                                end) mid)
        /\ (existsb is_proxy_fetch evs = true <-> directFetch w = None)
        /\ (directFetch w = Some [] ->
            existsb is_error_toast evs = true /\ existsb is_pages evs = false)
        /\ (existsb is_pages evs = true ->
            In (setSitemapUrl []) evs /\ existsb is_error_toast evs = false)
        /\ (existsb is_pages evs = false ->
            ~ In (setSitemapUrl []) evs /\ existsb is_error_toast evs = true)).
Proof.
  intros w sitemapUrl. cbv zeta. unfold handleCrawlSitemap, fetchSitemap.
  split; [intros ->; reflexivity|].
  intros Hn. destruct sitemapUrl as [|c0 u0]; [contradiction|].
  cbn [Js.truthy negb].
  assert (Mid : forall a b (rest : list CrawlEvent),
             Forall (fun e => match e with
                              | setProcessing _ | fetchDirect _ => False
                              | _ => True
                              end) rest ->
             exists mid,
               a :: b :: rest ++ [setProcessing false]
               = a :: b :: mid ++ [setProcessing false]
               /\ Forall (fun e => match e with
                                   | setProcessing _ | fetchDirect _ => False
                                   | _ => True
                                   end) mid).
  { intros a b rest H. now exists rest. }
  destruct (directFetch w) as [t|] eqn:D; [|destruct (proxyFetch w) as [t|] eqn:P];
    cbv zeta; cbn [negb orb app];
    try destruct t as [|c t]; cbn [Js.truthy negb app].
  - split; [apply (Mid _ _ [_]); repeat constructor|].
    split; [split; intros H; discriminate H|].
    split; [intros _; split; reflexivity|].
    split; [intros H; discriminate H|].
    intros _. split; [|reflexivity]. cbn [In]. intros K.
    repeat (destruct K as [K|K]; [discriminate K|]). destruct K.
  - split; [apply (Mid _ _ [_; _; _]); repeat constructor|].
    split; [split; intros H; discriminate H|].
    split; [intros H; discriminate H|].
    split; [intros _; split; [cbn [In]; tauto | reflexivity]|].
    intros H. discriminate H.
  - split; [apply (Mid _ _ [_; _]); repeat constructor|].
    split; [split; reflexivity|].
    split; [intros H; discriminate H|].
    split; [intros H; discriminate H|].
    intros _. split; [|reflexivity]. cbn [In]. intros K.
    repeat (destruct K as [K|K]; [discriminate K|]). destruct K.
  - split; [apply (Mid _ _ [_; _; _; _]); repeat constructor|].
    split; [split; reflexivity|].
    split; [intros H; discriminate H|].
    split; [intros _; split; [cbn [In]; tauto | reflexivity]|].
    intros H. discriminate H.
  - split; [apply (Mid _ _ [_; _]); repeat constructor|].
    split; [split; reflexivity|].
    split; [intros H; discriminate H|].
    split; [intros H; discriminate H|].
    intros _. split; [|reflexivity]. cbn [In]. intros K.
    repeat (destruct K as [K|K]; [discriminate K|]). destruct K.
Qed.

Lemma crawl_witness :
  let w := {| directFetch := None;
              proxyFetch := Some (js "<urlset>...</urlset>");
              locTexts := fun _ => [js "https://a.com/x"; js "https://a.com/x";
                                    js "https://a.com/feed/"; js "ftp://a.com/y"];
              toLowerCase := fun u => u;
              titleOfUrl := fun _ => js "X"; slugOfUrl := fun _ => js "x" |} in
  handleCrawlSitemap w (js "https://a.com/sitemap.xml")
  = [ setProcessing true;
      fetchDirect (js "https://a.com/sitemap.xml");
      fetchThroughProxy (js "https://a.com/sitemap.xml");
      storeAddPages [{| id := js "https://a.com/x"; title := js "X"; slug := js "x";
                        healthScore := None; jobState := None |}];
      addToast (js "Discovered 1 pages") (js "success");
      setSitemapUrl [];
      setProcessing false ]
  /\ (List.length [{| id := js "https://a.com/x"; title := js "X"; slug := js "x";
                      healthScore := None; jobState := None |}] <= 300)%nat.
Proof.
  cbv zeta. split; [vm_compute; reflexivity|].
  refine (proj1 (crawled_pages_are_distinct_and_filtered
                   {| directFetch := None;
                      proxyFetch := Some (js "<urlset>...</urlset>");
                      locTexts := fun _ => [js "https://a.com/x"; js "https://a.com/x";
                                            js "https://a.com/feed/";
                                            js "ftp://a.com/y"];
                      toLowerCase := fun u => u;
                      titleOfUrl := fun _ => js "X"; slugOfUrl := fun _ => js "x" |}
                   (js "https://a.com/sitemap.xml")
                   [{| id := js "https://a.com/x"; title := js "X"; slug := js "x";
                       healthScore := None; jobState := None |}] _)).
  vm_compute. right. right. right. left. reflexivity.
Defined.

(* ===================================================================== *)
(** ** What the calls of a run carry *)
(* ===================================================================== *)

Section PlanFacts.

Variable cfg : Config.
Variable w : World.

(** Where a call of the plan comes from. *)
Lemma call_of_plan (t : Js.str) (c : Call) :
  In c (call_plan cfg w t) ->
  exists page,
    getPage w = Some page
    /\ (c = wpResolvePostIdEnhanced (site cfg) t
        \/ exists postId,
             resolvePost w = Ok postId
             /\ (call_rank c < 5
                 \/ c = generateEnhanced (resolved_topic cfg w page postId)
                          (links_of cfg t)
                 \/ exists raw,
                      generate w = Ok raw
                      /\ too_short (htmlContent (polished w raw)) = false
                      /\ (c = fst (publish_call cfg w postId
                                     (preserved cfg w postId) (polished w raw))
                          \/ exists pid,
                               c = wpUpdatePostMeta (site cfg) pid
                                     (c_title (polished w raw))
                                     (metaDescription (polished w raw))
                                     (resolved_topic cfg w page postId)))).
Proof.
  unfold call_plan.
  destruct (getPage w) as [page|]; [|intros []].
  intros H. exists page. split; [reflexivity|].
  destruct H as [H|H]; [now left|]. right.
  destruct (resolvePost w) as [postId|e]; [|destruct H].
  exists postId. split; [reflexivity|]. cbv zeta in H.
  rewrite !in_app_iff in H.
  destruct H as [H|[H|[H|H]]].
  - left. destruct (truthy_num postId); [|destruct H].
    destruct H as [<-|[]]. reflexivity.
  - left. destruct (Js.truthy (serper (apiKeys cfg))); [|destruct H].
    destruct H as [<-|[]]. reflexivity.
  - left. destruct (hasNeuronConfig cfg); [|destruct H].
    destruct H as [<-|[]]. reflexivity.
  - destruct H as [H|H]; [right; left; now symmetry|].
    right. right. destruct (generate w) as [raw|e]; [|destruct H].
    exists raw. split; [reflexivity|].
    destruct (too_short (htmlContent (polished w raw))); [destruct H|].
    split; [reflexivity|]. destruct H as [H|H]; [left; now symmetry|].
    right.
    destruct (snd (publish_call cfg w postId (preserved cfg w postId)
                     (polished w raw))) as [r|e]; [|destruct H].
    destruct H as [<-|[]]. now exists (fst r).
Qed.

Lemma not_too_short (html : Js.str) :
  too_short html = false -> 2000 <= Js.len html.
Proof.
  unfold too_short. intros H. apply orb_false_iff in H. destruct H as [_ H].
  now apply Z.ltb_ge.
Qed.

Lemma work_phase_step (p : Js.str) :
  is_work_phase p = true ->
  1 <= currentStep p /\ lookup_phase PHASE_CONFIG p <> None.
Proof.
  unfold is_work_phase, currentStep, phaseConfig.
  destruct (lookup_phase PHASE_CONFIG p) as [c|]; [|discriminate].
  intros H. apply Z.ltb_lt in H. split; [lia | discriminate].
Qed.

End PlanFacts.

(** X21. Every phase that a run displays is a key of the phase table. All
    progress snapshots but the last are in one of the fifteen working
    phases, so that the display never falls back to the entry of
    [idle] during a run; the last one is in such a phase or in the
    phase [failed]. *)
Theorem displayed_phases_are_in_the_table :
  forall cfg w silentMode t flag reqs,
    exists init last,
      snapshots idle_progress (snd (run cfg w silentMode t flag reqs))
      = init ++ [last]
      /\ Forall (fun p => 1 <= currentStep (phase p)
                          /\ lookup_phase PHASE_CONFIG (phase p) <> None) init
      /\ (phase last = js "failed"
          \/ 1 <= currentStep (phase last)
             /\ lookup_phase PHASE_CONFIG (phase last) <> None).
Proof.
  intros cfg w silentMode t flag reqs. rewrite run_den.
  destruct (run_closes cfg w silentMode t) as [l [-> [E [fin [-> [HE Hfin]]]]]].
  set (p0 := initial_progress cfg w t).
  destruct (snapshots_steady silentMode E p0 HE eq_refl eq_refl) as [S1 [S2 S3]].
  cbn [snapshots]. rewrite snapshots_app.
  assert (Hlast : exists q,
             snapshots (progress_after p0 E) [fin] = [q]
             /\ (phase q = js "failed" \/ is_work_phase (phase q) = true)).
  { destruct Hfin as [-> | ->]; cbn; eexists; split; try reflexivity.
    - now left.
    - right. exact S3. }
  destruct Hlast as [q [Eq Q]]. rewrite Eq.
  exists (p0 :: snapshots p0 E), q. split; [reflexivity|]. split.
  - constructor; [now apply work_phase_step|].
    eapply Forall_impl; [|exact S1]. intros a [_ Ha].
    now apply work_phase_step.
  - destruct Q as [Q|Q]; [now left | right; now apply work_phase_step].
Qed.

(** X22. What is written to WordPress. A post is sent as a draft unless the
    publish mode is [autopublish], when it is sent as published; its
    title is the one of the generated contract and its content is the
    generated HTML without its H1 tags, of at least 2000 characters. *)
Theorem posts_are_drafts_unless_autopublish :
  forall cfg w silentMode t flag reqs c,
    In c (calls_of (snd (run cfg w silentMode t flag reqs))) ->
    forall data,
      (exists s pid o, c = wpUpdatePost s pid data o)
      \/ (exists s, c = wpCreatePost s data) ->
      pd_status data
      = (if Js.eqb (publishMode cfg) (js "autopublish")
         then js "publish" else js "draft")
      /\ exists raw,
           generate w = Ok raw
           /\ pd_title data = c_title raw
           /\ pd_content data = removeAllH1Tags w (htmlContent raw)
           /\ 2000 <= Js.len (pd_content data).
Proof.
  intros cfg w silentMode t flag reqs c. rewrite run_den, calls_of_run.
  destruct (guard_error cfg (target_of cfg t)) as [msg|]; [intros []|].
  intros H data Hc. apply call_of_plan in H.
  destruct H as [page [_ [H|[postId [_ H]]]]].
  { subst c. destruct Hc as [[s [pid [o Hc]]]|[s Hc]]; discriminate Hc. }
  destruct H as [H|[H|[raw [Hg [Hs [H|[pid H]]]]]]].
  - exfalso. destruct Hc as [[s [pid [o ->]]]|[s ->]]; cbn in H; lia.
  - subst c. destruct Hc as [[s [pid [o Hc]]]|[s Hc]]; discriminate Hc.
  - apply not_too_short in Hs. cbn [polished htmlContent] in Hs.
    unfold publish_call in H.
    destruct (truthy_num postId) as [p|]; cbn [fst] in H; subst c;
      destruct Hc as [[s [pid [o Hc]]]|[s Hc]]; try discriminate Hc;
      injection Hc as <-; subst;
      (split; [reflexivity|]); exists raw; now repeat split.
  - subst c. destruct Hc as [[s [pid' [o Hc]]]|[s Hc]]; discriminate Hc.
Qed.

Lemma posts_are_drafts_witness :
  let out := run Sample.cfg (Sample.world 2000 300 80) false [] false [] in
  exists data,
    In (wpUpdatePost (js "https://a.com") 12 data (update_options Sample.cfg))
       (calls_of (snd out))
    /\ pd_status data = js "draft".
Proof.
  cbv zeta.
  exists (update_data Sample.cfg (polished (Sample.world 2000 300 80)
                                    (Sample.contract 2000))
            (preserved Sample.cfg (Sample.world 2000 300 80) (Some 12))).
  assert (H : In (wpUpdatePost (js "https://a.com") 12
                    (update_data Sample.cfg
                       (polished (Sample.world 2000 300 80) (Sample.contract 2000))
                       (preserved Sample.cfg (Sample.world 2000 300 80) (Some 12)))
                    (update_options Sample.cfg))
                (calls_of (snd (run Sample.cfg (Sample.world 2000 300 80) false []
                                  false [])))).
  { rewrite run_den, calls_of_run. cbn.
    repeat first [ left; reflexivity | right ]. }
  split; [exact H|].
  exact (proj1 (posts_are_drafts_unless_autopublish _ _ _ _ _ _ _ H _
                  (or_introl (ex_intro _ _ (ex_intro _ _ (ex_intro _ _ eq_refl)))))).
Defined.

(** X23. The keyword override is the topic. When the keyword override,
    trimmed, has more than three characters, the synthesis is asked for
    that keyword and the metadata update gets it as the focus keyword,
    whatever the titles of the page and of the post are. *)
Theorem keyword_override_is_the_topic :
  forall cfg w silentMode t flag reqs,
    3 < Js.len (Js.trim (targetKeywordOverride cfg)) ->
    let calls := calls_of (snd (run cfg w silentMode t flag reqs)) in
    (forall topic links,
        In (generateEnhanced topic links) calls ->
        topic = Js.trim (targetKeywordOverride cfg))
    /\ (forall s pid title description focusKeyword,
           In (wpUpdatePostMeta s pid title description focusKeyword) calls ->
           focusKeyword = Js.trim (targetKeywordOverride cfg)).
Proof.
  intros cfg w silentMode t flag reqs Hk. cbv zeta.
  rewrite run_den, calls_of_run.
  assert (T : forall page postId,
             resolved_topic cfg w page postId = Js.trim (targetKeywordOverride cfg)).
  { intros page postId. unfold resolved_topic.
    assert (N : Js.truthy (targetKeywordOverride cfg) = true).
    { destruct (targetKeywordOverride cfg); [cbn in Hk; lia | reflexivity]. }
    rewrite N. apply Z.ltb_lt in Hk. now rewrite Hk. }
  destruct (guard_error cfg (target_of cfg t)) as [msg|];
    [split; intros; contradiction|].
  split.
  - intros topic links H. apply call_of_plan in H.
    destruct H as [page [_ [H|[postId [_ H]]]]]; [discriminate H|].
    destruct H as [H|[H|[raw [_ [_ [H|[pid H]]]]]]].
    + cbn in H. lia.
    + injection H as -> _. apply T.
    + unfold publish_call in H. destruct (truthy_num postId); discriminate H.
    + discriminate H.
  - intros s pid title description focusKeyword H. apply call_of_plan in H.
    destruct H as [page [_ [H|[postId [_ H]]]]]; [discriminate H|].
    destruct H as [H|[H|[raw [_ [_ [H|[pid' H]]]]]]].
    + cbn in H. lia.
    + discriminate H.
    + unfold publish_call in H. destruct (truthy_num postId); discriminate H.
    + injection H as _ _ _ _ ->. apply T.
Qed.

Lemma keyword_override_witness :
  let cfg := {| manualUrl := []; targetKeywordOverride := js "  best running shoes ";
                preserveFeaturedImage := true; preserveCategories := true;
                preserveTags := true; apiKeys := Sample.keys;
                neuronEnabled := false; wpConfig := wpConfig Sample.cfg;
                publishMode := js "draft"; pages := [Sample.page] |} in
  In (generateEnhanced (js "best running shoes") [])
     (calls_of (snd (run cfg (Sample.world 2000 300 80) false [] false [])))
  /\ js "best running shoes" = Js.trim (targetKeywordOverride cfg).
Proof.
  cbv zeta.
  match goal with
  | |- ?A /\ _ => assert (H : A)
  end.
  { rewrite run_den, calls_of_run. cbn.
    repeat first [ left; reflexivity | right ]. }
  split; [exact H|].
  refine (proj1 (keyword_override_is_the_topic _ _ _ _ _ _ _) _ _ H).
  vm_compute. reflexivity.
Defined.

